(** * Windowing, evaluation frame and MAPE of the RNN forecasting notebooks

    The notebooks frame hourly load forecasting as supervised learning:
    a time-indexed table is shifted into fixed-length windows, rows with a
    missing value are dropped, a model predicts, and the predictions are
    melted into a long evaluation frame on which the mean absolute
    percentage error is computed.

    The development embeds
    - the pandas operations the notebooks call ([shift] with a frequency,
      column assignment with index alignment, [dropna], [melt]);
    - the inline windowing of the one-step notebook ([train_shifted],
      [valid_shifted], [test_shifted]), its splits, its evaluation frame
      ([eval_df]) and [mape];
    - the windowing engine [TimeSeriesTensor], whose file is not part of the
      sources and is modelled from the specification;
    - [load_data], the cells that rename and read out the training arrays,
      the scoring functions of the encoder-decoder notebook
      ([predict_single_sequence], [predict_multi_sequence]) and the grid
      search of the feed-forward notebook.

    Numbers are IEEE 754 binary64 values, as pandas and numpy hold them:
    the missing-value marker is NaN. *)

From Stdlib Require Import ZArith List Bool String Ascii Lia.
From Stdlib Require Import SpecFloat DecimalString DecimalZ.
Import ListNotations.
Open Scope string_scope.
Open Scope list_scope.
Open Scope Z_scope.

(** ** binary64 numbers *)

Definition prec : Z := 53.
Definition emax : Z := 1024.

Set Warnings "-notation-for-abbreviation".
Notation float := spec_float (only parsing).

Definition NaN : float := S754_nan.
Definition zero : float := S754_zero false.

Definition fadd : float -> float -> float := SFadd prec emax.
Definition fsub : float -> float -> float := SFsub prec emax.
Definition fdiv : float -> float -> float := SFdiv prec emax.
Definition fabs : float -> float := SFabs.

(** The float nearest to an integer, and to a quotient of two integers
    (so [ratio 1 10] is the double written [0.1]). *)
Definition Zfloat (z : Z) : float := binary_normalize prec emax z 0 false.
Definition ratio (a b : Z) : float := fdiv (Zfloat a) (Zfloat b).

Definition is_nan (x : float) : bool :=
  match x with S754_nan => true | _ => false end.

Definition is_inf (x : float) : bool :=
  match x with S754_infinity _ => true | _ => false end.

Definition is_zero (x : float) : bool :=
  match x with S754_zero _ => true | _ => false end.

(** A finite number: neither NaN nor an infinity. *)
Definition is_finite (x : float) : bool :=
  match x with S754_zero _ | S754_finite _ _ _ => true | _ => false end.

(** ** Python helpers *)

(** [range a b] is Python's [range(a, b)]. *)
Definition range (a b : Z) : list Z :=
  map (fun i => a + Z.of_nat i) (seq 0 (Z.to_nat (b - a))).

(** [str n] is Python's [str(n)] on an integer. *)
Definition str (n : Z) : string := NilEmpty.string_of_int (Z.to_int n).

(** Exceptions raised by Python and pandas in the modelled code. *)
Inductive exception : Type :=
| KeyError (key : string)
| ValueError (msg : string)
| OverflowError
| OutOfBoundsDatetime.

Inductive result (A : Type) : Type :=
| Ok (a : A)
| Raise (e : exception).
Arguments Ok {A} a.
Arguments Raise {A} e.

Definition bind {A B} (m : result A) (k : A -> result B) : result B :=
  match m with
  | Ok a => k a
  | Raise e => Raise e
  end.

Notation "x <- m ;; k" := (bind m (fun x => k))
  (at level 61, m at next level, right associativity).

(** A [for] loop whose body updates a state and may raise. *)
Fixpoint for_each {A S} (xs : list A) (body : A -> S -> result S) (s : S)
  : result S :=
  match xs with
  | [] => Ok s
  | x :: xs' => s' <- body x s ;; for_each xs' body s'
  end.

(** ** pandas: series and frames over a time index *)

(** A timestamp, in seconds. *)
Notation Timestamp := Z (only parsing).

(** The frequency ['H']: one hour. *)
Definition Hour : Z := 3600.

(** A series: values labelled by timestamps, in index order. *)
Definition Series := list (Timestamp * float).

(** A frame: named columns and rows labelled by timestamps; each row holds
    one value per column. *)
Record DataFrame : Type := mkDataFrame {
  columns : list string;
  rows : list (Timestamp * list float)
}.

Definition index (df : DataFrame) : list Timestamp := map fst (rows df).

Fixpoint position (c : string) (cs : list string) : option nat :=
  match cs with
  | [] => None
  | c' :: cs' =>
      if String.eqb c c' then Some 0%nat
      else option_map S (position c cs')
  end.

(** [df[c]]: the column as a series; [KeyError] when there is none. *)
Definition getitem (df : DataFrame) (c : string) : result Series :=
  match position c (columns df) with
  | None => Raise (KeyError c)
  | Some j => Ok (map (fun r => (fst r, nth j (snd r) NaN)) (rows df))
  end.

(** [df[[c1; ...]]]: the frame restricted to the listed columns. *)
Fixpoint positions (cs : list string) (all : list string)
  : result (list nat) :=
  match cs with
  | [] => Ok []
  | c :: cs' =>
      match position c all with
      | None => Raise (KeyError c)
      | Some j => js <- positions cs' all ;; Ok (j :: js)
      end
  end.

Definition getitems (df : DataFrame) (cs : list string) : result DataFrame :=
  js <- positions cs (columns df) ;;
  Ok {| columns := cs;
        rows := map (fun r => (fst r, map (fun j => nth j (snd r) NaN) js))
                    (rows df) |}.

(** [df[mask]] for a mask computed from the index. *)
Definition filter_index (p : Timestamp -> bool) (df : DataFrame) : DataFrame :=
  {| columns := columns df;
     rows := filter (fun r => p (fst r)) (rows df) |}.

(** [s.shift(periods, freq)]: with a frequency the values stay and the index
    moves by [periods] steps of [freq]. *)
Definition shift (periods freq : Z) (s : Series) : Series :=
  map (fun e => (fst e + periods * freq, snd e)) s.

(** The value a series holds at a label, NaN when the label is absent. *)
Definition lookup (s : Series) (t : Timestamp) : float :=
  match find (fun e => fst e =? t) s with
  | Some e => snd e
  | None => NaN
  end.

Fixpoint is_unique (ts : list Timestamp) : bool :=
  match ts with
  | [] => true
  | t :: ts' => negb (existsb (Z.eqb t) ts') && is_unique ts'
  end.

Fixpoint index_equals (xs ys : list Timestamp) : bool :=
  match xs, ys with
  | [], [] => true
  | x :: xs', y :: ys' => (x =? y) && index_equals xs' ys'
  | _, _ => false
  end.

(** The values of a series laid out on a frame's index: taken as they are
    when the two indexes are equal, otherwise re-indexed, which pandas
    refuses when the series' index has a duplicate. *)
Definition reindex (s : Series) (idx : list Timestamp) : result (list float) :=
  if index_equals (map fst s) idx then Ok (map snd s)
  else if is_unique (map fst s) then Ok (map (lookup s) idx)
  else Raise (ValueError "cannot reindex from a duplicate axis").

Fixpoint set_nth {A} (j : nat) (v : A) (l : list A) : list A :=
  match l, j with
  | [], _ => []
  | _ :: l', O => v :: l'
  | x :: l', S j' => x :: set_nth j' v l'
  end.

Fixpoint map2 {A B C} (f : A -> B -> C) (xs : list A) (ys : list B) : list C :=
  match xs, ys with
  | x :: xs', y :: ys' => f x y :: map2 f xs' ys'
  | _, _ => []
  end.

(** Writing a column of values: an existing name is overwritten in place, a
    new name is appended as the last column. *)
Definition insert_column (df : DataFrame) (c : string) (vals : list float)
  : DataFrame :=
  match position c (columns df) with
  | Some j =>
      {| columns := columns df;
         rows := map2 (fun r v => (fst r, set_nth j v (snd r))) (rows df) vals |}
  | None =>
      {| columns := columns df ++ [c];
         rows := map2 (fun r v => (fst r, snd r ++ [v])) (rows df) vals |}
  end.

(** A frame without rows takes the index of the first series assigned to
    it; its existing columns are filled with NaN. *)
Definition ensure_valid_index (df : DataFrame) (s : Series) : DataFrame :=
  match rows df with
  | [] =>
      {| columns := columns df;
         rows := map (fun e => (fst e, repeat NaN (List.length (columns df)))) s |}
  | _ :: _ => df
  end.

(** [df[c] = s] for a series [s]: aligned on the frame's index. *)
Definition setitem (df : DataFrame) (c : string) (s : Series)
  : result DataFrame :=
  let df := ensure_valid_index df s in
  vals <- reindex s (index df) ;;
  Ok (insert_column df c vals).

(** [df.dropna(how='any')]: rows holding a NaN are removed. *)
Definition complete (r : Timestamp * list float) : bool :=
  forallb (fun v => negb (is_nan v)) (snd r).

Definition dropna (df : DataFrame) : DataFrame :=
  {| columns := columns df; rows := filter complete (rows df) |}.

(** [df.as_matrix()]: the values, one list per row. *)
Definition as_matrix (df : DataFrame) : list (list float) :=
  map snd (rows df).

(** ** The one-step notebook: splits *)

(** Timestamps count the seconds since 1970-01-01 00:00:00.  Python's
    [datetime] reaches from 0001-01-01 00:00:00 to 9999-12-31 23:59:59, a
    pandas [Timestamp], which counts nanoseconds in 64 bits, from
    1677-09-21 00:12:44 to 2262-04-11 23:47:16. *)
Definition datetime_min : Z := -62135596800.
Definition datetime_max : Z := 253402300799.
Definition Timestamp_min : Z := -9223372036.
Definition Timestamp_max : Z := 9223372036.

(** A date given as a string ['%Y-%m-%d %H:%M:%S'] is the datetime it
    denotes; a number outside the range of [datetime] stands for a string
    with a year that [strptime] refuses. *)
Definition strptime (date : Z) : result Z :=
  if (datetime_min <=? date) && (date <=? datetime_max) then Ok date
  else Raise (ValueError "time data does not match format").

(** [dt.datetime.strptime(start_dt, '%Y-%m-%d %H:%M:%S') - dt.timedelta(hours=T-1)]:
    the subtraction raises [OverflowError] when the result is no
    [datetime]; [timedelta] itself raises it for more than 999999999 days,
    which lead out of the range of [datetime] from any start. *)
Definition look_back (start_dt T : Z) : result Z :=
  start <- strptime start_dt ;;
  let look_back_dt := start - (T - 1) * Hour in
  if (datetime_min <=? look_back_dt) && (look_back_dt <=? datetime_max)
  then Ok look_back_dt
  else Raise OverflowError.

(** A datetime or a date string that meets a [DatetimeIndex], in a
    comparison or as the bound of a slice, is turned into a [Timestamp],
    which pandas refuses out of its bounds. *)
Definition to_timestamp (date : Z) : result Timestamp :=
  if (Timestamp_min <=? date) && (date <=? Timestamp_max) then Ok date
  else Raise OutOfBoundsDatetime.

(** [energy[energy.index < valid_start_dt][['load']]] *)
Definition train (energy : DataFrame) (valid_start_dt : Timestamp)
  : result DataFrame :=
  valid_start <- to_timestamp valid_start_dt ;;
  getitems (filter_index (fun t => t <? valid_start) energy) ["load"].

(** The validation split keeps [T-1] hours before its start:
    [look_back_dt = dt.datetime.strptime(valid_start_dt, ...) - dt.timedelta(hours=T-1)]
    and
    [energy[(energy.index >= look_back_dt) & (energy.index < test_start_dt)][['load']]]. *)
Definition valid (energy : DataFrame) (valid_start_dt test_start_dt : Timestamp)
  (T : Z) : result DataFrame :=
  look_back_dt <- look_back valid_start_dt T ;;
  look_back_dt <- to_timestamp look_back_dt ;;
  test_start <- to_timestamp test_start_dt ;;
  getitems
    (filter_index (fun t => (look_back_dt <=? t) && (t <? test_start)) energy)
    ["load"].

(** The test split computes [look_back_dt] as well and then slices from
    [test_start_dt]: [energy[test_start_dt:][['load']]].  On the sorted index
    of [load_data] the slice keeps the rows at or after the label. *)
Definition test (energy : DataFrame) (test_start_dt : Timestamp) (T : Z)
  : result DataFrame :=
  look_back_dt <- look_back test_start_dt T ;;
  test_start <- to_timestamp test_start_dt ;;
  getitems (filter_index (fun t => test_start <=? t) energy) ["load"].

(** ** The one-step notebook: windowing *)

(** [df[name] = df['load'].shift(periods, freq='H')] *)
Definition shift_load (name : string) (periods : Z) (df : DataFrame)
  : result DataFrame :=
  load <- getitem df "load" ;;
  setitem df name (shift periods Hour load).

(** The windowing cells of the training, validation and test sets differ
    in the names they give the columns (the training cell is followed by a
    cell that renames its columns, written out for [T = 6], which is not
    part of the windowing):
<<
    shifted = df.copy()
    shifted[y_col] = shifted['load'].shift(-1, freq='H')
    for t in range(1, T+1):
        shifted[x_col(T-t)] = shifted['load'].shift(T-t, freq='H')
    shifted = shifted.dropna(how='any')
>> *)
Definition shifted_frame (y_col : string) (x_col : Z -> string) (T : Z)
  (df : DataFrame) : result DataFrame :=
  shifted <- shift_load y_col (-1) df ;;
  shifted <- for_each (range 1 (T + 1))
               (fun t => shift_load (x_col (T - t)) (T - t)) shifted ;;
  Ok (dropna shifted).

Definition load_t (p : Z) : string := String.append "load_t-" (str p).

Definition train_shifted : Z -> DataFrame -> result DataFrame :=
  shifted_frame "y_t+1" str.

Definition valid_shifted : Z -> DataFrame -> result DataFrame :=
  shifted_frame "y+1" load_t.

Definition test_shifted : Z -> DataFrame -> result DataFrame :=
  shifted_frame "y_t+1" load_t.

(** [y_test = test_shifted['y_t+1'].as_matrix()] *)
Definition y_test (shifted : DataFrame) : result (list float) :=
  y <- getitem shifted "y_t+1" ;; Ok (map snd y).

(** [X_test = test_shifted[['load_t-'+str(T-t) for t in range(1, T+1)]].as_matrix()];
    the reshape to [(samples, T, 1)] keeps the order of the values. *)
Definition X_test (T : Z) (shifted : DataFrame) : result (list (list float)) :=
  X <- getitems shifted (map (fun t => load_t (T - t)) (range 1 (T + 1))) ;;
  Ok (as_matrix X).

(** ** The one-step notebook: evaluation frame *)

(** A row of the long evaluation frame.  A frame that had no rows when a
    column was assigned holds missing entries in its older columns: [None]
    stands for [NaT] in [timestamp] and for the missing label in [h]. *)
Record EvalRow : Type := mkEvalRow {
  timestamp : option Timestamp;
  h : option string;
  prediction : float;
  actual : float
}.

(** [df[c] = values] for a list-like that is not a series: a frame without
    rows takes one row per value, its other columns missing ([blank]);
    otherwise the lengths must agree. *)
Definition assign_values {R R' V} (blank : V -> R') (put : R -> V -> R')
  (frame : list R) (values : list V) : result (list R') :=
  match frame with
  | [] => Ok (map blank values)
  | _ :: _ =>
      if (List.length values =? List.length frame)%nat
      then Ok (map2 put frame values)
      else Raise (ValueError "Length of values does not match length of index")
  end.

(** [pd.DataFrame(predictions, columns=names)]: every row of the array
    must have one value per name. *)
Definition wide_frame (predictions : list (list float)) (names : list string)
  : result (list (list float)) :=
  if forallb (fun r => (List.length r =? List.length names)%nat) predictions
  then Ok predictions
  else Raise (ValueError "Shape of passed values does not match the columns").

(** [pd.melt(df, id_vars='timestamp', value_name='prediction', var_name='h')]:
    the value columns are stacked one after the other, each with all the
    rows of the frame in order. *)
Definition melt (names : list string) (wide : list (Timestamp * list float))
  : list (Timestamp * string * float) :=
  flat_map
    (fun jn => map (fun r => (fst r, snd jn, nth (fst jn) (snd r) NaN)) wide)
    (combine (seq 0 (List.length names)) names).

(** [np.transpose(y).ravel()] on a two-dimensional array given by its rows;
    a one-dimensional [y_test] is the array of one column. *)
Definition transpose_ravel (y : list (list float)) : list float :=
  flat_map (fun j => map (fun r => nth j r NaN) y)
           (seq 0 (List.length (hd [] y))).

(** The evaluation cell:
<<
    eval_df = pd.DataFrame(predictions, columns=['t+'+str(t) for t in range(1, HORIZON+1)])
    eval_df['timestamp'] = test_shifted.index
    eval_df = pd.melt(eval_df, id_vars='timestamp', value_name='prediction', var_name='h')
    eval_df['actual'] = np.transpose(y_test).ravel()
    eval_df[['prediction', 'actual']] = scaler.inverse_transform(eval_df[['prediction', 'actual']])
>>
    with a scaler that maps every value it is given: [inverse_transform] is
    the function applied to each value.  What a [MinMaxScaler] checks
    before it maps is added in [eval_df_scaled]. *)
Definition eval_df (predictions : list (list float))
  (test_shifted_index : list Timestamp) (y_test : list (list float))
  (HORIZON : Z) (inverse_transform : float -> float) : result (list EvalRow) :=
  let names := map (fun t => String.append "t+" (str t)) (range 1 (HORIZON + 1)) in
  wide <- wide_frame predictions names ;;
  wide <- assign_values (fun t => (t, repeat NaN (List.length names)))
            (fun r t => (t, r)) wide test_shifted_index ;;
  let long := melt names wide in
  long <- assign_values (fun a => mkEvalRow None None NaN a)
            (fun r a => mkEvalRow (Some (fst (fst r))) (Some (snd (fst r))) (snd r) a)
            long (transpose_ravel y_test) ;;
  Ok (map (fun r => mkEvalRow (timestamp r) (h r)
                      (inverse_transform (prediction r))
                      (inverse_transform (actual r))) long).

(** The long frame, written out: for every horizon step, in order, one row
    per anchor, in order. *)
Definition horizon_major (idx : list Timestamp) (predictions y : list (list float))
  (steps : nat) (f : float -> float) : list EvalRow :=
  flat_map
    (fun j =>
       map (fun i =>
              mkEvalRow (Some (nth i idx 0))
                        (Some (String.append "t+" (str (1 + Z.of_nat j))))
                        (f (nth j (nth i predictions []) NaN))
                        (f (nth j (nth i y []) NaN)))
           (seq 0 (List.length idx)))
    (seq 0 steps).

(** ** The one-step notebook: MAPE *)

(** Arithmetic of two series of one frame is element by element. *)
Definition series_sub (xs ys : list float) : list float := map2 fsub xs ys.
Definition series_div (xs ys : list float) : list float := map2 fdiv xs ys.
Definition series_abs (xs : list float) : list float := map fabs xs.

(** [ndarray.sum()] of a one-dimensional array of doubles.  numpy adds
    pairwise.  Fewer than 8 values are added in order, from zero.  Up to 128
    values are added in 8 accumulators, [r[j]] holding [a[j]], to which
    [a[8+j]], [a[16+j]], ... are added over the full blocks of 8; the
    accumulators are combined as
    [((r0+r1)+(r2+r3))+((r4+r5)+(r6+r7))] and the values after the last full
    block are added in order.  A longer array is split at [n/2] rounded down
    to a multiple of 8, and the sums of the halves are added. *)
Definition accumulator (a : list float) (j : nat) : float :=
  fold_left fadd
    (map (fun k => nth (8 * k + j) a zero) (seq 1 (List.length a / 8 - 1)))
    (nth j a zero).

Definition block_sum (a : list float) : float :=
  let r := accumulator a in
  let res := fadd (fadd (fadd (r 0%nat) (r 1%nat)) (fadd (r 2%nat) (r 3%nat)))
                  (fadd (fadd (r 4%nat) (r 5%nat)) (fadd (r 6%nat) (r 7%nat))) in
  fold_left fadd (skipn (List.length a - List.length a mod 8) a) res.

(** The recursion halves the array, so as many steps as the array has
    values are more than it takes ([pairwise_sum_fuel]). *)
Fixpoint pairwise_sum (fuel : nat) (a : list float) : float :=
  let n := List.length a in
  if (n <? 8)%nat then fold_left fadd a zero
  else if (n <=? 128)%nat then block_sum a
  else
    match fuel with
    | O => block_sum a
    | S fuel' =>
        let n2 := (n / 2 - (n / 2) mod 8)%nat in
        fadd (pairwise_sum fuel' (firstn n2 a)) (pairwise_sum fuel' (skipn n2 a))
    end.

(** The reduction starts from the identity of the addition, zero, and adds
    the pairwise sum of the array to it. *)
Definition fsum (xs : list float) : float :=
  fadd zero (pairwise_sum (List.length xs) xs).

(** [Series.mean()] skips NaN: the sum, numpy's, runs over the values with
    NaN replaced by zero, the count over the values that are not NaN, and
    the mean of no value is NaN. *)
Definition mean (xs : list float) : float :=
  let count := List.length (filter (fun x => negb (is_nan x)) xs) in
  let the_sum := fsum (map (fun x => if is_nan x then zero else x) xs) in
  if (count =? 0)%nat then NaN else fdiv the_sum (Zfloat (Z.of_nat count)).

(** [((predictions - actuals).abs() / actuals).mean()] *)
Definition mape (predictions actuals : list float) : float :=
  mean (series_div (series_abs (series_sub predictions actuals)) actuals).

(** The specification's wording of the metric, for comparison: the ratio of
    every element, averaged over all elements.  The elements are added one
    after the other, none skipped and none replaced, and the sum, taken
    from zero, is divided by their number. *)
Fixpoint add_in_order (acc : float) (xs : list float) : float :=
  match xs with
  | [] => acc
  | x :: xs' => add_in_order (fadd acc x) xs'
  end.

Definition mean_of_all (xs : list float) : float :=
  fdiv (fadd zero (add_in_order zero xs)) (Zfloat (Z.of_nat (List.length xs))).

Definition absolute_percentage_errors (predictions actuals : list float)
  : list float :=
  map2 (fun p a => fdiv (fabs (fsub p a)) a) predictions actuals.

(** ** The windowing engine

    [TimeSeriesTensor] is called by the notebooks and defined in none of the
    sources; this section follows sections 3 and 4.1 of the specification,
    on the pandas operations above. *)

(** Modelled from the spec: a tensor specification maps a tensor name to an
    offset range and a column subset; a dictionary in declaration order. *)
Definition TensorSpec := list (string * (list Z * list string)).

(** Modelled from the spec: the columns of the constructed table are keyed
    tensor name, column name, offset. *)
Record ColumnKey : Type := mkKey {
  tensor : string;
  feature : string;
  offset : Z
}.

(** Modelled from the spec: the constructed table, one row of values per
    surviving anchor timestamp. *)
Record ConstructedTensorTable : Type := mkConstructed {
  keys : list ColumnKey;
  samples : list (Timestamp * list float)
}.

(** Modelled from the spec: the failures of the construction (section 7). *)
Inductive BuildError : Type :=
| InvalidInputError
| ConfigurationError.

Fixpoint strictly_increasing (ts : list Timestamp) : bool :=
  match ts with
  | a :: (b :: _) as tl => (a <? b) && strictly_increasing tl
  | _ => true
  end.

Definition has_column (table : DataFrame) (c : string) : bool :=
  match position c (columns table) with Some _ => true | None => false end.

Definition column (table : DataFrame) (c : string) : Series :=
  match getitem table c with Ok s => s | Raise _ => [] end.

(** Modelled from the spec: the target tensor covers the offsets [1..H] of
    the target column. *)
Definition target_keys (target_column : string) (horizon : Z) : list ColumnKey :=
  map (mkKey "target" target_column) (range 1 (horizon + 1)).

(** Modelled from the spec: the columns of the declared tensors, by tensor,
    then column, then offset, each in declaration order. *)
Definition declared_keys (tensor_spec : TensorSpec) : list ColumnKey :=
  flat_map (fun d => flat_map (fun c => map (mkKey (fst d) c) (fst (snd d)))
                              (snd (snd d)))
           tensor_spec.

(** Modelled from the spec: the shifted copy of a column for offset [k]
    pulls the value [k] steps in the future to the anchor, a shift of the
    index by [-k] steps of the frequency. *)
Definition shifted_copy (table : DataFrame) (frequency : Z) (k : ColumnKey)
  : Series :=
  shift (- offset k) frequency (column table (feature k)).

(** Modelled from the spec: the shifted copies assembled in one table keyed
    by anchor timestamp, one row per timestamp of the table. *)
Definition windows (table : DataFrame) (frequency : Z) (ks : list ColumnKey)
  : list (Timestamp * list float) :=
  map (fun t => (t, map (fun k => lookup (shifted_copy table frequency k) t) ks))
      (index table).

(** Modelled from the spec: [TimeSeriesTensor] ([common/TimeSeriesTensor.py],
    [common/utils.py]) is not among the sources; only its calls and the
    display of its frame are.  Following section 4.1: the index must be
    sorted ascending and unique ([InvalidInputError]); the name ["target"]
    is reserved and the target column must exist ([ConfigurationError]);
    every offset [1..H] of the target and every declared offset of every
    tensor gives a shifted copy, all assembled in one table keyed by anchor
    timestamp; with [drop_incomplete] every row holding a missing value is
    removed.  The columns are keyed tensor, column, offset, and the target's
    columns come first, as the frame displayed by the notebooks has them.
    A declared column that the table lacks is treated as the target column
    is, which the specification leaves open. *)
Definition build (table : DataFrame) (target_column : string) (horizon : Z)
  (tensor_spec : TensorSpec) (frequency : Z) (drop_incomplete : bool)
  : BuildError + ConstructedTensorTable :=
  if negb (strictly_increasing (index table)) then inl InvalidInputError
  else if existsb (String.eqb "target") (map fst tensor_spec)
  then inl ConfigurationError
  else if negb (forallb (has_column table)
                  (target_column :: flat_map (fun d => snd (snd d)) tensor_spec))
  then inl ConfigurationError
  else
    let ks := target_keys target_column horizon ++ declared_keys tensor_spec in
    let full := windows table frequency ks in
    inr {| keys := ks;
           samples := if drop_incomplete then filter complete full else full |}.

Definition anchors (c : ConstructedTensorTable) : list Timestamp :=
  map fst (samples c).

(** The part of a row that belongs to the keys selected by [p]. *)
Definition restrict (ks : list ColumnKey) (p : ColumnKey -> bool)
  (row : list float) : list float :=
  map snd (filter (fun kv => p (fst kv)) (combine ks row)).

(** Modelled from the spec: the named tensor holds, for every surviving
    anchor, the values of the tensor's columns. *)
Definition tensor_rows (c : ConstructedTensorTable) (name : string)
  : list (Timestamp * list float) :=
  map (fun s => (fst s, restrict (keys c) (fun k => String.eqb (tensor k) name) (snd s)))
      (samples c).

(** The largest lookback and the largest forward step among offsets. *)
Definition max_lookback (offsets : list Z) : Z :=
  fold_right Z.max 0 (map Z.opp offsets).

Definition max_forward (offsets : list Z) : Z :=
  fold_right Z.max 0 offsets.

Definition inf_or_nan (x : float) : bool := is_inf x || is_nan x.

(** ** Tables without gaps *)

(** The timestamps [t0, t0 + freq, ...], [n] of them. *)
Definition grid (t0 freq : Z) (n : nat) : list Timestamp :=
  map (fun i => t0 + Z.of_nat i * freq) (seq 0 n).

(** An index without gaps: every timestamp is one step after the one
    before. *)
Fixpoint gapless (freq : Z) (ts : list Timestamp) : bool :=
  match ts with
  | a :: (b :: _) as tl => (b =? a + freq) && gapless freq tl
  | _ => true
  end.

(** Every row holds as many values as the frame has columns. *)
Definition well_formed (df : DataFrame) : bool :=
  forallb (fun r => (List.length (snd r) =? List.length (columns df))%nat)
          (rows df).

(** A gapless table: no timestamp is skipped and no value is missing. *)
Definition gapless_table (freq : Z) (table : DataFrame) : bool :=
  gapless freq (index table) && well_formed table
  && forallb complete (rows table).

(** The table has a row at timestamp [u] that holds a value in column [c]. *)
Definition holds_value (table : DataFrame) (c : string) (u : Timestamp) : bool :=
  negb (is_nan (lookup (column table c) u)).

(** [u] lies between the first and the last timestamp of the table. *)
Definition in_time_range (table : DataFrame) (u : Timestamp) : bool :=
  match index table with
  | [] => false
  | t0 :: _ => (t0 <=? u) && (u <=? last (index table) t0)
  end.

(** The offsets a tensor specification declares for a column. *)
Definition declared_offsets (tensor_spec : TensorSpec) : list Z :=
  map offset (declared_keys tensor_spec).

(** The configuration is accepted: ["target"] is not declared and the
    target column and the declared columns exist. *)
Definition accepted (table : DataFrame) (target_column : string)
  (tensor_spec : TensorSpec) : bool :=
  negb (existsb (String.eqb "target") (map fst tensor_spec))
  && forallb (has_column table)
       (target_column :: flat_map (fun d => snd (snd d)) tensor_spec).

(** ** The one-step windowing as a tensor specification *)

(** The shifts of the loop [for t in range(1, T+1)]: [T-1, ..., 0]. *)
Definition lags (T : Z) : list Z := map (fun t => T - t) (range 1 (T + 1)).

(** The one-step notebook windows [load] over the offsets [-T+1 .. 0] and
    predicts one step ahead: the tensor specification
    [{'X': (range(-T+1, 1), ['load'])}] with horizon 1. *)
Definition one_step_spec (T : Z) : TensorSpec :=
  [("X", (range (1 - T) 1, ["load"]))].

Definition one_step_keys (T : Z) : list ColumnKey :=
  target_keys "load" 1 ++ declared_keys (one_step_spec T).

(** The frame of the windowing cell after the target column and the shifts
    [qs] of the loop. *)
Definition shifted_after (y_col : string) (x_col : Z -> string)
  (df : DataFrame) (qs : list Z) : DataFrame :=
  {| columns := ["load"; y_col] ++ map x_col qs;
     rows := map (fun r =>
                    (fst r,
                     snd r ++ lookup (shift (-1) Hour (column df "load")) (fst r)
                           :: map (fun p => lookup (shift p Hour (column df "load")) (fst r))
                                  qs))
                 (rows df) |}.

(** The frame the windowing cell has built before [dropna]: the original
    column followed by the shifted copies. *)
Definition shifted_before_dropna (y_col : string) (x_col : Z -> string)
  (T : Z) (df : DataFrame) : DataFrame :=
  {| columns := "load" :: y_col :: map x_col (lags T);
     rows := map (fun r =>
                    (fst r,
                     snd r ++ map (fun k => lookup (shifted_copy df Hour k) (fst r))
                                  (one_step_keys T)))
                 (rows df) |}.

(** ** Scenario tables *)

(** A single column [load] with the given values at the given hours. *)
Definition load_table (hours : list Z) (values : list Z) : DataFrame :=
  {| columns := ["load"];
     rows := map2 (fun t v => (t * Hour, [Zfloat v])) hours values |}.

(** Ten hourly rows, [load = 1..10]. *)
Definition table10 : DataFrame := load_table (range 0 10) (range 1 11).

(** Hours 0, 1 and 3: the hour 2 is a gap. *)
Definition table_gap : DataFrame := load_table [0; 1; 3] [1; 2; 3].

(** Hours 0, 100 and 101. *)
Definition table_far : DataFrame := load_table [0; 100; 101] [1; 2; 3].

(** Thirty hourly rows, [load = 1..30]. *)
Definition table30 : DataFrame := load_table (range 0 30) (range 1 31).


(** A scaler for the scenarios: it halves every value. *)
Definition halve (x : float) : float := fdiv x (Zfloat 2).

(** ** Loading the data *)

(** Python's [min] and [max] of a sequence: [ValueError] on an empty one. *)
Definition py_min (ts : list Timestamp) : result Timestamp :=
  match ts with
  | [] => Raise (ValueError "min() arg is an empty sequence")
  | t :: ts' => Ok (fold_left Z.min ts' t)
  end.

Definition py_max (ts : list Timestamp) : result Timestamp :=
  match ts with
  | [] => Raise (ValueError "max() arg is an empty sequence")
  | t :: ts' => Ok (fold_left Z.max ts' t)
  end.

(** [pd.date_range(start, end, freq)]: the timestamps [start],
    [start + freq], ... up to [end]. *)
Definition date_range (start stop freq : Z) : list Timestamp :=
  if stop <? start then []
  else grid start freq (S (Z.to_nat ((stop - start) / freq))).

(** The row a frame holds at a label; a row of NaN when the label is
    absent. *)
Definition row_at (df : DataFrame) (t : Timestamp) : list float :=
  match find (fun r => fst r =? t) (rows df) with
  | Some r => snd r
  | None => repeat NaN (List.length (columns df))
  end.

(** [df.reindex(new_index)]: the frame as it is when the index is the new
    one already; otherwise one row per new label, which pandas refuses when
    the frame's own index has a duplicate. *)
Definition reindex_frame (df : DataFrame) (new_index : list Timestamp)
  : result DataFrame :=
  if index_equals (index df) new_index then Ok df
  else if is_unique (index df)
  then Ok {| columns := columns df;
             rows := map (fun t => (t, row_at df t)) new_index |}
  else Raise (ValueError "cannot reindex from a duplicate axis").

(** [load_data], after the CSV is read and indexed by its column
    [timestamp] (the frame [energy_csv]; the column [timestamp] itself,
    which the last line drops, is left out):
<<
    energy = energy.reindex(pd.date_range(min(energy['timestamp']),
                                          max(energy['timestamp']),
                                          freq='H'))
>> *)
Definition load_data (energy_csv : DataFrame) : result DataFrame :=
  first <- py_min (index energy_csv) ;;
  final <- py_max (index energy_csv) ;;
  reindex_frame energy_csv (date_range first final Hour).

(** ** The one-step notebook: the training and validation arrays *)

(** [df.columns = names]: the number of names must be the number of
    columns. *)
Definition set_columns (df : DataFrame) (names : list string)
  : result DataFrame :=
  if (List.length names =? List.length (columns df))%nat
  then Ok {| columns := names; rows := rows df |}
  else Raise (ValueError "Length mismatch").

Definition y_col : string := "y_t+1".

Definition X_cols : list string :=
  ["load_t-5"; "load_t-4"; "load_t-3"; "load_t-2"; "load_t-1"; "load_t"].

(** The training cells in full, with the cell that renames the columns:
<<
    train_shifted = train.copy()
    train_shifted['y_t+1'] = train_shifted['load'].shift(-1, freq='H')
    for t in range(1, T+1):
        train_shifted[str(T-t)] = train_shifted['load'].shift(T-t, freq='H')
    train_shifted.columns = ['load_original']+[y_col]+X_cols
    train_shifted = train_shifted.dropna(how='any')
>> *)
Definition train_shifted_renamed (T : Z) (train : DataFrame)
  : result DataFrame :=
  shifted <- shift_load "y_t+1" (-1) train ;;
  shifted <- for_each (range 1 (T + 1))
               (fun t => shift_load (str (T - t)) (T - t)) shifted ;;
  shifted <- set_columns shifted ("load_original" :: y_col :: X_cols) ;;
  Ok (dropna shifted).





(** The window of an anchor: the values of [load] at the offsets
    [-T+1 .. 0], and the value one hour ahead. *)
Definition window_of (df : DataFrame) (T : Z) (anchor : Timestamp) : list float :=
  map (fun o => lookup (column df "load") (anchor + o * Hour)) (range (1 - T) 1).

Definition next_of (df : DataFrame) (anchor : Timestamp) : float :=
  lookup (column df "load") (anchor + Hour).

(** The anchor holds a value of [load] at each of the offsets [-T+1 .. 1]:
    the hours of its window and the hour ahead. *)
Definition survives (df : DataFrame) (T : Z) (anchor : Timestamp) : bool :=
  forallb (fun o => holds_value df "load" (anchor + o * Hour)) (range (1 - T) 2).

(** What [MinMaxScaler] checks of the array it is given, in
    [fit_transform], [transform] and [inverse_transform]: it refuses an
    infinite value and an array without rows, each with a [ValueError]; NaN
    passes. *)
Definition check_array (X : list (list float)) : result unit :=
  if existsb (existsb is_inf) X
  then Raise (ValueError "Input contains infinity or a value too large for dtype('float64').")
  else
    match X with
    | [] => Raise (ValueError "Found array with 0 sample(s) while a minimum of 1 is required.")
    | _ :: _ => Ok tt
    end.

(** [df['load'] = scaler.transform(df)] on a frame whose only column is
    [load] (and [fit_transform] on the training set): once the array is
    checked the values are replaced by the scaled ones, the index stays.
    The scaler is the function it applies to each value. *)
Definition transform (scaler : float -> float) (df : DataFrame)
  : result DataFrame :=
  _ <- check_array (as_matrix df) ;;
  Ok {| columns := columns df;
        rows := map (fun r => (fst r, map scaler (snd r))) (rows df) |}.

(** The evaluation cell with the scaler of the notebook, a [MinMaxScaler].
    Its last line,
<<
    eval_df[['prediction', 'actual']] = scaler.inverse_transform(eval_df[['prediction', 'actual']])
>>
    hands the two columns of the long frame, the frame [eval_df] builds
    before scaling, to [inverse_transform], which checks them before it maps
    them. *)
Definition eval_df_scaled (predictions : list (list float))
  (test_shifted_index : list Timestamp) (y_test : list (list float))
  (HORIZON : Z) (scaler : float -> float) : result (list EvalRow) :=
  long <- eval_df predictions test_shifted_index y_test HORIZON (fun x => x) ;;
  _ <- check_array (map (fun r => [prediction r; actual r]) long) ;;
  Ok (map (fun r => mkEvalRow (timestamp r) (h r)
                      (scaler (prediction r)) (scaler (actual r))) long).

(** ** The encoder-decoder notebook: scoring *)

(** What the scoring functions raise before a model is called. *)
Inductive ScoringError : Type :=
| IndexError          (* an index out of the bounds of an array *)
| NegativeDimensions. (* [np.zeros] with a negative dimension, a ValueError *)

(** The two inference models are the functions their [predict] computes:
    [encoder_model] maps an input sequence to its state, [decoder_model]
    maps the decoder input (the values of one time step) and a state to an
    output and a state.  The encoder input of the notebook has one feature
    and the decoder one output, so a sequence is a list of values. *)

(** The loop of [predict_single_sequence]:
<<
    for t in range(horizon):
        yhat, h = decoder_model.predict([dec_input] + [states_value])
        output.append(yhat[0,0,:])
        state = [h]
        dec_input[0, 0, 0] = yhat
>>
    [state] is assigned and not read. *)
Fixpoint decode {State} (decoder_model : list float -> State -> float * State)
  (states_value : State) (passes : nat) (dec_input output : list float)
  : list float :=
  match passes with
  | O => output
  | S passes' =>
      let (yhat, h) := decoder_model dec_input states_value in
      let state := [h] in
      decode decoder_model states_value passes'
             (set_nth 0 yhat dec_input) (output ++ [yhat])
  end.

(** [predict_single_sequence]:
<<
    states_value = encoder_model.predict(single_input_seq)
    dec_input = np.zeros((1, 1, n_features))
    dec_input[0, 0, 0] = single_input_seq[0, -1, :]
    output = list()
    for t in range(horizon): ...
    return np.array(output)
>> *)
Definition predict_single_sequence {State}
  (encoder_model : list float -> State)
  (decoder_model : list float -> State -> float * State)
  (single_input_seq : list float) (horizon n_features : Z)
  : ScoringError + list float :=
  let states_value := encoder_model single_input_seq in
  if n_features <? 0 then inl NegativeDimensions
  else
    let dec_input := repeat zero (Z.to_nat n_features) in
    match rev single_input_seq with
    | [] => inl IndexError
    | final :: _ =>
        match dec_input with
        | [] => inl IndexError
        | _ :: _ =>
            inr (decode decoder_model states_value (Z.to_nat horizon)
                        (set_nth 0 final dec_input) [])
        end
    end.

(** [predict_multi_sequence]:
<<
    predictions_all = list()
    for seq_index in range(input_seq_multi.shape[0]):
        input_seq = input_seq_multi[seq_index: seq_index + 1]
        predictions = predict_single_sequence(input_seq, horizon, n_features)
        predictions_all.append(predictions)
    return np.array(predictions_all)
>> *)
Fixpoint predict_all {State}
  (encoder_model : list float -> State)
  (decoder_model : list float -> State -> float * State)
  (sequences : list (list float)) (horizon n_features : Z)
  (predictions_all : list (list float))
  : ScoringError + list (list float) :=
  match sequences with
  | [] => inr predictions_all
  | input_seq :: sequences' =>
      match predict_single_sequence encoder_model decoder_model
              input_seq horizon n_features with
      | inl e => inl e
      | inr predictions =>
          predict_all encoder_model decoder_model sequences' horizon n_features
                      (predictions_all ++ [predictions])
      end
  end.

Definition predict_multi_sequence {State}
  (encoder_model : list float -> State)
  (decoder_model : list float -> State -> float * State)
  (input_seq_multi : list (list float)) (horizon n_features : Z)
  : ScoringError + list (list float) :=
  predict_all encoder_model decoder_model input_seq_multi horizon n_features [].

(** The output of the decoder when it is fed the value [v], on the state
    [states_value]. *)
Definition decoder_step {State}
  (decoder_model : list float -> State -> float * State)
  (states_value : State) (n_features : Z) (v : float) : float :=
  fst (decoder_model (v :: repeat zero (Z.to_nat n_features - 1)) states_value).

(** ** The feed-forward notebook: the grid of hyperparameters *)

(** [list(enumerate(x))] *)
Definition enumerate {A} (x : list A) : list (nat * A) :=
  combine (seq 0 (List.length x)) x.

(** [itertools.product] of three lists: the last one varies fastest. *)
Definition product {A B C} (xs : list A) (ys : list B) (zs : list C)
  : list (A * B * C) :=
  flat_map (fun x => flat_map (fun y => map (fun z => (x, y, z)) zs) ys) xs.

(** [parameters = [list(enumerate(x)) for x in ALL_PARAMS]] and
    [grid], the [itertools.product] of the lists of [parameters], for
    [ALL_PARAMS = [LATENT_DIMS, BATCH_SIZES, LEARNING_RATES]]. *)
Definition param_grid (LATENT_DIMS BATCH_SIZES : list Z)
  (LEARNING_RATES : list float)
  : list ((nat * Z) * (nat * Z) * (nat * float)) :=
  product (enumerate LATENT_DIMS) (enumerate BATCH_SIZES)
          (enumerate LEARNING_RATES).

(** The model [get_model] builds: a hidden layer of [LATENT_DIM] units on
    [2*T] inputs, an output layer of [HORIZON] units, both regularised by
    [ALPHA], and the learning rate of the optimiser. *)
Record ModelConfig : Type := mkModel {
  hidden_units : Z;
  input_width : Z;
  output_units : Z;
  regularizer : float;
  lr : float
}.

Definition get_model (HORIZON : Z) (LATENT_DIM : Z) (LEARNING_RATE : float)
  (T : Z) (ALPHA : float) : ModelConfig :=
  {| hidden_units := LATENT_DIM;
     input_width := 2 * T;
     output_units := HORIZON;
     regularizer := ALPHA;
     lr := LEARNING_RATE |}.

(** A cell [t, i, j, k] of the arrays [mapes] and [st_errs]. *)
Definition Cell : Type := (nat * nat * nat * nat)%type.

(** The two arrays, as the writes made to them, in order. *)
Record Tables : Type := mkTables {
  mapes : list (Cell * float);
  st_errs : list (Cell * float)
}.

Section GridSearch.

(** Training and scoring one model, from [model.fit] to [mape]: the model,
    the batch size and the data of [create_input(T_val)] go in, together
    with the state of the run (random numbers, files); the MAPE comes out. *)
Variable World : Type.
Variable fit_and_score : ModelConfig -> Z -> Z -> World -> float * World.
Variables np_mean standard_error : list float -> float.
Variables (HORIZON N_EXPERIMENTS : Z) (ALPHA : float).

(** The loop [for ii in range(N_EXPERIMENTS)]; the model is built by
    [get_model(BATCH_SIZE, LEARNING_RATE, T_val, ALPHA)]. *)
Fixpoint experiments (passes : nat) (T_val BATCH_SIZE : Z)
  (LEARNING_RATE : float) (mapes_param : list float) (w : World)
  : list float * World :=
  match passes with
  | O => (mapes_param, w)
  | S passes' =>
      let model := get_model HORIZON BATCH_SIZE LEARNING_RATE T_val ALPHA in
      let (m, w') := fit_and_score model BATCH_SIZE T_val w in
      experiments passes' T_val BATCH_SIZE LEARNING_RATE (mapes_param ++ [m]) w'
  end.

(** The loop [for (i,LATENT_DIM), (j,BATCH_SIZE), (k,LEARNING_RATE) in grid].
    It starts with [mapes_param = np.empty(N_EXPERIMENTS)], which raises
    [ValueError] for a negative number, and ends in
<<
    mapes[t, i,j,k] = np.mean(mapes_param)
    st_errs[t, i,j,k] = np.std(mapes_param)/np.sqrt(N_EXPERIMENTS)
>> *)
Fixpoint grid_loop (t : nat) (T_val : Z)
  (grid : list ((nat * Z) * (nat * Z) * (nat * float)))
  (tables : Tables) (w : World) : result (Tables * World) :=
  match grid with
  | [] => Ok (tables, w)
  | ((i, LATENT_DIM), (j, BATCH_SIZE), (k, LEARNING_RATE)) :: grid' =>
      if N_EXPERIMENTS <? 0
      then Raise (ValueError "negative dimensions are not allowed")
      else
        let (mapes_param, w') :=
          experiments (Z.to_nat N_EXPERIMENTS) T_val BATCH_SIZE LEARNING_RATE [] w in
        grid_loop t T_val grid'
          {| mapes := mapes tables ++ [((t, i, j, k), np_mean mapes_param)];
             st_errs := st_errs tables
                        ++ [((t, i, j, k), standard_error mapes_param)] |}
          w'
  end.

(** The loop [for t, T_val in enumerate(T_VALUES)]. *)
Fixpoint T_loop (Ts : list (nat * Z))
  (grid : list ((nat * Z) * (nat * Z) * (nat * float)))
  (tables : Tables) (w : World) : result (Tables * World) :=
  match Ts with
  | [] => Ok (tables, w)
  | (t, T_val) :: Ts' =>
      tw <- grid_loop t T_val grid tables w ;;
      T_loop Ts' grid (fst tw) (snd tw)
  end.

Definition grid_search (T_VALUES LATENT_DIMS BATCH_SIZES : list Z)
  (LEARNING_RATES : list float) (w : World) : result (Tables * World) :=
  T_loop (enumerate T_VALUES)
         (param_grid LATENT_DIMS BATCH_SIZES LEARNING_RATES)
         {| mapes := []; st_errs := [] |} w.

End GridSearch.

(** ** Properties *)

(** *** Rounding never produces NaN *)

Lemma shr_1_nonneg mrs : 0 <= shr_m mrs -> 0 <= shr_m (shr_1 mrs).
Proof.
  destruct mrs as [m r s]; simpl.
  destruct m as [|p|p]; simpl; intros Hm; try lia;
    destruct p; simpl; lia.
Qed.

Lemma iter_pos_invariant {A} (P : A -> Prop) (f : A -> A) :
  (forall x, P x -> P (f x)) ->
  forall n x, P x -> P (iter_pos f n x).
Proof.
  intros Hf; induction n as [n IH|n IH|]; intros x Hx; simpl; auto.
Qed.

Lemma shr_nonneg mrs e n :
  0 <= shr_m mrs -> 0 <= shr_m (fst (shr mrs e n)).
Proof.
  intros Hm; destruct n as [|p|p]; simpl; auto.
  apply (iter_pos_invariant (fun x => 0 <= shr_m x)); auto using shr_1_nonneg.
Qed.

Lemma shr_fexp_nonneg m e l :
  0 <= m -> 0 <= shr_m (fst (shr_fexp prec emax m e l)).
Proof.
  intros Hm; unfold shr_fexp; apply shr_nonneg.
  destruct l as [|[| |]]; simpl; assumption.
Qed.

Lemma round_nearest_even_nonneg mx lx :
  0 <= mx -> 0 <= round_nearest_even mx lx.
Proof.
  intros Hm; destruct lx as [|[| |]]; simpl; try lia.
  destruct (Z.even mx); lia.
Qed.

Lemma binary_round_aux_not_nan sx mx ex lx :
  0 <= mx -> is_nan (binary_round_aux prec emax sx mx ex lx) = false.
Proof.
  intros Hm; unfold binary_round_aux.
  pose proof (shr_fexp_nonneg mx ex lx Hm) as H1.
  destruct (shr_fexp prec emax mx ex lx) as [mrs' e']; simpl in H1.
  pose proof (shr_fexp_nonneg
                (round_nearest_even (shr_m mrs') (loc_of_shr_record mrs'))
                e' loc_Exact (round_nearest_even_nonneg _ _ H1)) as H2.
  destruct (shr_fexp prec emax _ e' loc_Exact) as [mrs'' e'']; simpl in H2.
  destruct (shr_m mrs'') as [|m|m]; try reflexivity; try lia.
  destruct (e'' <=? emax - prec); reflexivity.
Qed.

Lemma binary_normalize_not_nan m e szero :
  is_nan (binary_normalize prec emax m e szero) = false.
Proof.
  destruct m as [|p|p]; simpl; try reflexivity;
    unfold binary_round;
    destruct (shl_align _ _ _) as [mz ez];
    apply binary_round_aux_not_nan; lia.
Qed.

Lemma fsub_finite x y :
  is_nan x = false -> is_finite y = true -> is_nan (fsub x y) = false.
Proof.
  destruct x as [sx|sx| |sx mx ex], y as [sy|sy| |sy my ey];
    simpl; try discriminate; intros _ _; try reflexivity.
  - destruct sx, sy; reflexivity.
  - apply binary_normalize_not_nan.
Qed.

Lemma fabs_nan x : is_nan (fabs x) = is_nan x.
Proof. destruct x; reflexivity. Qed.

Lemma fdiv_by_finite x y :
  is_nan x = false -> is_finite y = true -> is_zero y = false ->
  is_nan (fdiv x y) = false.
Proof.
  destruct x as [sx|sx| |sx mx ex], y as [sy|sy| |sy my ey];
    simpl; try discriminate; intros _ _ _; try reflexivity.
  unfold fdiv, SFdiv, SFdiv_core_binary.
  set (m' := match _ - _ - _ with Z0 => _ | Zpos _ => _ | Zneg _ => _ end).
  assert (Hm' : 0 <= m').
  { subst m'. destruct (_ - _ - _) as [|s|s]; try lia.
    apply Z.shiftl_nonneg; lia. }
  pose proof (Z_div_mod m' (Zpos my) ltac:(lia)) as Hdiv.
  destruct (Z.div_eucl m' (Zpos my)) as [q r].
  apply binary_round_aux_not_nan.
  destruct Hdiv as [Heq Hr]. nia.
Qed.

(** *** Lists, ranges and grids *)

Lemma fold_max_le_iff (l : list Z) (m : Z) :
  fold_right Z.max 0 l <= m <-> 0 <= m /\ forall x, In x l -> x <= m.
Proof.
  induction l as [|a l IH]; simpl.
  - split; [intros H; split; [lia | tauto] | lia].
  - rewrite Z.max_lub_iff, IH. split.
    + intros (Ha & H0 & Hl); split; auto.
      intros x [<-|Hx]; auto.
    + intros (H0 & Hl); repeat split; auto.
Qed.

Lemma fold_max_nonneg (l : list Z) : 0 <= fold_right Z.max 0 l.
Proof. induction l; simpl; lia. Qed.

Lemma max_lookback_le_iff offs i :
  max_lookback offs <= i <-> 0 <= i /\ forall k, In k offs -> 0 <= i + k.
Proof.
  unfold max_lookback. rewrite fold_max_le_iff. split; intros [H0 H]; split; auto.
  - intros k Hk. specialize (H (- k)). rewrite in_map_iff in H.
    assert (- k <= i) by (apply H; exists k; auto). lia.
  - intros x Hx. apply in_map_iff in Hx. destruct Hx as (k & <- & Hk).
    specialize (H k Hk). lia.
Qed.

Lemma max_forward_le_iff offs m :
  max_forward offs <= m <-> 0 <= m /\ forall k, In k offs -> k <= m.
Proof. apply fold_max_le_iff. Qed.

Lemma in_range a b x : In x (range a b) <-> a <= x < b.
Proof.
  unfold range. rewrite in_map_iff. split.
  - intros (i & <- & Hi). apply in_seq in Hi. lia.
  - intros H. exists (Z.to_nat (x - a)). split; [lia|].
    apply in_seq. lia.
Qed.

Lemma range_length a b : List.length (range a b) = Z.to_nat (b - a).
Proof. unfold range. now rewrite length_map, length_seq. Qed.

Lemma grid_length t0 f n : List.length (grid t0 f n) = n.
Proof. unfold grid. now rewrite length_map, length_seq. Qed.

Lemma in_grid t0 f n u :
  In u (grid t0 f n) <-> exists i, (i < n)%nat /\ u = t0 + Z.of_nat i * f.
Proof.
  unfold grid. rewrite in_map_iff. split.
  - intros (i & <- & Hi). apply in_seq in Hi. exists i; split; [lia|auto].
  - intros (i & Hi & ->). exists i; split; auto. apply in_seq; lia.
Qed.

Lemma in_grid_at t0 f n (j : Z) :
  f <> 0 ->
  In (t0 + j * f) (grid t0 f n) <-> 0 <= j < Z.of_nat n.
Proof.
  intros Hf. rewrite in_grid. split.
  - intros (i & Hi & E).
    assert (j = Z.of_nat i) by nia. lia.
  - intros Hj. exists (Z.to_nat j). split; [lia|].
    rewrite Z2Nat.id by lia. reflexivity.
Qed.

Lemma grid_shift t0 f n d :
  map (fun t => t + d) (grid t0 f n) = grid (t0 + d) f n.
Proof.
  unfold grid. rewrite map_map. apply map_ext. intros; lia.
Qed.

Lemma grid_cons t0 f n : grid t0 f (S n) = t0 :: grid (t0 + f) f n.
Proof.
  unfold grid. simpl. f_equal; [lia|].
  rewrite <- seq_shift, map_map. apply map_ext. intros; lia.
Qed.

Lemma gapless_grid f ts :
  gapless f ts = true -> ts = grid (hd 0 ts) f (List.length ts).
Proof.
  induction ts as [|a ts IH]; [reflexivity|].
  destruct ts as [|b ts].
  - intros _. simpl. unfold grid; simpl. f_equal; lia.
  - intros H. simpl in H. apply andb_prop in H. destruct H as [Hb Hg].
    apply Z.eqb_eq in Hb.
    change (List.length (a :: b :: ts)) with (S (List.length (b :: ts))).
    rewrite grid_cons. simpl hd. f_equal.
    rewrite <- Hb. apply IH. exact Hg.
Qed.

Lemma grid_gapless t0 f n : gapless f (grid t0 f n) = true.
Proof.
  revert t0; induction n as [|n IH]; intros t0; [reflexivity|].
  rewrite grid_cons. specialize (IH (t0 + f)).
  destruct n as [|n]; [reflexivity|].
  rewrite grid_cons in IH |- *.
  simpl. rewrite Z.eqb_refl. exact IH.
Qed.

Lemma grid_strictly_increasing t0 f n :
  0 < f -> strictly_increasing (grid t0 f n) = true.
Proof.
  intros Hf. revert t0; induction n as [|n IH]; intros t0; [reflexivity|].
  rewrite grid_cons. specialize (IH (t0 + f)).
  destruct n as [|n]; [reflexivity|].
  rewrite grid_cons in IH |- *.
  simpl. simpl in IH. rewrite IH, andb_true_r.
  apply Z.ltb_lt; lia.
Qed.

Lemma filter_window (a m n : nat) :
  filter (fun i => (a <=? i)%nat && (i <? m)%nat) (seq 0 n)
  = seq a (Nat.min m n - a).
Proof.
  induction n as [|n IH]; [now rewrite Nat.min_0_r|].
  rewrite seq_S, filter_app, IH. simpl.
  destruct (Nat.leb_spec a n) as [Han|Han];
    destruct (Nat.ltb_spec n m) as [Hnm|Hnm]; simpl.
  - replace (Nat.min m (S n) - a)%nat with (S (Nat.min m n - a)) by lia.
    rewrite seq_S. do 2 f_equal. lia.
  - rewrite app_nil_r. f_equal. lia.
  - rewrite app_nil_r. f_equal. lia.
  - rewrite app_nil_r. f_equal. lia.
Qed.

Lemma filter_map_comm {A B} (f : A -> B) (p : B -> bool) (l : list A) :
  filter p (map f l) = map f (filter (fun x => p (f x)) l).
Proof.
  induction l as [|x l IH]; simpl; auto.
  destruct (p (f x)); simpl; now rewrite IH.
Qed.

Lemma forallb_map {A B} (f : A -> B) (p : B -> bool) (l : list A) :
  forallb p (map f l) = forallb (fun x => p (f x)) l.
Proof. induction l as [|x l IH]; simpl; auto. now rewrite IH. Qed.

Lemma forallb_ext {A} (p q : A -> bool) (l : list A) :
  (forall x, p x = q x) -> forallb p l = forallb q l.
Proof.
  intros E; induction l as [|x l IH]; simpl; auto. now rewrite E, IH.
Qed.

Lemma map2_map_r {A B C} (f : A -> B -> C) (g : A -> B) (l : list A) :
  map2 f l (map g l) = map (fun x => f x (g x)) l.
Proof. induction l as [|x l IH]; simpl; auto. now rewrite IH. Qed.

(** *** Looking a series up *)

Lemma lookup_shift p f s t : lookup (shift p f s) t = lookup s (t - p * f).
Proof.
  unfold lookup, shift.
  induction s as [|e s IH]; simpl; [reflexivity|].
  assert (E : (fst e =? t - p * f) = (fst e + p * f =? t)).
  { destruct (Z.eqb_spec (fst e + p * f) t), (Z.eqb_spec (fst e) (t - p * f));
      auto; lia. }
  rewrite E. destruct (fst e + p * f =? t); [reflexivity | exact IH].
Qed.

Lemma lookup_absent s t : ~ In t (map fst s) -> lookup s t = NaN.
Proof.
  intros H. unfold lookup.
  destruct (find _ s) as [e|] eqn:E; [|reflexivity].
  apply find_some in E. destruct E as [Hin Heq]. apply Z.eqb_eq in Heq.
  exfalso; apply H. rewrite <- Heq. now apply in_map.
Qed.

Lemma lookup_present s t :
  In t (map fst s) -> exists v, In (t, v) s /\ lookup s t = v.
Proof.
  intros H. unfold lookup.
  destruct (find _ s) as [e|] eqn:E.
  - apply find_some in E. destruct E as [Hin Heq]. apply Z.eqb_eq in Heq.
    exists (snd e). split; [|reflexivity]. rewrite <- Heq.
    now destruct e.
  - exfalso. apply in_map_iff in H. destruct H as (e & He & Hin).
    apply (find_none _ _ E) in Hin. rewrite He, Z.eqb_refl in Hin.
    discriminate.
Qed.

Lemma lookup_self s :
  NoDup (map fst s) -> map (lookup s) (map fst s) = map snd s.
Proof.
  induction s as [|e s IH]; [reflexivity|].
  intros H. inversion H as [|? ? Hnotin Hnd]; subst.
  simpl. unfold lookup at 1. simpl. rewrite Z.eqb_refl. simpl. f_equal.
  rewrite <- IH by assumption.
  apply map_ext_in. intros t Ht.
  unfold lookup. simpl.
  destruct (Z.eqb_spec (fst e) t) as [E|E]; [|reflexivity].
  exfalso; apply Hnotin. now rewrite E.
Qed.

Lemma is_unique_NoDup ts : NoDup ts -> is_unique ts = true.
Proof.
  induction 1 as [|t ts Hnotin Hnd IH]; [reflexivity|].
  simpl. rewrite IH, andb_true_r.
  destruct (existsb (Z.eqb t) ts) eqn:E; [|reflexivity].
  apply existsb_exists in E. destruct E as (u & Hin & Hu).
  apply Z.eqb_eq in Hu. subst u. contradiction.
Qed.

Lemma index_equals_eq xs ys : index_equals xs ys = true -> xs = ys.
Proof.
  revert ys; induction xs as [|x xs IH]; intros [|y ys]; simpl;
    try discriminate; auto.
  intros H. apply andb_prop in H. destruct H as [Hx H].
  apply Z.eqb_eq in Hx. f_equal; auto.
Qed.

Lemma strictly_increasing_NoDup ts :
  strictly_increasing ts = true -> NoDup ts.
Proof.
  assert (H : forall ts, strictly_increasing ts = true ->
            NoDup ts /\ forall a, In a ts -> hd 0 ts <= a).
  { clear ts. induction ts as [|a ts IH]; [split; [constructor | intros ? []]|].
    destruct ts as [|b ts].
    - intros _. split.
      + constructor; [intros []|constructor].
      + intros x [<-|[]]. simpl; lia.
    - intros H. simpl in H. apply andb_prop in H. destruct H as [Hab Hs].
      apply Z.ltb_lt in Hab. destruct (IH Hs) as [Hnd Hmin]. split.
      + constructor; auto. intros Hin. apply Hmin in Hin. simpl in Hin. lia.
      + intros x [<-|Hx]; simpl; [lia|]. apply Hmin in Hx. simpl in Hx. lia. }
  intros Hs. apply H, Hs.
Qed.

Lemma position_None c cs : ~ In c cs -> position c cs = None.
Proof.
  induction cs as [|c' cs IH]; simpl; [reflexivity|].
  intros H. destruct (String.eqb_spec c c') as [E|E].
  - exfalso; apply H; auto.
  - rewrite IH; [reflexivity|]. intros Hin; apply H; auto.
Qed.

Lemma position_Some c cs j :
  position c cs = Some j -> (j < List.length cs)%nat /\ nth_error cs j = Some c.
Proof.
  revert j; induction cs as [|c' cs IH]; simpl; [discriminate|].
  intros j. destruct (String.eqb_spec c c') as [E|E].
  - intros [= <-]. subst. split; [lia | reflexivity].
  - destruct (position c cs) as [j'|]; simpl; [|discriminate].
    intros [= <-]. destruct (IH j' eq_refl). split; [lia | assumption].
Qed.

(** *** Columns of a table *)

Lemma column_index table c :
  has_column table c = true -> map fst (column table c) = index table.
Proof.
  unfold has_column, column, getitem, index.
  destruct (position c (columns table)); [|discriminate].
  intros _. rewrite map_map. reflexivity.
Qed.

Lemma column_values table c e :
  has_column table c = true ->
  well_formed table = true ->
  forallb complete (rows table) = true ->
  In e (column table c) -> is_nan (snd e) = false.
Proof.
  unfold has_column, column, getitem, well_formed.
  destruct (position c (columns table)) as [j|] eqn:Hj; [|discriminate].
  intros _ Hwf Hc Hin.
  apply in_map_iff in Hin. destruct Hin as (r & <- & Hr). simpl.
  rewrite forallb_forall in Hwf, Hc.
  specialize (Hwf r Hr). specialize (Hc r Hr).
  apply Nat.eqb_eq in Hwf. apply position_Some in Hj. destruct Hj as [Hj _].
  unfold complete in Hc. rewrite forallb_forall in Hc.
  assert (Hin : In (nth j (snd r) NaN) (snd r)) by (apply nth_In; lia).
  apply Hc in Hin. now destruct (is_nan _).
Qed.

Lemma holds_value_in_index table c u :
  has_column table c = true ->
  holds_value table c u = true -> In u (index table).
Proof.
  intros Hc Hv. rewrite <- (column_index table c Hc).
  unfold holds_value in Hv.
  destruct (in_dec Z.eq_dec u (map fst (column table c))) as [Hin|Hin]; auto.
  rewrite (lookup_absent _ _ Hin) in Hv. discriminate.
Qed.

Lemma holds_value_complete table c u :
  has_column table c = true ->
  well_formed table = true ->
  forallb complete (rows table) = true ->
  holds_value table c u = true <-> In u (index table).
Proof.
  intros Hc Hwf Hcomp. split; [apply holds_value_in_index, Hc|].
  intros Hin. rewrite <- (column_index table c Hc) in Hin.
  apply lookup_present in Hin. destruct Hin as (v & Hv & E).
  unfold holds_value. rewrite E.
  pose proof (column_values table c (u, v) Hc Hwf Hcomp Hv) as Hn.
  simpl in Hn. rewrite Hn. reflexivity.
Qed.

(** *** The construction *)

Lemma window_complete table f ks t :
  complete (t, map (fun k => lookup (shifted_copy table f k) t) ks)
  = forallb (fun k => holds_value table (feature k) (t + offset k * f)) ks.
Proof.
  unfold complete. simpl. rewrite forallb_map.
  apply forallb_ext. intros k. unfold holds_value, shifted_copy.
  rewrite lookup_shift. do 3 f_equal. lia.
Qed.

Lemma windows_anchors table f ks :
  map fst (filter complete (windows table f ks))
  = filter (fun t => forallb (fun k => holds_value table (feature k) (t + offset k * f)) ks)
           (index table).
Proof.
  unfold windows. rewrite filter_map_comm, map_map. simpl. rewrite map_id.
  apply filter_ext. intros t. apply window_complete.
Qed.

Lemma build_accepted table target H spec f drop :
  strictly_increasing (index table) = true ->
  accepted table target spec = true ->
  build table target H spec f drop
  = inr {| keys := target_keys target H ++ declared_keys spec;
           samples :=
             if drop
             then filter complete
                    (windows table f (target_keys target H ++ declared_keys spec))
             else windows table f (target_keys target H ++ declared_keys spec) |}.
Proof.
  unfold accepted, build. intros -> H2.
  apply andb_prop in H2. destruct H2 as [Ht Hc].
  simpl negb at 1. cbv iota.
  destruct (existsb _ (map fst spec)); [discriminate|].
  rewrite Hc. reflexivity.
Qed.

Lemma build_inr table target H spec f drop c :
  build table target H spec f drop = inr c ->
  strictly_increasing (index table) = true
  /\ accepted table target spec = true.
Proof.
  unfold accepted, build.
  destruct (strictly_increasing (index table)); [|discriminate].
  destruct (existsb _ (map fst spec)); [discriminate|].
  destruct (forallb _ _); [|discriminate].
  auto.
Qed.

Lemma keys_have_columns table target H spec k :
  accepted table target spec = true ->
  In k (target_keys target H ++ declared_keys spec) ->
  has_column table (feature k) = true.
Proof.
  unfold accepted. intros Ha Hk.
  apply andb_prop in Ha. destruct Ha as [_ Ha].
  rewrite forallb_forall in Ha. apply Ha.
  apply in_app_or in Hk. destruct Hk as [Hk|Hk].
  - left. unfold target_keys in Hk. apply in_map_iff in Hk.
    destruct Hk as (x & <- & _). reflexivity.
  - right. unfold declared_keys in Hk.
    apply in_flat_map in Hk. destruct Hk as (d & Hd & Hk).
    apply in_flat_map in Hk. destruct Hk as (col & Hcol & Hk).
    apply in_map_iff in Hk. destruct Hk as (x & <- & _). simpl.
    apply in_flat_map. exists d; auto.
Qed.

Lemma declared_not_target spec k :
  existsb (String.eqb "target") (map fst spec) = false ->
  In k (declared_keys spec) -> String.eqb (tensor k) "target" = false.
Proof.
  intros Hn Hk. unfold declared_keys in Hk.
  apply in_flat_map in Hk. destruct Hk as (d & Hd & Hk).
  apply in_flat_map in Hk. destruct Hk as (col & Hcol & Hk).
  apply in_map_iff in Hk. destruct Hk as (x & <- & _). simpl.
  destruct (String.eqb_spec (fst d) "target") as [E|E]; [|reflexivity].
  exfalso. assert (Hex : existsb (String.eqb "target") (map fst spec) = true).
  { apply existsb_exists. exists (fst d). split; [now apply in_map|].
    rewrite E. apply String.eqb_refl. }
  congruence.
Qed.

Lemma target_keys_length target H :
  List.length (target_keys target H) = Z.to_nat H.
Proof.
  unfold target_keys. rewrite length_map, range_length. f_equal. lia.
Qed.

Lemma offsets_of_target target H :
  map offset (target_keys target H) = range 1 (H + 1).
Proof.
  unfold target_keys. rewrite map_map. simpl. apply map_id.
Qed.

(** *** Gapless tables *)

Lemma seq_from a len : seq a len = map (fun i => (a + i)%nat) (seq 0 len).
Proof.
  revert a; induction len as [|len IH]; intros a; [reflexivity|].
  simpl. f_equal; [lia|].
  rewrite (IH (S a)), <- seq_shift, map_map. apply map_ext. intros; lia.
Qed.

Lemma grid_from t0 f (a len : nat) :
  map (fun i => t0 + Z.of_nat i * f) (seq a len)
  = grid (t0 + Z.of_nat a * f) f len.
Proof.
  unfold grid. rewrite seq_from, map_map. apply map_ext. intros; lia.
Qed.

Lemma grid_last t0 f n d : last (grid t0 f (S n)) d = t0 + Z.of_nat n * f.
Proof.
  unfold grid. rewrite seq_S, map_app. simpl. apply last_last.
Qed.

Lemma in_time_range_grid table t0 f n (j : Z) :
  0 < f -> index table = grid t0 f n ->
  in_time_range table (t0 + j * f) = true <-> In (t0 + j * f) (index table).
Proof.
  intros Hf Hidx. unfold in_time_range. rewrite Hidx.
  rewrite in_grid_at by lia.
  destruct n as [|n].
  - simpl. split; [discriminate | lia].
  - rewrite grid_cons. cbv iota. rewrite <- grid_cons, grid_last.
    rewrite andb_true_iff, !Z.leb_le. nia.
Qed.

Lemma gapless_table_grid f table :
  gapless_table f table = true ->
  index table = grid (hd 0 (index table)) f (List.length (rows table))
  /\ well_formed table = true
  /\ forallb complete (rows table) = true.
Proof.
  unfold gapless_table. rewrite !andb_true_iff. intros [[Hg Hw] Hc].
  repeat split; auto.
  replace (List.length (rows table)) with (List.length (index table))
    by (unfold index; apply length_map).
  now apply gapless_grid.
Qed.

(** On a gapless table the anchor at position [i] holds every requested
    value exactly when all the offsets stay inside the table. *)
Lemma gapless_window table target H spec f (i : nat) :
  0 < f ->
  gapless_table f table = true ->
  accepted table target spec = true ->
  (i < List.length (rows table))%nat ->
  let ks := target_keys target H ++ declared_keys spec in
  forallb (fun k => holds_value table (feature k)
                      (hd 0 (index table) + Z.of_nat i * f + offset k * f)) ks
  = (Z.to_nat (max_lookback (map offset ks)) <=? i)%nat
    && (i <? List.length (rows table) - Z.to_nat (max_forward (map offset ks)))%nat.
Proof.
  intros Hf Hg Ha Hi ks.
  destruct (gapless_table_grid f table Hg) as (Hidx & Hwf & Hc).
  set (n := List.length (rows table)) in *.
  set (t0 := hd 0 (index table)) in *.
  pose proof (fold_max_nonneg (map Z.opp (map offset ks))) as HL0.
  pose proof (fold_max_nonneg (map offset ks)) as HF0.
  fold (max_lookback (map offset ks)) in HL0.
  fold (max_forward (map offset ks)) in HF0.
  apply eq_true_iff_eq.
  rewrite forallb_forall, andb_true_iff, Nat.leb_le, Nat.ltb_lt.
  assert (Hk : forall k, In k ks ->
             (holds_value table (feature k) (t0 + Z.of_nat i * f + offset k * f) = true
              <-> 0 <= Z.of_nat i + offset k < Z.of_nat n)).
  { intros k Hk.
    rewrite holds_value_complete;
      [| eapply keys_have_columns; eassumption | assumption | assumption].
    rewrite Hidx.
    replace (t0 + Z.of_nat i * f + offset k * f)
      with (t0 + (Z.of_nat i + offset k) * f) by lia.
    apply in_grid_at. lia. }
  split.
  - intros Hall.
    assert (HL : max_lookback (map offset ks) <= Z.of_nat i).
    { apply max_lookback_le_iff. split; [lia|].
      intros o Ho. apply in_map_iff in Ho. destruct Ho as (k & <- & Hin).
      apply Hk; auto. }
    assert (HF : max_forward (map offset ks) <= Z.of_nat n - 1 - Z.of_nat i).
    { apply max_forward_le_iff. split; [lia|].
      intros o Ho. apply in_map_iff in Ho. destruct Ho as (k & <- & Hin).
      assert (0 <= Z.of_nat i + offset k < Z.of_nat n) by (apply Hk; auto).
      lia. }
    lia.
  - intros [HL HF] k Hin. apply Hk; auto.
    assert (HL' : max_lookback (map offset ks) <= Z.of_nat i) by lia.
    assert (HF' : max_forward (map offset ks) <= Z.of_nat n - 1 - Z.of_nat i) by lia.
    apply max_lookback_le_iff in HL'. apply max_forward_le_iff in HF'.
    destruct HL' as [_ HL'], HF' as [_ HF'].
    assert (Ho : In (offset k) (map offset ks)) by now apply in_map.
    specialize (HL' _ Ho). specialize (HF' _ Ho). lia.
Qed.

(** The anchors that survive on a gapless table: the grid from the largest
    lookback on, up to the largest forward step before the end. *)
Lemma gapless_anchors table target H spec f :
  0 < f ->
  gapless_table f table = true ->
  accepted table target spec = true ->
  let ks := target_keys target H ++ declared_keys spec in
  let L := Z.to_nat (max_lookback (map offset ks)) in
  let F := Z.to_nat (max_forward (map offset ks)) in
  map fst (filter complete (windows table f ks))
  = grid (hd 0 (index table) + Z.of_nat L * f) f
         (List.length (rows table) - F - L).
Proof.
  intros Hf Hg Ha ks L F.
  rewrite windows_anchors.
  destruct (gapless_table_grid f table Hg) as (Hidx & _ & _).
  rewrite Hidx at 1. unfold grid at 1.
  rewrite filter_map_comm.
  rewrite (filter_ext_in _
             (fun i => (L <=? i)%nat && (i <? List.length (rows table) - F)%nat)).
  - rewrite filter_window, grid_from. f_equal. lia.
  - intros i Hi. apply in_seq in Hi.
    apply (gapless_window table target H spec f i); auto; lia.
Qed.

Lemma max_lookback_app a b :
  max_lookback (a ++ b) = Z.max (max_lookback a) (max_lookback b).
Proof.
  unfold max_lookback. rewrite map_app.
  induction (map Z.opp a) as [|x l IH]; simpl.
  - pose proof (fold_max_nonneg (map Z.opp b)). lia.
  - rewrite IH. lia.
Qed.

Lemma max_forward_app a b :
  max_forward (a ++ b) = Z.max (max_forward a) (max_forward b).
Proof.
  unfold max_forward.
  induction a as [|x l IH]; simpl.
  - pose proof (fold_max_nonneg b). lia.
  - rewrite IH. lia.
Qed.

Lemma max_lookback_range H : max_lookback (range 1 (H + 1)) = 0.
Proof.
  apply Z.le_antisymm; [|apply fold_max_nonneg].
  apply max_lookback_le_iff. split; [lia|].
  intros k Hk. apply in_range in Hk. lia.
Qed.

Lemma max_forward_range H : 0 <= H -> max_forward (range 1 (H + 1)) = H.
Proof.
  intros HH. apply Z.le_antisymm.
  - apply max_forward_le_iff. split; [lia|].
    intros k Hk. apply in_range in Hk. lia.
  - destruct (Z.eq_dec H 0) as [->|Hne]; [apply fold_max_nonneg|].
    assert (Hin : In H (range 1 (H + 1))) by (apply in_range; lia).
    pose proof (proj1 (max_forward_le_iff (range 1 (H + 1)) _) (Z.le_refl _)) as [_ Hall].
    apply Hall, Hin.
Qed.

Lemma filter_none {A} (p : A -> bool) (l : list A) :
  (forall x, In x l -> p x = false) -> filter p l = [].
Proof.
  induction l as [|x l IH]; simpl; intros H; [reflexivity|].
  rewrite (H x) by auto. apply IH. intros; apply H; auto.
Qed.

Lemma map_nil_inv {A B} (f : A -> B) (l : list A) : map f l = [] -> l = [].
Proof. destruct l; [reflexivity | discriminate]. Qed.

Lemma NoDup_map_injective {A B} (f : A -> B) (l : list A) :
  (forall x y, In x l -> In y l -> f x = f y -> x = y) ->
  NoDup l -> NoDup (map f l).
Proof.
  intros Hinj Hnd. induction Hnd as [|x l Hnotin Hnd IH]; simpl; constructor.
  - intros Hin. apply in_map_iff in Hin. destruct Hin as (y & E & Hy).
    apply Hinj in E; simpl; auto. subst y. contradiction.
  - apply IH. intros; apply Hinj; simpl; auto.
Qed.

Lemma fold_max_attained (l : list Z) :
  0 < fold_right Z.max 0 l -> In (fold_right Z.max 0 l) l.
Proof.
  induction l as [|a l IH]; simpl; [lia|].
  intros H. destruct (Z.max_spec a (fold_right Z.max 0 l)) as [[Hlt E]|[Hle E]];
    rewrite E in *; auto.
Qed.

(** *** Sample count (C1) *)

(** C1, as stated, fails: a declared offset beyond the horizon costs
    further anchors at the end of the table. *)
Lemma forward_offset_costs_samples :
  gapless_table Hour table10 = true
  /\ exists c,
      build table10 "load" 1 [("X", (range 0 3, ["load"]))] Hour true = inr c
      /\ List.length (samples c) = 8%nat
      /\ List.length (samples c)
         <> (List.length (rows table10)
             - Z.to_nat (max_lookback (declared_offsets [("X", (range 0 3, ["load"]))]) + 1))%nat.
Proof.
  split; [reflexivity|].
  eexists. split; [reflexivity|].
  split; [reflexivity|]. vm_compute. discriminate.
Qed.

(** C1, amended.  For every gapless table and every tensor spec none of
    whose offsets exceeds the horizon, the construction (shift every
    requested offset, drop every row with a missing value) produces exactly
    [len(table) - max_offset_span] samples, the span being the largest
    lookback offset plus the horizon (a count: none when the span exceeds
    the length). *)
Theorem sample_count :
  forall table target_column horizon tensor_spec frequency,
    0 < frequency -> 0 <= horizon ->
    gapless_table frequency table = true ->
    accepted table target_column tensor_spec = true ->
    (forall k, In k (declared_offsets tensor_spec) -> k <= horizon) ->
    exists c,
      build table target_column horizon tensor_spec frequency true = inr c
      /\ List.length (samples c)
         = (List.length (rows table)
            - Z.to_nat (max_lookback (declared_offsets tensor_spec) + horizon))%nat.
Proof.
  intros table target H spec f Hf HH Hg Ha Hoff.
  destruct (gapless_table_grid f table Hg) as (Hidx & _ & _).
  assert (Hs : strictly_increasing (index table) = true).
  { rewrite Hidx. now apply grid_strictly_increasing. }
  eexists. split; [apply build_accepted; assumption|].
  cbv beta iota. simpl samples.
  rewrite <- (length_map fst).
  rewrite (gapless_anchors table target H spec f Hf Hg Ha).
  rewrite grid_length.
  rewrite map_app, offsets_of_target.
  fold (declared_offsets spec).
  rewrite max_lookback_app, max_forward_app, max_lookback_range,
    max_forward_range by assumption.
  pose proof (fold_max_nonneg (map Z.opp (declared_offsets spec))) as HL0.
  fold (max_lookback (declared_offsets spec)) in HL0.
  assert (HF : max_forward (declared_offsets spec) <= H).
  { apply max_forward_le_iff. split; [lia | exact Hoff]. }
  lia.
Qed.

Lemma sample_count_witness :
  0 < Hour /\ 0 <= 1
  /\ gapless_table Hour table10 = true
  /\ accepted table10 "load" [("X", (range (-2) 1, ["load"]))] = true
  /\ exists c,
      build table10 "load" 1 [("X", (range (-2) 1, ["load"]))] Hour true = inr c
      /\ List.length (samples c)
         = (List.length (rows table10)
            - Z.to_nat (max_lookback (declared_offsets [("X", (range (-2) 1, ["load"]))]) + 1))%nat.
Proof.
  split; [reflexivity|]. split; [discriminate|].
  split; [reflexivity|]. split; [reflexivity|].
  apply sample_count; try reflexivity; try discriminate.
  intros k Hk. vm_compute in Hk. lia.
Defined.

(** *** Surviving anchors (C4) *)

(** C4, as stated, fails: on a table with a gap an anchor is dropped although
    every requested offset falls inside the table's time range; the inline
    windowing of the one-step notebook drops it as well. *)
Lemma gap_inside_time_range :
  (exists c,
      build table_gap "load" 1 [] Hour true = inr c
      /\ In (1 * Hour) (index table_gap)
      /\ (forall k, In k (keys c) ->
            in_time_range table_gap (1 * Hour + offset k * Hour) = true)
      /\ ~ In (1 * Hour) (anchors c))
  /\ (exists d,
      train_shifted 1 table_gap = Ok d /\ ~ In (1 * Hour) (index d)).
Proof.
  split.
  - eexists. split; [reflexivity|].
    split; [vm_compute; tauto|]. split.
    + intros k Hk. vm_compute in Hk. destruct Hk as [<-|[]]. reflexivity.
    + vm_compute. intros [H|[]]. discriminate.
  - eexists. split; [vm_compute; reflexivity|].
    vm_compute. intros [H|[]]. discriminate.
Qed.

(** C4, amended.  With [drop_incomplete] every row of the result is
    complete: an anchor survives if and only if every requested offset, of
    every declared tensor and of the target (offsets 1..H), lands on a row
    of the table that holds a value in the requested column; on a gapless
    table that is exactly when all requested offsets fall inside the table's
    time range.  Every tensor has the surviving anchors and no other. *)
Theorem anchors_survive_iff :
  forall table target_column horizon tensor_spec frequency,
    strictly_increasing (index table) = true ->
    accepted table target_column tensor_spec = true ->
    exists c,
      build table target_column horizon tensor_spec frequency true = inr c
      /\ keys c = target_keys target_column horizon ++ declared_keys tensor_spec
      /\ (forall t,
            In t (anchors c) <->
            In t (index table)
            /\ forall k, In k (keys c) ->
                 holds_value table (feature k) (t + offset k * frequency) = true)
      /\ (forall s, In s (samples c) -> complete s = true)
      /\ (forall name, map fst (tensor_rows c name) = anchors c)
      /\ (0 < frequency -> gapless_table frequency table = true ->
          forall t,
            In t (anchors c) <->
            In t (index table)
            /\ forall k, In k (keys c) ->
                 in_time_range table (t + offset k * frequency) = true).
Proof.
  intros table target H spec f Hs Ha.
  eexists. split; [apply build_accepted; assumption|].
  set (ks := target_keys target H ++ declared_keys spec).
  split; [reflexivity|].
  assert (Hanch : forall t,
             In t (map fst (filter complete (windows table f ks))) <->
             In t (index table)
             /\ forall k, In k ks ->
                  holds_value table (feature k) (t + offset k * f) = true).
  { intros t. rewrite windows_anchors, filter_In, forallb_forall. reflexivity. }
  split; [exact Hanch|].
  split; [intros s Hin; apply filter_In in Hin; tauto|].
  split.
  { intros name. unfold tensor_rows, anchors. rewrite map_map. reflexivity. }
  intros Hf Hg t. unfold anchors; simpl samples; simpl keys.
  rewrite Hanch.
  destruct (gapless_table_grid f table Hg) as (Hidx & Hwf & Hc).
  split; intros [Hin Hall]; split; auto; intros k Hk; specialize (Hall k Hk);
    pose proof Hin as Hin'; rewrite Hidx in Hin'; apply in_grid in Hin';
    destruct Hin' as (i & Hi & ->);
    replace (hd 0 (index table) + Z.of_nat i * f + offset k * f)
      with (hd 0 (index table) + (Z.of_nat i + offset k) * f) in * by lia.
  - apply (in_time_range_grid table _ f _ _ Hf Hidx).
    eapply holds_value_in_index; [|exact Hall].
    eapply keys_have_columns; eassumption.
  - apply holds_value_complete; auto.
    + eapply keys_have_columns; eassumption.
    + apply (in_time_range_grid table _ f _ _ Hf Hidx). exact Hall.
Qed.

Lemma anchors_survive_iff_witness :
  strictly_increasing (index table10) = true
  /\ accepted table10 "load" [("X", (range (-1) 1, ["load"]))] = true
  /\ exists c,
      build table10 "load" 1 [("X", (range (-1) 1, ["load"]))] Hour true = inr c
      /\ keys c = target_keys "load" 1 ++ declared_keys [("X", (range (-1) 1, ["load"]))]
      /\ (forall t,
            In t (anchors c) <->
            In t (index table10)
            /\ forall k, In k (keys c) ->
                 holds_value table10 (feature k) (t + offset k * Hour) = true)
      /\ (forall s, In s (samples c) -> complete s = true)
      /\ (forall name, map fst (tensor_rows c name) = anchors c)
      /\ (0 < Hour -> gapless_table Hour table10 = true ->
          forall t,
            In t (anchors c) <->
            In t (index table10)
            /\ forall k, In k (keys c) ->
                 in_time_range table10 (t + offset k * Hour) = true).
Proof.
  split; [reflexivity|]. split; [reflexivity|].
  apply anchors_survive_iff; reflexivity.
Defined.

(** *** Tables shorter than the window (C5) *)

(** C5, as stated, fails: on a table with gaps a lookback longer than the
    table's length can still land on a row. *)
Lemma long_lookback_on_gapped_table :
  exists c,
    build table_far "load" 1 [("X", ([-100], ["load"]))] Hour true = inr c
    /\ Z.of_nat (List.length (rows table_far))
       < max_lookback (declared_offsets [("X", ([-100], ["load"]))])
    /\ anchors c = [100 * Hour].
Proof.
  eexists. split; [reflexivity|]. split; reflexivity.
Qed.

(** A run of consecutive steps that all land on rows of a table needs as
    many rows. *)
Lemma consecutive_steps_need_rows table f lo hi t :
  0 < f -> lo <= hi + 1 ->
  (forall j, lo <= j <= hi -> In (t + j * f) (index table)) ->
  hi - lo + 1 <= Z.of_nat (List.length (rows table)).
Proof.
  intros Hf Hlh Hall.
  assert (Hincl : incl (map (fun j => t + j * f) (range lo (hi + 1))) (index table)).
  { intros u Hu. apply in_map_iff in Hu. destruct Hu as (j & <- & Hj).
    apply in_range in Hj. apply Hall. lia. }
  assert (Hnd : NoDup (map (fun j => t + j * f) (range lo (hi + 1)))).
  { apply NoDup_map_injective; [intros; nia|].
    unfold range. apply NoDup_map_injective; [intros; lia | apply seq_NoDup]. }
  pose proof (NoDup_incl_length Hnd Hincl) as Hlen.
  rewrite length_map, range_length in Hlen.
  unfold index in Hlen. rewrite length_map in Hlen. lia.
Qed.

Lemma anchor_needs_horizon_rows table f H t :
  0 < f -> 0 <= H ->
  In t (index table) ->
  (forall j, 1 <= j <= H -> In (t + j * f) (index table)) ->
  H < Z.of_nat (List.length (rows table)).
Proof.
  intros Hf HH Ht Hall.
  assert (H - 0 + 1 <= Z.of_nat (List.length (rows table))); [|lia].
  apply (consecutive_steps_need_rows table f 0 H t); [lia | lia |].
  intros j Hj. destruct (Z.eq_dec j 0) as [->|Hne].
  - now replace (t + 0 * f) with t by lia.
  - apply Hall. lia.
Qed.

(** C5, amended.  A horizon longer than the table's length leaves no sample
    on any table, and so does a maximum lookback offset longer than the
    length of a table without gaps; the construction returns the empty
    result and does not fail. *)
Theorem short_table_no_samples :
  forall table target_column horizon tensor_spec frequency,
    0 < frequency ->
    strictly_increasing (index table) = true ->
    accepted table target_column tensor_spec = true ->
    Z.of_nat (List.length (rows table)) < horizon
    \/ (gapless frequency (index table) = true
        /\ Z.of_nat (List.length (rows table))
           < max_lookback (declared_offsets tensor_spec)) ->
    exists c,
      build table target_column horizon tensor_spec frequency true = inr c
      /\ samples c = [].
Proof.
  intros table target H spec f Hf Hs Ha Hshort.
  eexists. split; [apply build_accepted; assumption|].
  simpl samples.
  set (ks := target_keys target H ++ declared_keys spec).
  apply (map_nil_inv fst). rewrite windows_anchors.
  apply filter_none. intros t Ht.
  destruct (forallb _ ks) eqn:E; [exfalso|reflexivity].
  rewrite forallb_forall in E.
  assert (Hin : forall k, In k ks -> In (t + offset k * f) (index table)).
  { intros k Hk. eapply holds_value_in_index; [|apply E, Hk].
    eapply keys_have_columns; eassumption. }
  destruct Hshort as [Hlt|[Hg Hlt]].
  - assert (HH : 0 <= H) by lia.
    pose proof (anchor_needs_horizon_rows table f H t Hf HH Ht) as Hrows.
    assert (H < Z.of_nat (List.length (rows table))); [|lia].
    apply Hrows. intros j Hj.
    apply (Hin (mkKey "target" target j)).
    apply in_or_app. left. unfold target_keys. apply in_map, in_range. lia.
  - apply gapless_grid in Hg.
    replace (List.length (index table)) with (List.length (rows table)) in Hg
      by (unfold index; now rewrite length_map).
    assert (HL : 0 < max_lookback (declared_offsets spec)) by lia.
    apply fold_max_attained in HL. fold (max_lookback (declared_offsets spec)) in HL.
    apply in_map_iff in HL. destruct HL as (o & Ho & Hoin).
    unfold declared_offsets in Hoin. apply in_map_iff in Hoin.
    destruct Hoin as (k & Hk & Hkin).
    assert (Hkk : In k ks) by (apply in_or_app; now right).
    specialize (Hin k Hkk).
    rewrite Hg in Ht, Hin. apply in_grid in Ht. destruct Ht as (i & Hi & ->).
    replace (hd 0 (index table) + Z.of_nat i * f + offset k * f)
      with (hd 0 (index table) + (Z.of_nat i + offset k) * f) in Hin by lia.
    apply in_grid_at in Hin; lia.
Qed.

Lemma strictly_increasing_bounds ts d x :
  strictly_increasing ts = true -> In x ts -> hd d ts <= x <= last ts d.
Proof.
  revert x; induction ts as [|a ts IH]; intros x Hs Hx; [destruct Hx|].
  destruct ts as [|b ts].
  - destruct Hx as [<-|[]]. simpl. lia.
  - simpl in Hs. apply andb_prop in Hs. destruct Hs as [Hab Hs].
    apply Z.ltb_lt in Hab.
    change (last (a :: b :: ts) d) with (last (b :: ts) d).
    pose proof (IH b Hs (or_introl eq_refl)) as Hb.
    destruct Hx as [<-|Hx]; simpl hd in *; [lia|].
    specialize (IH x Hs Hx). simpl hd in IH. lia.
Qed.

(** On every table, gapless or not, no sample is left when the largest
    lookback reaches back further than the table's time range is long. *)
Lemma lookback_beyond_time_range table target_column horizon tensor_spec frequency :
  0 < frequency ->
  strictly_increasing (index table) = true ->
  accepted table target_column tensor_spec = true ->
  last (index table) 0 - hd 0 (index table)
  < max_lookback (declared_offsets tensor_spec) * frequency ->
  exists c,
    build table target_column horizon tensor_spec frequency true = inr c
    /\ samples c = [].
Proof.
  intros Hf Hs Ha Hspan.
  eexists. split; [apply build_accepted; assumption|].
  simpl samples.
  set (ks := target_keys target_column horizon ++ declared_keys tensor_spec).
  apply (map_nil_inv fst). rewrite windows_anchors.
  apply filter_none. intros t Ht.
  destruct (forallb _ ks) eqn:E; [exfalso|reflexivity].
  rewrite forallb_forall in E.
  assert (HL : 0 < max_lookback (declared_offsets tensor_spec)).
  { pose proof (strictly_increasing_bounds _ 0 t Hs Ht). nia. }
  apply fold_max_attained in HL.
  fold (max_lookback (declared_offsets tensor_spec)) in HL.
  apply in_map_iff in HL. destruct HL as (o & Ho & Hoin).
  unfold declared_offsets in Hoin. apply in_map_iff in Hoin.
  destruct Hoin as (k & Hk & Hkin).
  assert (Hkk : In k ks) by (apply in_or_app; now right).
  assert (Hin : In (t + offset k * frequency) (index table)).
  { eapply holds_value_in_index; [|apply E, Hkk].
    eapply keys_have_columns; eassumption. }
  pose proof (strictly_increasing_bounds _ 0 _ Hs Ht) as Hb1.
  pose proof (strictly_increasing_bounds _ 0 _ Hs Hin) as Hb2.
  nia.
Qed.

Lemma short_table_no_samples_witness :
  0 < Hour
  /\ strictly_increasing (index table_gap) = true
  /\ accepted table_gap "load" [("X", (range (-5) 1, ["load"]))] = true
  /\ (Z.of_nat (List.length (rows table_gap)) < 4
      \/ (gapless Hour (index table_gap) = true
          /\ Z.of_nat (List.length (rows table_gap))
             < max_lookback (declared_offsets [("X", (range (-5) 1, ["load"]))])))
  /\ exists c,
      build table_gap "load" 4 [("X", (range (-5) 1, ["load"]))] Hour true = inr c
      /\ samples c = [].
Proof.
  split; [reflexivity|]. split; [reflexivity|]. split; [reflexivity|].
  split; [left; reflexivity|].
  apply short_table_no_samples; try reflexivity. left; reflexivity.
Defined.

(** *** Column names of the windowing cells *)

Lemma str_injective p q : str p = str q -> p = q.
Proof.
  unfold str. intros E.
  apply DecimalZ.to_int_inj.
  pose proof (NilEmpty.isi (Z.to_int p)) as Hp.
  pose proof (NilEmpty.isi (Z.to_int q)) as Hq.
  rewrite E in Hp. congruence.
Qed.

Lemma str_not_name p name :
  NilEmpty.int_of_string name = None -> str p <> name.
Proof.
  intros Hn E. unfold str in E.
  pose proof (NilEmpty.isi (Z.to_int p)) as Hp.
  rewrite E in Hp. congruence.
Qed.

Lemma load_t_injective p q : load_t p = load_t q -> p = q.
Proof.
  unfold load_t. simpl. intros E. injection E as E. now apply str_injective.
Qed.

(** *** Assigning a shifted copy of a frame's own column *)

Lemma for_each_map {A B S} (g : A -> B) (body : B -> S -> result S) xs s :
  for_each (map g xs) body s = for_each xs (fun a => body (g a)) s.
Proof.
  revert s; induction xs as [|x xs IH]; intros s; simpl; [reflexivity|].
  destruct (body (g x) s); simpl; auto.
Qed.

Lemma setitem_aligned df c s d :
  position c (columns df) = None ->
  NoDup (index df) ->
  map fst s = map (fun t => t + d) (index df) ->
  setitem df c s
  = Ok {| columns := columns df ++ [c];
          rows := map (fun r => (fst r, snd r ++ [lookup s (fst r)])) (rows df) |}.
Proof.
  intros Hpos Hnd Hs. unfold setitem, ensure_valid_index.
  destruct (rows df) as [|r0 rs] eqn:Hrows.
  - unfold index in Hs. rewrite Hrows in Hs. simpl in Hs.
    apply map_nil_inv in Hs. subst s. simpl.
    unfold insert_column. simpl. rewrite Hpos. reflexivity.
  - assert (Hvals : reindex s (index df) = Ok (map (lookup s) (index df))).
    { unfold reindex.
      destruct (index_equals (map fst s) (index df)) eqn:E.
      - apply index_equals_eq in E. rewrite <- E. f_equal.
        symmetry. apply lookup_self. now rewrite E.
      - rewrite is_unique_NoDup; [reflexivity|].
        rewrite Hs. apply NoDup_map_injective; [intros; lia | assumption]. }
    rewrite Hvals. simpl. unfold insert_column. rewrite Hpos. f_equal.
    rewrite Hrows. f_equal.
    unfold index. rewrite Hrows, map_map.
    apply (map2_map_r (fun (r : Z * list spec_float) v => (fst r, snd r ++ [v]))).
Qed.

Lemma shift_index p f s :
  map fst (shift p f s) = map (fun t => t + p * f) (map fst s).
Proof. unfold shift. rewrite !map_map. reflexivity. Qed.

Lemma one_step_keys_eq T :
  one_step_keys T
  = mkKey "target" "load" 1 :: map (mkKey "X" "load") (range (1 - T) 1).
Proof.
  unfold one_step_keys, one_step_spec, declared_keys.
  cbn [flat_map fst snd]. now rewrite !app_nil_r.
Qed.

(** *** The windowing cell *)

Section Windowing.
Variables (y_col : string) (x_col : Z -> string).
Hypothesis y_not_load : y_col <> "load".
Hypothesis x_not_load : forall p, x_col p <> "load".
Hypothesis x_not_y : forall p, x_col p <> y_col.
Hypothesis x_injective : forall p q, x_col p = x_col q -> p = q.

Variable df : DataFrame.
Hypothesis df_columns : columns df = ["load"].
Hypothesis df_well_formed : well_formed df = true.
Hypothesis df_unique : NoDup (index df).

Local Notation load := (column df "load").
Local Notation frame := (shifted_after y_col x_col df).

Lemma frame_load qs : getitem (frame qs) "load" = Ok load.
Proof.
  unfold getitem, frame, load, column, getitem. simpl.
  rewrite df_columns. simpl. f_equal.
  rewrite map_map. apply map_ext_in. intros r Hr. simpl. f_equal.
  unfold well_formed in df_well_formed.
  rewrite forallb_forall in df_well_formed.
  specialize (df_well_formed r Hr). rewrite df_columns in df_well_formed.
  apply Nat.eqb_eq in df_well_formed.
  destruct (snd r) as [|v [|w l]]; try discriminate. reflexivity.
Qed.

Lemma frame_index qs : index (frame qs) = index df.
Proof. unfold index, frame. simpl. rewrite map_map. reflexivity. Qed.

Lemma load_index : map fst load = index df.
Proof.
  apply column_index. unfold has_column. now rewrite df_columns.
Qed.

Lemma first_shift : shift_load y_col (-1) df = Ok (frame []).
Proof.
  unfold shift_load.
  assert (Hl : getitem df "load" = Ok load).
  { unfold load, column, getitem. rewrite df_columns. reflexivity. }
  rewrite Hl. simpl bind.
  rewrite (setitem_aligned df y_col _ (-1 * Hour)).
  - f_equal. unfold frame. rewrite df_columns. reflexivity.
  - apply position_None. rewrite df_columns. intros [E|[]].
    now apply y_not_load.
  - exact df_unique.
  - now rewrite shift_index, load_index.
Qed.

Lemma loop_shifts ps : forall qs,
  NoDup (qs ++ ps) ->
  for_each ps (fun p => shift_load (x_col p) p) (frame qs)
  = Ok (frame (qs ++ ps)).
Proof.
  induction ps as [|p ps IH]; intros qs Hnd; simpl.
  - now rewrite app_nil_r.
  - unfold shift_load at 1. rewrite frame_load. simpl bind.
    rewrite (setitem_aligned (frame qs) (x_col p) _ (p * Hour)).
    + simpl bind.
      replace (qs ++ p :: ps) with ((qs ++ [p]) ++ ps)
        by now rewrite <- app_assoc.
      rewrite <- IH by now rewrite <- app_assoc.
      f_equal. unfold frame. simpl. f_equal.
      * now rewrite map_app.
      * rewrite map_map. apply map_ext. intros r. simpl. f_equal.
        rewrite <- app_assoc. simpl. f_equal. f_equal.
        now rewrite map_app.
    + apply position_None. unfold frame. simpl.
      intros [E|[E|E]].
      * symmetry in E. now apply x_not_load in E.
      * symmetry in E. now apply x_not_y in E.
      * apply in_map_iff in E. destruct E as (q & E & Hq).
        apply x_injective in E. subst q.
        apply NoDup_remove_2 in Hnd. apply Hnd, in_or_app. now left.
    + rewrite frame_index. exact df_unique.
    + now rewrite frame_index, shift_index, load_index.
Qed.

Lemma lags_NoDup T : NoDup (lags T).
Proof.
  unfold lags, range.
  apply NoDup_map_injective; [intros; lia|].
  apply NoDup_map_injective; [intros; lia | apply seq_NoDup].
Qed.

Lemma lags_offsets T : map Z.opp (range (1 - T) 1) = lags T.
Proof.
  unfold lags, range. rewrite !map_map.
  replace (1 - (1 - T)) with T by lia.
  replace (T + 1 - 1) with T by lia.
  apply map_ext. intros; lia.
Qed.

Lemma frame_lags T : frame (lags T) = shifted_before_dropna y_col x_col T df.
Proof.
  unfold frame, shifted_before_dropna. f_equal.
  apply map_ext. intros r. f_equal. f_equal.
  rewrite one_step_keys_eq. cbn [map]. f_equal.
  rewrite <- lags_offsets, !map_map. apply map_ext. intros k.
  unfold shifted_copy. cbn [offset feature]. fold load.
  reflexivity.
Qed.

Lemma shifted_frame_windows T :
  shifted_frame y_col x_col T df
  = Ok (dropna (shifted_before_dropna y_col x_col T df)).
Proof.
  unfold shifted_frame. rewrite first_shift. simpl bind.
  change (for_each (range 1 (T + 1))
            (fun t => shift_load (x_col (T - t)) (T - t)) (frame []))
    with (for_each (range 1 (T + 1))
            (fun t => (fun p => shift_load (x_col p) p) (T - t)) (frame [])).
  rewrite <- (for_each_map (fun t => T - t) (fun p => shift_load (x_col p) p)).
  fold (lags T).
  rewrite loop_shifts by apply lags_NoDup.
  simpl. now rewrite frame_lags.
Qed.
End Windowing.

(** *** The one-step windowing and the engine *)

Lemma lookup_In s t v :
  NoDup (map fst s) -> In (t, v) s -> lookup s t = v.
Proof.
  induction s as [|e s IH]; [intros _ []|].
  intros Hnd Hin. inversion Hnd as [|? ? Hnotin Hnd']; subst.
  unfold lookup. simpl.
  destruct Hin as [->|Hin].
  - simpl. now rewrite Z.eqb_refl.
  - destruct (Z.eqb_spec (fst e) t) as [E|E].
    + exfalso. apply Hnotin. rewrite E.
      change t with (fst (t, v)). now apply in_map.
    + now apply IH.
Qed.

Lemma one_step_accepted df T :
  columns df = ["load"] -> accepted df "load" (one_step_spec T) = true.
Proof.
  intros Hc. unfold accepted, one_step_spec, has_column. simpl.
  rewrite Hc. reflexivity.
Qed.


(** The anchors the windowing cell keeps are those the engine keeps for the
    specification [one_step_spec T] with horizon 1. *)
Lemma one_step_index y_col x_col T df :
  1 <= T ->
  columns df = ["load"] ->
  well_formed df = true ->
  NoDup (index df) ->
  index (dropna (shifted_before_dropna y_col x_col T df))
  = map fst (filter complete (windows df Hour (one_step_keys T))).
Proof.
  intros HT Hc Hwf Hnd.
  rewrite windows_anchors.
  unfold index, dropna, shifted_before_dropna. cbn [rows].
  rewrite filter_map_comm, map_map. cbn [fst].
  rewrite (filter_ext_in _
             (fun r => forallb (fun k => holds_value df (feature k)
                                           (fst r + offset k * Hour))
                               (one_step_keys T))).
  - symmetry. unfold index. exact (filter_map_comm fst _ _).
  - intros r Hr. unfold complete. cbn [snd fst].
    rewrite forallb_app.
    pose proof (window_complete df Hour (one_step_keys T) (fst r)) as Hw.
    unfold complete in Hw. cbn [snd] in Hw. rewrite Hw.
    destruct (forallb (fun k => holds_value df (feature k) (fst r + offset k * Hour))
                (one_step_keys T)) eqn:E; [|apply andb_false_r].
    rewrite andb_true_r.
    rewrite forallb_forall in E.
    assert (Hk : In (mkKey "X" "load" 0) (one_step_keys T)).
    { rewrite one_step_keys_eq. right. apply in_map, in_range. lia. }
    specialize (E _ Hk). cbn [feature offset] in E.
    unfold holds_value in E.
    replace (fst r + 0 * Hour) with (fst r) in E by lia.
    assert (Hcol : has_column df "load" = true)
      by (unfold has_column; now rewrite Hc).
    assert (Hin : In (fst r, nth 0 (snd r) NaN) (column df "load")).
    { unfold column, getitem. rewrite Hc. cbn [position String.eqb].
      simpl. apply in_map_iff. exists r. auto. }
    assert (Hndc : NoDup (map fst (column df "load")))
      by (rewrite column_index; assumption).
    rewrite (lookup_In _ _ _ Hndc Hin) in E.
    unfold well_formed in Hwf. rewrite forallb_forall in Hwf.
    specialize (Hwf r Hr). rewrite Hc in Hwf. apply Nat.eqb_eq in Hwf.
    destruct (snd r) as [|v [|w l]]; try discriminate.
    simpl in *. now rewrite E.
Qed.


(** On a table the engine accepts, the windowing cell of the notebook and
    the engine for [one_step_spec T] with horizon 1 keep the same anchors. *)
Lemma one_step_is_engine_instance y_col x_col T df :
  y_col <> "load" ->
  (forall p, x_col p <> "load") ->
  (forall p, x_col p <> y_col) ->
  (forall p q, x_col p = x_col q -> p = q) ->
  1 <= T ->
  columns df = ["load"] ->
  well_formed df = true ->
  strictly_increasing (index df) = true ->
  exists shifted c,
    shifted_frame y_col x_col T df = Ok shifted
    /\ build df "load" 1 (one_step_spec T) Hour true = inr c
    /\ index shifted = anchors c.
Proof.
  intros Hy Hx Hxy Hinj HT Hc Hwf Hs.
  pose proof (strictly_increasing_NoDup _ Hs) as Hnd.
  do 2 eexists. split; [|split].
  - apply shifted_frame_windows; assumption.
  - apply build_accepted; [assumption | now apply one_step_accepted].
  - unfold anchors. cbn [samples].
    now apply one_step_index.
Qed.



(** *** Splits *)

Lemma split_frame p energy :
  has_column energy "load" = true ->
  exists j,
    position "load" (columns energy) = Some j
    /\ getitems (filter_index p energy) ["load"]
       = Ok {| columns := ["load"];
               rows := map (fun r => (fst r, [nth j (snd r) NaN]))
                           (filter (fun r => p (fst r)) (rows energy)) |}.
Proof.
  unfold has_column, getitems, filter_index. cbn [columns rows positions].
  destruct (position "load" (columns energy)) as [j|]; [|discriminate].
  intros _. exists j. split; reflexivity.
Qed.


(** *** The ten-row scenario (C2) *)

(** C2, as stated, fails: the ten rows give seven samples, not six. *)
Lemma ten_rows_not_six_samples :
  exists d,
    train_shifted 3 table10 = Ok d
    /\ List.length (rows d) = 7%nat
    /\ List.length (rows d) <> 6%nat.
Proof.
  eexists. split; [vm_compute; reflexivity|].
  split; [reflexivity | discriminate].
Qed.

(** C2, amended.  For ten hourly rows with [load = 1..10], lookback [T = 3]
    (offsets t-2, t-1, t) and horizon 1 the windowing yields exactly 7
    samples, and the first sample's input sequence is [1,2,3] with target
    4. *)
Theorem ten_rows_seven_samples :
  (exists d, train_shifted 3 table10 = Ok d /\ List.length (rows d) = 7%nat)
  /\ (exists d X y,
        test_shifted 3 table10 = Ok d
        /\ X_test 3 d = Ok X /\ y_test d = Ok y
        /\ List.length X = 7%nat /\ List.length y = 7%nat
        /\ hd_error X = Some [Zfloat 1; Zfloat 2; Zfloat 3]
        /\ hd_error y = Some (Zfloat 4)).
Proof.
  split.
  - eexists. split; [vm_compute; reflexivity | reflexivity].
  - do 3 eexists.
    split; [vm_compute; reflexivity|].
    split; [vm_compute; reflexivity|].
    split; [vm_compute; reflexivity|].
    repeat split; reflexivity.
Qed.

(** The engine on the same scenario: seven samples, the first anchored at
    the third row with target 4 and inputs [1,2,3]. *)
Lemma ten_rows_engine :
  exists c,
    build table10 "load" 1 (one_step_spec 3) Hour true = inr c
    /\ List.length (samples c) = 7%nat
    /\ hd_error (samples c)
       = Some (2 * Hour, [Zfloat 4; Zfloat 1; Zfloat 2; Zfloat 3]).
Proof.
  eexists. split; [vm_compute; reflexivity|].
  split; reflexivity.
Qed.

(** *** Windowing a gapless split *)



Lemma grid_lower t0 f n u : 0 < f -> In u (grid t0 f n) -> t0 <= u.
Proof.
  intros Hf Hin. apply in_grid in Hin. destruct Hin as (i & _ & ->). nia.
Qed.

Lemma y_t1_not_load : "y_t+1" <> "load".
Proof. discriminate. Qed.

Lemma y1_not_load : "y+1" <> "load".
Proof. discriminate. Qed.

Lemma load_t_not_load p : load_t p <> "load".
Proof. unfold load_t. simpl. discriminate. Qed.

Lemma load_t_not_y_t1 p : load_t p <> "y_t+1".
Proof. unfold load_t. simpl. discriminate. Qed.

Lemma load_t_not_y1 p : load_t p <> "y+1".
Proof. unfold load_t. simpl. discriminate. Qed.


(** *** MAPE *)

Lemma series_ratio_fused ps acts :
  series_div (series_abs (series_sub ps acts)) acts
  = absolute_percentage_errors ps acts.
Proof.
  unfold series_div, series_abs, series_sub, absolute_percentage_errors.
  revert acts; induction ps as [|p ps IH]; intros [|a acts]; simpl; auto.
  f_equal; apply IH.
Qed.

Lemma ratios_not_nan ps acts :
  forallb (fun p => negb (is_nan p)) ps = true ->
  forallb is_finite acts = true ->
  forallb (fun a => negb (is_zero a)) acts = true ->
  forallb (fun x => negb (is_nan x)) (absolute_percentage_errors ps acts) = true.
Proof.
  unfold absolute_percentage_errors.
  revert acts; induction ps as [|p ps IH]; intros [|a acts]; simpl; auto.
  intros Hp Ha Hz.
  apply andb_prop in Hp, Ha, Hz.
  destruct Hp as [Hp Hps], Ha as [Ha Has], Hz as [Hz Hzs].
  rewrite IH by assumption. rewrite andb_true_r.
  rewrite fdiv_by_finite; auto.
  - rewrite fabs_nan. apply fsub_finite; [|assumption].
    now destruct (is_nan p).
  - destruct (is_zero a); [discriminate | reflexivity].
Qed.

Lemma mean_without_nan xs :
  forallb (fun x => negb (is_nan x)) xs = true ->
  mean xs = fdiv (fsum xs) (Zfloat (Z.of_nat (List.length xs))).
Proof.
  intros Hxs. unfold mean.
  assert (Hf : filter (fun x => negb (is_nan x)) xs = xs).
  { induction xs as [|x xs IH]; simpl in *; auto.
    apply andb_prop in Hxs; destruct Hxs as [Hx Hxs].
    rewrite Hx; f_equal; auto. }
  assert (Hm : map (fun x => if is_nan x then zero else x) xs = xs).
  { induction xs as [|x xs IH]; simpl in *; auto.
    apply andb_prop in Hxs; destruct Hxs as [Hx Hxs].
    destruct (is_nan x); [discriminate|].
    f_equal; apply IH; auto.
    simpl in Hf; injection Hf; auto. }
  rewrite Hf, Hm.
  destruct xs as [|x xs]; reflexivity.
Qed.

Lemma add_in_order_fold xs acc : add_in_order acc xs = fold_left fadd xs acc.
Proof. revert acc; induction xs as [|x xs IH]; intros acc; simpl; auto. Qed.

Lemma pairwise_sum_unfold fuel a :
  pairwise_sum fuel a
  = if (List.length a <? 8)%nat then fold_left fadd a zero
    else if (List.length a <=? 128)%nat then block_sum a
    else match fuel with
         | O => block_sum a
         | S fuel' =>
             let n2 := (List.length a / 2 - (List.length a / 2) mod 8)%nat in
             fadd (pairwise_sum fuel' (firstn n2 a))
                  (pairwise_sum fuel' (skipn n2 a))
         end.
Proof. destruct fuel; reflexivity. Qed.

Lemma split_point n :
  (128 < n)%nat ->
  (0 < n / 2 - (n / 2) mod 8 < n)%nat.
Proof.
  intros Hn.
  pose proof (Nat.div_mod_eq n 2) as E.
  pose proof (Nat.mod_upper_bound n 2 ltac:(discriminate)) as H2.
  pose proof (Nat.mod_upper_bound (n / 2) 8 ltac:(discriminate)) as H8.
  lia.
Qed.

(** The steps given to the recursion are enough: more of them change
    nothing. *)
Lemma pairwise_sum_fuel : forall fuel fuel' a,
  (List.length a <= fuel)%nat -> (List.length a <= fuel')%nat ->
  pairwise_sum fuel a = pairwise_sum fuel' a.
Proof.
  induction fuel as [|fuel IH]; intros fuel' a H H'.
  - assert (List.length a = 0%nat) as E by lia.
    rewrite !pairwise_sum_unfold, E. reflexivity.
  - rewrite (pairwise_sum_unfold (S fuel)), (pairwise_sum_unfold fuel').
    destruct (List.length a <? 8)%nat; [reflexivity|].
    destruct (Nat.leb_spec (List.length a) 128) as [_|Hn]; [reflexivity|].
    destruct fuel' as [|fuel']; [lia|].
    destruct (split_point _ Hn) as [Hlo Hhi]. cbv zeta.
    f_equal; apply IH; rewrite ?length_firstn, ?length_skipn; lia.
Qed.

Lemma fsum_in_order xs :
  (List.length xs < 8)%nat -> fsum xs = fadd zero (add_in_order zero xs).
Proof.
  intros H. unfold fsum. rewrite pairwise_sum_unfold.
  replace (List.length xs <? 8)%nat with true
    by (symmetry; now apply Nat.ltb_lt).
  now rewrite add_in_order_fold.
Qed.


Lemma fadd_inf_or_nan_l x y : inf_or_nan x = true -> inf_or_nan (fadd x y) = true.
Proof.
  destruct x as [sx|sx| |sx mx ex]; try discriminate; intros _;
    destruct y as [sy|sy| |sy my ey]; try reflexivity.
  destruct sx, sy; reflexivity.
Qed.

Lemma fadd_inf_r x y : is_inf y = true -> inf_or_nan (fadd x y) = true.
Proof.
  destruct y as [sy|sy| |sy my ey]; try discriminate; intros _;
    destruct x as [sx|sx| |sx mx ex]; try reflexivity.
  destruct sx, sy; reflexivity.
Qed.

Lemma fdiv_inf_or_nan x y : inf_or_nan x = true -> inf_or_nan (fdiv x y) = true.
Proof.
  destruct x as [sx|sx| |sx mx ex]; try discriminate; intros _;
    destruct y as [sy|sy| |sy my ey]; reflexivity.
Qed.

Lemma fold_fadd_stays xs acc :
  inf_or_nan acc = true -> inf_or_nan (fold_left fadd xs acc) = true.
Proof.
  revert acc; induction xs as [|x xs IH]; simpl; intros acc H; auto.
  apply IH, fadd_inf_or_nan_l, H.
Qed.

Lemma fold_fadd_with_inf xs acc :
  existsb is_inf xs = true -> inf_or_nan (fold_left fadd xs acc) = true.
Proof.
  revert acc; induction xs as [|x xs IH]; simpl; intros acc H; [discriminate|].
  apply orb_prop in H; destruct H as [H|H].
  - apply fold_fadd_stays, fadd_inf_r, H.
  - apply IH, H.
Qed.

Lemma fadd_inf_or_nan_r x y : inf_or_nan y = true -> inf_or_nan (fadd x y) = true.
Proof.
  destruct y as [sy|sy| |sy my ey]; try discriminate; intros _;
    destruct x as [sx|sx| |sx mx ex]; try reflexivity.
  destruct sx, sy; reflexivity.
Qed.

Lemma fold_fadd_with_inf_or_nan xs acc :
  existsb inf_or_nan xs = true -> inf_or_nan (fold_left fadd xs acc) = true.
Proof.
  revert acc; induction xs as [|x xs IH]; simpl; intros acc H; [discriminate|].
  apply orb_prop in H; destruct H as [H|H].
  - apply fold_fadd_stays, fadd_inf_or_nan_r, H.
  - apply IH, H.
Qed.

Lemma accumulator_at a k j :
  (j < 8)%nat -> (k < List.length a / 8)%nat ->
  inf_or_nan (nth (8 * k + j) a zero) = true ->
  inf_or_nan (accumulator a j) = true.
Proof.
  intros Hj Hk Hbad. unfold accumulator.
  destruct k as [|k].
  - apply fold_fadd_stays. now rewrite Nat.mul_0_r in Hbad.
  - apply fold_fadd_with_inf_or_nan, existsb_exists.
    exists (nth (8 * S k + j) a zero). split; [|assumption].
    apply in_map_iff. exists (S k). split; [reflexivity|].
    apply in_seq. lia.
Qed.

Lemma combined_accumulators (r : nat -> spec_float) j :
  (j < 8)%nat -> inf_or_nan (r j) = true ->
  inf_or_nan (fadd (fadd (fadd (r 0%nat) (r 1%nat)) (fadd (r 2%nat) (r 3%nat)))
                   (fadd (fadd (r 4%nat) (r 5%nat)) (fadd (r 6%nat) (r 7%nat))))
  = true.
Proof.
  intros Hj H.
  destruct j as [|[|[|[|[|[|[|[|j]]]]]]]]; [..|lia];
    repeat first [ assumption
                 | apply fadd_inf_or_nan_l; solve [auto using fadd_inf_or_nan_l, fadd_inf_or_nan_r]
                 | apply fadd_inf_or_nan_r; solve [auto using fadd_inf_or_nan_l, fadd_inf_or_nan_r] ].
Qed.

Lemma existsb_position {A} (f : A -> bool) (l : list A) d :
  existsb f l = true -> exists p, (p < List.length l)%nat /\ f (nth p l d) = true.
Proof.
  intros H. apply existsb_exists in H. destruct H as (x & Hx & Hf).
  destruct (In_nth l x d Hx) as (p & Hp & E). exists p. now rewrite E.
Qed.

Lemma block_sum_inf_or_nan a :
  existsb inf_or_nan a = true -> inf_or_nan (block_sum a) = true.
Proof.
  intros H. destruct (existsb_position _ _ zero H) as (p & Hp & Hbad).
  unfold block_sum.
  set (n := List.length a) in *.
  pose proof (Nat.div_mod_eq n 8) as En.
  pose proof (Nat.mod_upper_bound n 8 ltac:(discriminate)) as Hn8.
  destruct (Nat.lt_ge_cases p (n - n mod 8)) as [Hin|Hout].
  - apply fold_fadd_stays.
    pose proof (Nat.div_mod_eq p 8) as Ep.
    pose proof (Nat.mod_upper_bound p 8 ltac:(discriminate)) as Hp8.
    apply (combined_accumulators (accumulator a) (p mod 8) Hp8).
    apply (accumulator_at a (p / 8) (p mod 8) Hp8).
    + fold n. lia.
    + now rewrite <- Ep.
  - apply fold_fadd_with_inf_or_nan, existsb_exists.
    exists (nth p a zero). split; [|assumption].
    replace p with ((n - n mod 8) + (p - (n - n mod 8)))%nat by lia.
    rewrite <- nth_skipn. apply nth_In. rewrite length_skipn. fold n. lia.
Qed.

Lemma pairwise_sum_inf_or_nan : forall fuel a,
  existsb inf_or_nan a = true -> inf_or_nan (pairwise_sum fuel a) = true.
Proof.
  induction fuel as [|fuel IH]; intros a H; rewrite pairwise_sum_unfold.
  - destruct (_ <? _)%nat; [now apply fold_fadd_with_inf_or_nan|].
    destruct (_ <=? _)%nat; now apply block_sum_inf_or_nan.
  - destruct (_ <? _)%nat; [now apply fold_fadd_with_inf_or_nan|].
    destruct (_ <=? _)%nat; [now apply block_sum_inf_or_nan|]. cbv zeta.
    set (n2 := (_ - _)%nat).
    rewrite <- (firstn_skipn n2 a), existsb_app in H.
    apply orb_prop in H. destruct H as [H|H].
    + apply fadd_inf_or_nan_l, IH, H.
    + apply fadd_inf_or_nan_r, IH, H.
Qed.

Lemma fsum_inf_or_nan xs :
  existsb inf_or_nan xs = true -> inf_or_nan (fsum xs) = true.
Proof.
  intros H. unfold fsum. now apply fadd_inf_or_nan_r, pairwise_sum_inf_or_nan.
Qed.

Lemma mean_with_inf xs :
  existsb is_inf xs = true -> inf_or_nan (mean xs) = true.
Proof.
  intros H; unfold mean.
  destruct (_ =? _)%nat; [reflexivity|].
  apply fdiv_inf_or_nan, fsum_inf_or_nan.
  induction xs as [|x xs IH]; simpl in *; [discriminate|].
  apply orb_prop in H; destruct H as [H|H].
  - destruct x; try discriminate; reflexivity.
  - rewrite IH by assumption. apply orb_true_r.
Qed.

Lemma ratio_over_zero p a :
  is_zero a = true -> is_zero p = false -> is_nan p = false ->
  is_inf (fdiv (fabs (fsub p a)) a) = true.
Proof.
  destruct a as [sa|sa| |sa ma ea]; try discriminate; intros _.
  destruct p as [sp|sp| |sp mp ep]; try discriminate; intros _ _; reflexivity.
Qed.

Lemma ratios_nth ps acts i p a :
  nth_error ps i = Some p -> nth_error acts i = Some a ->
  nth_error (absolute_percentage_errors ps acts) i
  = Some (fdiv (fabs (fsub p a)) a).
Proof.
  unfold absolute_percentage_errors.
  revert acts i; induction ps as [|p' ps IH]; intros [|a' acts] [|i]; simpl;
    try discriminate.
  - intros [= ->] [= ->]; reflexivity.
  - apply IH.
Qed.

Lemma existsb_nth_error {A} (f : A -> bool) xs i x :
  nth_error xs i = Some x -> f x = true -> existsb f xs = true.
Proof.
  intros Hn Hf. apply existsb_exists. exists x; split; auto.
  eapply nth_error_In; eauto.
Qed.

(** C7, as stated, fails: a prediction that is NaN gives the element NaN,
    which the mean skips; the mean over all elements is NaN, [mape] is the
    mean of the other elements. *)
Lemma nan_prediction_is_skipped :
  let predictions := [NaN; Zfloat 100] in
  let actuals := [Zfloat 50; Zfloat 50] in
  List.length predictions = List.length actuals
  /\ existsb is_zero actuals = false
  /\ mape predictions actuals = Zfloat 1
  /\ mean_of_all (absolute_percentage_errors predictions actuals) = NaN
  /\ mape predictions actuals
     <> mean_of_all (absolute_percentage_errors predictions actuals).
Proof.
  vm_compute. repeat (split; [reflexivity|]). discriminate.
Qed.

(** C7, amended.  On equal-length sequences in which no prediction is NaN
    and every actual is finite and not zero, no element is skipped: [mape]
    is the sum of [|prediction - actual| / actual] over all elements, as
    numpy adds them, divided by their number.  For fewer than 8 elements,
    which numpy adds in order, this is the mean over all elements; from 8
    elements on the sum is pairwise, as on the eight elements
    [2^53, 1, ..., 1], whose mean is [(2^53 + 6) / 8] where adding in order
    gives [2^53 / 8].  And [mape([100],[50]) = 1.0],
    [mape([50],[100]) = 0.5]. *)
Theorem mape_is_mean_of_ratios :
  (forall predictions actuals,
      List.length predictions = List.length actuals ->
      forallb (fun p => negb (is_nan p)) predictions = true ->
      forallb is_finite actuals = true ->
      forallb (fun a => negb (is_zero a)) actuals = true ->
      mape predictions actuals
      = fdiv (fsum (absolute_percentage_errors predictions actuals))
             (Zfloat (Z.of_nat (List.length actuals)))
      /\ ((List.length actuals < 8)%nat ->
          mape predictions actuals
          = mean_of_all (absolute_percentage_errors predictions actuals)))
  /\ mape [Zfloat 100] [Zfloat 50] = Zfloat 1
  /\ mape [Zfloat 50] [Zfloat 100] = ratio 1 2
  /\ (let predictions := Zfloat (1 - 2 ^ 53) :: repeat (Zfloat 2) 7 in
      let actuals := repeat (Zfloat 1) 8 in
      absolute_percentage_errors predictions actuals
      = Zfloat (2 ^ 53) :: repeat (Zfloat 1) 7
      /\ mape predictions actuals = ratio (2 ^ 53 + 6) 8
      /\ mean_of_all (absolute_percentage_errors predictions actuals)
         = ratio (2 ^ 53) 8).
Proof.
  split; [|split; [|split]].
  - intros ps acts Hlen Hp Ha Hz.
    assert (Hn : List.length (absolute_percentage_errors ps acts)
                 = List.length acts).
    { unfold absolute_percentage_errors. clear - Hlen.
      revert acts Hlen; induction ps as [|p ps IH]; intros [|a acts] Hlen;
        simpl in *; try discriminate; auto. }
    assert (E : mape ps acts
                = fdiv (fsum (absolute_percentage_errors ps acts))
                       (Zfloat (Z.of_nat (List.length acts)))).
    { unfold mape. rewrite series_ratio_fused, <- Hn.
      apply mean_without_nan, ratios_not_nan; assumption. }
    split; [exact E|].
    intros Hshort. rewrite E. unfold mean_of_all.
    rewrite fsum_in_order, Hn by (rewrite Hn; exact Hshort). reflexivity.
  - vm_compute. reflexivity.
  - vm_compute. reflexivity.
  - vm_compute. repeat split; reflexivity.
Qed.

Lemma mape_is_mean_of_ratios_witness :
  List.length [Zfloat 3; Zfloat 8] = List.length [Zfloat 4; Zfloat (-2)]
  /\ forallb (fun p => negb (is_nan p)) [Zfloat 3; Zfloat 8] = true
  /\ forallb is_finite [Zfloat 4; Zfloat (-2)] = true
  /\ forallb (fun a => negb (is_zero a)) [Zfloat 4; Zfloat (-2)] = true
  /\ (List.length [Zfloat 4; Zfloat (-2)] < 8)%nat
  /\ mape [Zfloat 3; Zfloat 8] [Zfloat 4; Zfloat (-2)]
     = mean_of_all (absolute_percentage_errors [Zfloat 3; Zfloat 8]
                                               [Zfloat 4; Zfloat (-2)])
  /\ mape [Zfloat 3; Zfloat 8] [Zfloat 4; Zfloat (-2)] = ratio (-19) 8.
Proof.
  repeat (split; [reflexivity|]).
  split; [simpl; lia|].
  split; [|vm_compute; reflexivity].
  apply (proj1 mape_is_mean_of_ratios); [reflexivity..|]. simpl. lia.
Defined.

(** C8, as stated, fails: a zero actual whose prediction is zero too gives
    the element NaN, which the mean skips; the result is the finite mean of
    the other elements. *)
Lemma zero_over_zero_is_skipped :
  let predictions := [Zfloat 0; Zfloat 100] in
  let actuals := [Zfloat 0; Zfloat 50] in
  existsb is_zero actuals = true
  /\ mape predictions actuals = Zfloat 1
  /\ ~ (is_inf (mape predictions actuals) = true
        \/ is_nan (mape predictions actuals) = true).
Proof.
  vm_compute. split; [reflexivity|]. split; [reflexivity|].
  intros [H|H]; discriminate.
Qed.

(** C8, amended.  [mape] is a total function: it never raises and has no
    guard on the division.  When some actual is zero and its prediction is
    neither zero nor NaN, the result is an infinity or NaN. *)
Theorem mape_zero_actual :
  forall predictions actuals i p a,
    nth_error predictions i = Some p ->
    nth_error actuals i = Some a ->
    is_zero a = true -> is_zero p = false -> is_nan p = false ->
    is_inf (mape predictions actuals) = true
    \/ is_nan (mape predictions actuals) = true.
Proof.
  intros ps acts i p a Hp Ha Hz Hpz Hpn.
  apply orb_prop. fold (inf_or_nan (mape ps acts)).
  unfold mape. rewrite series_ratio_fused.
  apply mean_with_inf.
  eapply existsb_nth_error.
  - eapply ratios_nth; eassumption.
  - apply ratio_over_zero; assumption.
Qed.

Lemma mape_zero_actual_witness :
  nth_error [Zfloat 3; Zfloat 100] 0 = Some (Zfloat 3)
  /\ nth_error [Zfloat 0; Zfloat 50] 0 = Some (Zfloat 0)
  /\ is_zero (Zfloat 0) = true
  /\ is_zero (Zfloat 3) = false
  /\ is_nan (Zfloat 3) = false
  /\ (is_inf (mape [Zfloat 3; Zfloat 100] [Zfloat 0; Zfloat 50]) = true
      \/ is_nan (mape [Zfloat 3; Zfloat 100] [Zfloat 0; Zfloat 50]) = true).
Proof.
  repeat (split; [reflexivity|]).
  apply (mape_zero_actual _ _ 0%nat (Zfloat 3) (Zfloat 0)); reflexivity.
Defined.

(** *** Evaluation frame *)

Lemma map2_nth {A B C} (g : A -> B -> C) xs ys dx dy :
  List.length xs = List.length ys ->
  map2 g xs ys
  = map (fun i => g (nth i xs dx) (nth i ys dy)) (seq 0 (List.length xs)).
Proof.
  revert ys; induction xs as [|x xs IH]; intros [|y ys]; simpl;
    try discriminate; auto.
  intros [= Hlen]. f_equal.
  rewrite <- seq_shift, map_map. now apply IH.
Qed.

Lemma map_nth_seq {A B} (g : A -> B) l d :
  map g l = map (fun i => g (nth i l d)) (seq 0 (List.length l)).
Proof.
  induction l as [|x l IH]; simpl; [reflexivity|]. f_equal.
  now rewrite <- seq_shift, map_map.
Qed.

Lemma combine_map_r {A B} (g : A -> B) l :
  combine l (map g l) = map (fun x => (x, g x)) l.
Proof. induction l as [|x l IH]; simpl; [reflexivity|]. now rewrite IH. Qed.

Lemma flat_map_map {A B C} (g : A -> B) (k : B -> list C) l :
  flat_map k (map g l) = flat_map (fun x => k (g x)) l.
Proof. induction l as [|x l IH]; simpl; [reflexivity|]. now rewrite IH. Qed.

Lemma map_flat_map {A B C} (g : B -> C) (k : A -> list B) l :
  map g (flat_map k l) = flat_map (fun x => map g (k x)) l.
Proof.
  induction l as [|x l IH]; simpl; [reflexivity|]. now rewrite map_app, IH.
Qed.

Lemma map2_app {A B C} (g : A -> B -> C) xs1 xs2 ys1 ys2 :
  List.length xs1 = List.length ys1 ->
  map2 g (xs1 ++ xs2) (ys1 ++ ys2) = map2 g xs1 ys1 ++ map2 g xs2 ys2.
Proof.
  revert ys1; induction xs1 as [|x xs1 IH]; intros [|y ys1]; simpl;
    try discriminate; auto.
  intros [= Hlen]. f_equal. now apply IH.
Qed.

Lemma map2_flat_map {A B C J} (g : A -> B -> C) (a : J -> list A)
  (b : J -> list B) js :
  (forall j, List.length (a j) = List.length (b j)) ->
  map2 g (flat_map a js) (flat_map b js)
  = flat_map (fun j => map2 g (a j) (b j)) js.
Proof.
  intros Hlen. induction js as [|j js IH]; simpl; [reflexivity|].
  now rewrite map2_app, IH.
Qed.

Lemma map2_map_map {A B C I} (g : A -> B -> C) (a : I -> A) (b : I -> B) l :
  map2 g (map a l) (map b l) = map (fun i => g (a i) (b i)) l.
Proof. induction l as [|x l IH]; simpl; [reflexivity|]. now rewrite IH. Qed.

Lemma flat_map_length_const {A B} (k : A -> list B) l n :
  (forall x, List.length (k x) = n) ->
  List.length (flat_map k l) = (List.length l * n)%nat.
Proof.
  intros Hk. induction l as [|x l IH]; simpl; [reflexivity|].
  now rewrite length_app, Hk, IH.
Qed.

Lemma range_from_seq a b :
  range a b = map (fun i => a + Z.of_nat i) (seq 0 (Z.to_nat (b - a))).
Proof. reflexivity. Qed.

(** With one prediction row and one target row per anchor, each of the
    width of the horizon, the evaluation frame is built, and its rows are
    grouped by horizon step and then by anchor. *)
Lemma eval_df_horizon_major :
  forall predictions test_shifted_index y_test HORIZON inverse_transform,
    1 <= HORIZON ->
    predictions <> [] ->
    List.length predictions = List.length test_shifted_index ->
    List.length y_test = List.length test_shifted_index ->
    (forall r, In r predictions -> List.length r = Z.to_nat HORIZON) ->
    (forall r, In r y_test -> List.length r = Z.to_nat HORIZON) ->
    eval_df predictions test_shifted_index y_test HORIZON inverse_transform
    = Ok (horizon_major test_shifted_index predictions y_test
            (Z.to_nat HORIZON) inverse_transform).
Proof.
  intros preds idx y H f HH Hne Hpi Hyi Hpw Hyw.
  set (h := Z.to_nat H) in *.
  set (n := List.length idx) in *.
  assert (Hn : (0 < n)%nat).
  { destruct preds; [contradiction|]. simpl in Hpi. lia. }
  unfold eval_df.
  set (nm := fun j : nat => String.append "t+" (str (1 + Z.of_nat j))).
  assert (Hnames : map (fun t => String.append "t+" (str t)) (range 1 (H + 1))
                   = map nm (seq 0 h)).
  { rewrite range_from_seq, map_map.
    replace (Z.to_nat (H + 1 - 1)) with h by (unfold h; lia). reflexivity. }
  rewrite Hnames.
  assert (Hlenn : List.length (map nm (seq 0 h)) = h)
    by now rewrite length_map, length_seq.
  unfold wide_frame.
  assert (Hw : forallb (fun r => (List.length r =? List.length (map nm (seq 0 h)))%nat)
                 preds = true).
  { apply forallb_forall. intros r Hr. rewrite Hlenn. apply Nat.eqb_eq. auto. }
  rewrite Hw. cbn [bind].
  unfold assign_values at 1.
  destruct preds as [|p0 preds'] eqn:Epreds; [contradiction|].
  rewrite <- Epreds in *. clear Hne.
  replace (List.length idx =? List.length preds)%nat with true
    by (symmetry; apply Nat.eqb_eq; lia).
  cbn [bind].
  rewrite (map2_nth _ preds idx [] 0 Hpi), Hpi. fold n.
  unfold melt. rewrite Hlenn, combine_map_r, flat_map_map. cbn [fst snd].
  set (long := flat_map _ (seq 0 h)).
  assert (Hy0 : List.length (hd [] y) = h).
  { destruct y as [|y0 y']; [simpl in Hyi; lia|]. apply Hyw. now left. }
  unfold transpose_ravel. rewrite Hy0.
  assert (Hlong : List.length long = (h * n)%nat).
  { unfold long. rewrite (flat_map_length_const _ _ n).
    - now rewrite length_seq.
    - intros j. now rewrite !length_map, length_seq. }
  assert (Hact : List.length (flat_map (fun j => map (fun r => nth j r NaN) y) (seq 0 h))
                 = (h * n)%nat).
  { rewrite (flat_map_length_const _ _ n).
    - now rewrite length_seq.
    - intros j. now rewrite length_map. }
  unfold assign_values.
  destruct long as [|l0 long'] eqn:Elong.
  { simpl in Hlong. assert (0 < h)%nat by (unfold h; lia). nia. }
  rewrite <- Elong in *.
  rewrite Hact, Hlong, Nat.eqb_refl. cbn [bind]. f_equal.
  unfold long, horizon_major. fold n.
  rewrite (map2_flat_map _ _ _ (seq 0 h)).
  - rewrite map_flat_map. apply flat_map_ext. intros j.
    rewrite map_map.
    rewrite (map_nth_seq (fun r => nth j r NaN) y []), Hyi. fold n.
    rewrite map2_map_map, map_map. reflexivity.
  - intros j. now rewrite !length_map, length_seq.
Qed.

(** C3, as stated, fails: the rows are not in the order anchor by anchor. *)
Lemma eval_df_not_anchor_major :
  eval_df [[ratio 1 10; ratio 2 10]; [ratio 3 10; ratio 4 10]]
          [0; 3600]
          [[Zfloat 1; Zfloat 2]; [Zfloat 3; Zfloat 4]]
          2 (fun x => x)
  <> Ok [ mkEvalRow (Some 0) (Some "t+1") (ratio 1 10) (Zfloat 1);
          mkEvalRow (Some 0) (Some "t+2") (ratio 2 10) (Zfloat 2);
          mkEvalRow (Some 3600) (Some "t+1") (ratio 3 10) (Zfloat 3);
          mkEvalRow (Some 3600) (Some "t+2") (ratio 4 10) (Zfloat 4) ].
Proof. vm_compute. discriminate. Qed.

(** C3, amended.  For 2 samples and horizon 2 with predictions
    [[0.1,0.2],[0.3,0.4]] and the identity scaler the frame has exactly 4
    rows labelled "t+1"/"t+2", grouped by horizon step and then by anchor:
    (anchor0,"t+1",0.1), (anchor1,"t+1",0.3), (anchor0,"t+2",0.2),
    (anchor1,"t+2",0.4); each row's actual is the target's entry at the same
    (anchor, horizon step). *)
Theorem eval_df_scenario :
  forall (anchor0 anchor1 : Timestamp) (y00 y01 y10 y11 : float),
    eval_df [[ratio 1 10; ratio 2 10]; [ratio 3 10; ratio 4 10]]
            [anchor0; anchor1]
            [[y00; y01]; [y10; y11]]
            2 (fun x => x)
    = Ok [ mkEvalRow (Some anchor0) (Some "t+1") (ratio 1 10) y00;
           mkEvalRow (Some anchor1) (Some "t+1") (ratio 3 10) y10;
           mkEvalRow (Some anchor0) (Some "t+2") (ratio 2 10) y01;
           mkEvalRow (Some anchor1) (Some "t+2") (ratio 4 10) y11 ].
Proof. intros; reflexivity. Qed.

(** C6, as stated, fails: an empty predictions array is not refused; the
    frame takes the anchors and holds NaN as predictions. *)
Lemma eval_df_empty_predictions_accepted :
  List.length (@nil (list float)) <> List.length [0]
  /\ eval_df [] [0] [[Zfloat 7]] 1 (fun x => x)
     = Ok [ mkEvalRow (Some 0) (Some "t+1") NaN (Zfloat 7) ].
Proof. split; [discriminate | reflexivity]. Qed.

(** C6, amended.  A predictions array with at least one row whose number of
    rows differs from the number of surviving anchors is refused: building
    the frame raises pandas' [ValueError]. *)
Theorem eval_df_length_mismatch :
  forall predictions test_shifted_index y_test HORIZON inverse_transform,
    predictions <> [] ->
    List.length predictions <> List.length test_shifted_index ->
    exists msg,
      eval_df predictions test_shifted_index y_test HORIZON inverse_transform
      = Raise (ValueError msg).
Proof.
  intros predictions idx y H f Hne Hlen. unfold eval_df.
  set (names := map _ (range 1 (H + 1))).
  unfold wide_frame.
  destruct (forallb _ predictions); simpl; [|eauto].
  destruct predictions as [|r rs]; [contradiction|].
  unfold assign_values.
  destruct (Nat.eqb_spec (List.length idx) (List.length (r :: rs))) as [E|E].
  - exfalso; apply Hlen; symmetry; exact E.
  - simpl; eauto.
Qed.

Lemma eval_df_length_mismatch_witness :
  [[Zfloat 1]] <> []
  /\ List.length [[Zfloat 1]] <> List.length [0; 3600]
  /\ exists msg,
      eval_df [[Zfloat 1]] [0; 3600] [[Zfloat 1]; [Zfloat 3]] 1 (fun x => x)
      = Raise (ValueError msg).
Proof.
  split; [discriminate|]. split; [discriminate|].
  apply eval_df_length_mismatch; discriminate.
Defined.

(** *** Loading the data *)

Lemma fold_min_spec ts t :
  In (fold_left Z.min ts t) (t :: ts)
  /\ forall u, In u (t :: ts) -> fold_left Z.min ts t <= u.
Proof.
  revert t; induction ts as [|a ts IH]; intros t; simpl.
  - split; [now left | intros u [<-|[]]; lia].
  - destruct (IH (Z.min t a)) as [Hin Hle]. split.
    + destruct Hin as [E|Hin]; [|right; right; assumption].
      rewrite <- E. destruct (Z.min_spec t a) as [[_ ->]|[_ ->]]; simpl; auto.
    + intros u Hu.
      assert (Hm : fold_left Z.min ts (Z.min t a) <= Z.min t a)
        by (apply Hle; now left).
      destruct Hu as [<-|[<-|Hu]]; try lia.
      apply Hle. now right.
Qed.

Lemma fold_max_spec ts t :
  In (fold_left Z.max ts t) (t :: ts)
  /\ forall u, In u (t :: ts) -> u <= fold_left Z.max ts t.
Proof.
  revert t; induction ts as [|a ts IH]; intros t; simpl.
  - split; [now left | intros u [<-|[]]; lia].
  - destruct (IH (Z.max t a)) as [Hin Hle]. split.
    + destruct Hin as [E|Hin]; [|right; right; assumption].
      rewrite <- E. destruct (Z.max_spec t a) as [[_ ->]|[_ ->]]; simpl; auto.
    + intros u Hu.
      assert (Hm : Z.max t a <= fold_left Z.max ts (Z.max t a))
        by (apply Hle; now left).
      destruct Hu as [<-|[<-|Hu]]; try lia.
      apply Hle. now right.
Qed.

Lemma is_unique_true_NoDup ts : is_unique ts = true -> NoDup ts.
Proof.
  induction ts as [|t ts IH]; simpl; [constructor|].
  intros H. apply andb_prop in H. destruct H as [Hn Hu].
  constructor; [|auto].
  intros Hin. apply negb_true_iff in Hn.
  assert (existsb (Z.eqb t) ts = true); [|congruence].
  apply existsb_exists. exists t. split; [assumption | apply Z.eqb_refl].
Qed.

Lemma index_equals_refl ts : index_equals ts ts = true.
Proof. induction ts as [|t ts IH]; simpl; [reflexivity|]. now rewrite Z.eqb_refl. Qed.

Lemma date_range_grid first final :
  first <= final ->
  date_range first final Hour
  = grid first Hour (S (Z.to_nat ((final - first) / Hour))).
Proof.
  intros H. unfold date_range.
  destruct (Z.ltb_spec final first); [lia | reflexivity].
Qed.

Lemma in_date_range first final u :
  first <= final ->
  In u (date_range first final Hour)
  <-> first <= u <= final /\ (u - first) mod Hour = 0.
Proof.
  intros H. rewrite date_range_grid by assumption. rewrite in_grid.
  assert (Hq : 0 <= (final - first) / Hour) by (apply Z.div_pos; [lia | reflexivity]).
  pose proof (Z.mul_div_le (final - first) Hour eq_refl) as Hle.
  pose proof (Z.mul_succ_div_gt (final - first) Hour eq_refl) as Hgt.
  assert (HH : Hour = 3600) by reflexivity.
  split.
  - intros (i & Hi & ->). split; [nia|].
    replace (first + Z.of_nat i * Hour - first) with (Z.of_nat i * Hour) by lia.
    apply Z.mod_mul. rewrite HH; lia.
  - intros [Hu Hm]. apply Z.mod_divide in Hm; [|rewrite HH; lia].
    destruct Hm as [q Hq']. exists (Z.to_nat q).
    assert (0 <= q) by nia.
    assert (q <= (final - first) / Hour).
    { apply Z.div_le_lower_bound; [reflexivity|]. rewrite Z.mul_comm. lia. }
    split; [lia|]. rewrite Z2Nat.id by lia. lia.
Qed.

(** What [load_data] returns, when it returns: the index runs from the
    first to the last timestamp of the CSV in steps of one hour. *)
Lemma load_data_index csv e :
  load_data csv = Ok e ->
  exists first final,
    In first (index csv) /\ In final (index csv)
    /\ (forall t, In t (index csv) -> first <= t <= final)
    /\ index e = date_range first final Hour
    /\ columns e = columns csv
    /\ NoDup (index csv).
Proof.
  unfold load_data, py_min, py_max.
  destruct (index csv) as [|t ts] eqn:Hidx; [discriminate|].
  cbn [bind]. set (first := fold_left Z.min ts t). set (final := fold_left Z.max ts t).
  destruct (fold_min_spec ts t) as [Hmin Hle].
  destruct (fold_max_spec ts t) as [Hmax Hge].
  fold first in Hmin, Hle. fold final in Hmax, Hge.
  assert (Hff : first <= final) by (specialize (Hle t (or_introl eq_refl));
    specialize (Hge t (or_introl eq_refl)); lia).
  unfold reindex_frame. rewrite Hidx.
  destruct (index_equals (t :: ts) (date_range first final Hour)) eqn:E.
  - intros [= <-]. apply index_equals_eq in E.
    exists first, final. repeat split; auto; try (apply Hle; assumption);
      try (apply Hge; assumption).
    + now rewrite Hidx.
    + rewrite E, date_range_grid by assumption.
      apply strictly_increasing_NoDup, grid_strictly_increasing. reflexivity.
  - destruct (is_unique (t :: ts)) eqn:U; [|discriminate].
    intros [= <-]. exists first, final.
    repeat split; auto; try (apply Hle; assumption); try (apply Hge; assumption).
    + unfold index. cbn [rows]. rewrite map_map. cbn [fst]. apply map_id.
    + now apply is_unique_true_NoDup.
Qed.

Lemma find_row_unique (l : list (Z * list spec_float)) r :
  NoDup (map fst l) -> In r l -> find (fun r' => fst r' =? fst r) l = Some r.
Proof.
  induction l as [|a l IH]; [intros _ []|].
  intros Hnd Hin. inversion Hnd as [|? ? Hnotin Hnd']; subst. simpl.
  destruct Hin as [->|Hin].
  - now rewrite Z.eqb_refl.
  - destruct (Z.eqb_spec (fst a) (fst r)) as [E|E].
    + exfalso. apply Hnotin. rewrite E. now apply in_map.
    + now apply IH.
Qed.

Lemma row_at_present csv r :
  NoDup (index csv) -> In r (rows csv) -> row_at csv (fst r) = snd r.
Proof.
  intros Hnd Hin. unfold row_at. now rewrite (find_row_unique _ r Hnd Hin).
Qed.

Lemma row_at_absent csv t :
  ~ In t (index csv) -> row_at csv t = repeat NaN (List.length (columns csv)).
Proof.
  intros Hn. unfold row_at.
  destruct (find _ (rows csv)) as [r|] eqn:E; [|reflexivity].
  apply find_some in E. destruct E as [Hin Heq]. apply Z.eqb_eq in Heq.
  exfalso. apply Hn. rewrite <- Heq. now apply in_map.
Qed.

(** X1.  [load_data] returns a frame exactly when the CSV has a row and no
    timestamp twice; it raises otherwise. *)
Theorem load_data_succeeds_iff :
  forall energy_csv,
    (exists energy, load_data energy_csv = Ok energy)
    <-> rows energy_csv <> [] /\ NoDup (index energy_csv).
Proof.
  intros csv. split.
  - intros (e & He). apply load_data_index in He.
    destruct He as (first & final & Hf & _ & _ & _ & _ & Hnd).
    split; [|assumption].
    intros E. unfold index in Hf. rewrite E in Hf. destruct Hf.
  - intros [Hne Hnd]. unfold load_data, py_min, py_max.
    destruct (index csv) as [|t ts] eqn:Hidx.
    { exfalso. apply Hne. apply (map_nil_inv fst). exact Hidx. }
    cbn [bind]. unfold reindex_frame. rewrite Hidx.
    destruct (index_equals _ _); [eauto|].
    rewrite is_unique_NoDup by assumption. eauto.
Qed.

(** X2.  The frame [load_data] returns has one row for every hour from the first
    to the last timestamp of the CSV: its index has no gap, runs in strictly
    increasing order and starts at the first timestamp. *)
Theorem load_data_hourly_index :
  forall energy_csv energy,
    load_data energy_csv = Ok energy ->
    gapless Hour (index energy) = true
    /\ strictly_increasing (index energy) = true
    /\ columns energy = columns energy_csv
    /\ exists first final,
         In first (index energy_csv) /\ In final (index energy_csv)
         /\ (forall t, In t (index energy_csv) -> first <= t <= final)
         /\ hd_error (index energy) = Some first
         /\ forall u, In u (index energy)
                      <-> first <= u <= final /\ (u - first) mod Hour = 0.
Proof.
  intros csv e He. apply load_data_index in He.
  destruct He as (first & final & Hf & Hl & Hb & Hidx & Hc & _).
  assert (Hff : first <= final) by (specialize (Hb first Hf); lia).
  rewrite Hidx. rewrite date_range_grid by assumption.
  split; [apply grid_gapless|].
  split; [apply grid_strictly_increasing; reflexivity|].
  split; [assumption|].
  exists first, final. repeat split; auto; try (apply Hb; assumption).
  - rewrite grid_cons. reflexivity.
  - rewrite <- date_range_grid in H by assumption.
    apply in_date_range in H; tauto.
  - rewrite <- date_range_grid in H by assumption.
    apply in_date_range in H; tauto.
  - rewrite <- date_range_grid in H by assumption.
    apply in_date_range in H; tauto.
  - intros H. rewrite <- date_range_grid by assumption.
    apply in_date_range; assumption.
Qed.

Lemma load_data_hourly_index_witness :
  load_data table_gap
  = Ok {| columns := ["load"];
          rows := [(0, [Zfloat 1]); (1 * Hour, [Zfloat 2]);
                   (2 * Hour, [NaN]); (3 * Hour, [Zfloat 3])] |}
  /\ gapless Hour (map fst [(0, [Zfloat 1]); (1 * Hour, [Zfloat 2]);
                            (2 * Hour, [NaN]); (3 * Hour, [Zfloat 3])]) = true.
Proof.
  assert (E : load_data table_gap
              = Ok {| columns := ["load"];
                      rows := [(0, [Zfloat 1]); (1 * Hour, [Zfloat 2]);
                               (2 * Hour, [NaN]); (3 * Hour, [Zfloat 3])] |})
    by (vm_compute; reflexivity).
  split; [exact E|].
  exact (proj1 (load_data_hourly_index _ _ E)).
Defined.

(** X3.  The rows of the CSV pass through [load_data] unchanged, the hours the
    CSV lacks are rows of NaN, and no row of the CSV that lies on the hourly
    index is lost. *)
Theorem load_data_rows :
  forall energy_csv energy,
    load_data energy_csv = Ok energy ->
    (forall r, In r (rows energy) ->
       (In (fst r) (index energy_csv) -> In r (rows energy_csv))
       /\ (~ In (fst r) (index energy_csv) ->
           snd r = repeat NaN (List.length (columns energy))))
    /\ (forall r, In r (rows energy_csv) -> In (fst r) (index energy) ->
          In r (rows energy)).
Proof.
  intros csv e He.
  pose proof (load_data_index csv e He) as (first & final & _ & _ & _ & _ & _ & Hnd).
  revert He. unfold load_data, py_min, py_max.
  destruct (index csv) as [|t ts] eqn:Hidx; [discriminate|].
  cbn [bind]. unfold reindex_frame. rewrite Hidx.
  destruct (index_equals _ _).
  - intros [= <-]. split.
    + intros r Hr. split; [auto|].
      intros Hn. exfalso. apply Hn. rewrite <- Hidx. unfold index.
      now apply in_map.
    + auto.
  - destruct (is_unique _); [|discriminate].
    intros [= <-]. cbn [rows columns]. split.
    + intros r Hr. apply in_map_iff in Hr. destruct Hr as (u & <- & Hu).
      cbn [fst snd]. split.
      * intros Hin. rewrite <- Hidx in Hin, Hnd.
        unfold index in Hin. apply in_map_iff in Hin.
        destruct Hin as (r' & E & Hr'). rewrite <- E.
        rewrite (row_at_present csv r' Hnd Hr'). now destruct r'.
      * rewrite <- Hidx. apply row_at_absent.
    + intros r Hr Hin. rewrite <- Hidx in Hnd.
      unfold index in Hin. cbn [rows] in Hin.
      rewrite map_map in Hin. cbn [fst] in Hin. rewrite map_id in Hin.
      apply in_map_iff. exists (fst r). split; [|assumption].
      rewrite (row_at_present csv r Hnd Hr). now destruct r.
Qed.

Lemma load_data_rows_witness :
  exists energy,
    load_data table_gap = Ok energy
    /\ (forall r, In r (rows energy) ->
          (In (fst r) (index table_gap) -> In r (rows table_gap))
          /\ (~ In (fst r) (index table_gap) ->
              snd r = repeat NaN (List.length (columns energy))))
    /\ (forall r, In r (rows table_gap) -> In (fst r) (index energy) ->
          In r (rows energy)).
Proof.
  eexists. split; [vm_compute; reflexivity|].
  apply load_data_rows. vm_compute. reflexivity.
Defined.

Lemma gapless_min_max ts t :
  gapless Hour (t :: ts) = true ->
  fold_left Z.min ts t = t
  /\ fold_left Z.max ts t = t + Z.of_nat (List.length ts) * Hour.
Proof.
  intros Hg. apply gapless_grid in Hg. simpl hd in Hg.
  change (List.length (t :: ts)) with (S (List.length ts)) in Hg.
  destruct (fold_min_spec ts t) as [Hmin Hle].
  destruct (fold_max_spec ts t) as [Hmax Hge].
  assert (HH : Hour = 3600) by reflexivity.
  split.
  - apply Z.le_antisymm; [apply Hle; now left|].
    rewrite Hg in Hmin. apply grid_lower in Hmin; [assumption | reflexivity].
  - apply Z.le_antisymm.
    + rewrite Hg in Hmax. apply in_grid in Hmax.
      destruct Hmax as (i & Hi & E). rewrite E. nia.
    + apply Hge. rewrite Hg. apply in_grid.
      exists (List.length ts). split; [lia | reflexivity].
Qed.

(** X4.  A CSV without a missing hour comes back from [load_data] as it is. *)
Theorem load_data_keeps_gapless :
  forall energy_csv,
    rows energy_csv <> [] ->
    gapless Hour (index energy_csv) = true ->
    load_data energy_csv = Ok energy_csv.
Proof.
  intros csv Hne Hg. unfold load_data, py_min, py_max.
  destruct (index csv) as [|t ts] eqn:Hidx.
  { exfalso. apply Hne. apply (map_nil_inv fst). exact Hidx. }
  cbn [bind].
  destruct (gapless_min_max ts t Hg) as [-> ->].
  unfold reindex_frame. rewrite Hidx.
  assert (E : date_range t (t + Z.of_nat (List.length ts) * Hour) Hour = t :: ts).
  { assert (HH : Hour = 3600) by reflexivity.
    rewrite date_range_grid by nia.
    replace (t + Z.of_nat (List.length ts) * Hour - t)
      with (Z.of_nat (List.length ts) * Hour) by lia.
    rewrite Z.div_mul by (rewrite HH; lia). rewrite Nat2Z.id.
    apply gapless_grid in Hg. simpl hd in Hg. symmetry. exact Hg. }
  rewrite E, index_equals_refl. reflexivity.
Qed.

Lemma load_data_keeps_gapless_witness :
  rows table10 <> []
  /\ gapless Hour (index table10) = true
  /\ load_data table10 = Ok table10.
Proof.
  split; [discriminate|]. split; [reflexivity|].
  apply load_data_keeps_gapless; [discriminate | reflexivity].
Defined.

(** *** The arrays of the windowing cells *)

Lemma position_app c pre rest :
  ~ In c pre -> position c (pre ++ c :: rest) = Some (List.length pre).
Proof.
  induction pre as [|a pre IH]; intros Hn; simpl.
  - now rewrite String.eqb_refl.
  - destruct (String.eqb_spec c a) as [->|_].
    + exfalso. apply Hn. now left.
    + rewrite IH; [reflexivity|]. intros H. apply Hn. now right.
Qed.

Lemma positions_suffix cs : forall pre,
  NoDup cs -> (forall c, In c cs -> ~ In c pre) ->
  positions cs (pre ++ cs) = Ok (seq (List.length pre) (List.length cs)).
Proof.
  induction cs as [|c cs IH]; intros pre Hnd Hpre; simpl; [reflexivity|].
  inversion Hnd as [|? ? Hc Hnd']; subst.
  rewrite position_app by (apply Hpre; now left).
  replace (pre ++ c :: cs) with ((pre ++ [c]) ++ cs) by now rewrite <- app_assoc.
  rewrite IH; [|assumption|].
  - rewrite length_app. simpl. now rewrite Nat.add_1_r.
  - intros d Hd Hin. apply in_app_or in Hin. destruct Hin as [Hin|[->|[]]].
    + apply (Hpre d); [now right | assumption].
    + contradiction.
Qed.

Lemma nth_suffix {A} (pre W : list A) d :
  map (fun j => nth j (pre ++ W) d) (seq (List.length pre) (List.length W)) = W.
Proof.
  rewrite seq_from, map_map.
  rewrite (map_ext _ (fun i => nth i W d)).
  - rewrite <- (map_nth_seq (fun x => x) W d). apply map_id.
  - intros i. rewrite app_nth2 by lia. f_equal. lia.
Qed.

Lemma range_snoc a b : a <= b -> range a (b + 1) = range a b ++ [b].
Proof.
  intros H. unfold range.
  replace (Z.to_nat (b + 1 - a)) with (Z.to_nat (b - a) + 1)%nat by lia.
  rewrite seq_app, map_app. simpl. do 2 f_equal. lia.
Qed.

Lemma lags_length T : List.length (lags T) = List.length (range (1 - T) 1).
Proof.
  unfold lags. rewrite length_map, !range_length. f_equal. lia.
Qed.

(** The frame a windowing cell leaves: one row per surviving anchor, holding
    the anchor's own value, the value one hour ahead and the window. *)
Lemma windowing_cell y_col x_col T df :
  y_col <> "load" ->
  (forall p, x_col p <> "load") ->
  (forall p, x_col p <> y_col) ->
  (forall p q, x_col p = x_col q -> p = q) ->
  1 <= T ->
  columns df = ["load"] ->
  well_formed df = true ->
  NoDup (index df) ->
  shifted_frame y_col x_col T df
  = Ok {| columns := "load" :: y_col :: map x_col (lags T);
          rows := map (fun a => (a, lookup (column df "load") a
                                      :: next_of df a :: window_of df T a))
                      (filter (survives df T) (index df)) |}.
Proof.
  intros Hy Hx Hxy Hinj HT Hc Hwf Hnd.
  rewrite (shifted_frame_windows y_col x_col Hy Hx Hxy Hinj df Hc Hwf Hnd).
  f_equal. unfold dropna, shifted_before_dropna. cbn [columns rows]. f_equal.
  rewrite filter_map_comm.
  unfold index. rewrite (filter_map_comm fst), map_map.
  assert (Hrow : forall r, In r (rows df) ->
            snd r = [lookup (column df "load") (fst r)]).
  { intros r Hr.
    assert (Hin : In (fst r, nth 0 (snd r) NaN) (column df "load")).
    { unfold column, getitem. rewrite Hc. cbn [position String.eqb].
      simpl. apply in_map_iff. exists r. auto. }
    assert (Hndc : NoDup (map fst (column df "load"))).
    { rewrite column_index; [assumption|]. unfold has_column. now rewrite Hc. }
    rewrite (lookup_In _ _ _ Hndc Hin).
    unfold well_formed in Hwf. rewrite forallb_forall in Hwf.
    specialize (Hwf r Hr). rewrite Hc in Hwf. apply Nat.eqb_eq in Hwf.
    destruct (snd r) as [|v [|w l]]; try discriminate. reflexivity. }
  assert (Hvals : forall t,
            map (fun k => lookup (shifted_copy df Hour k) t) (one_step_keys T)
            = next_of df t :: window_of df T t).
  { intros t. rewrite one_step_keys_eq. cbn [map]. f_equal.
    - unfold shifted_copy, next_of. cbn [offset feature].
      rewrite lookup_shift. f_equal; lia.
    - unfold window_of. rewrite map_map. apply map_ext. intros o.
      unfold shifted_copy. cbn [offset feature].
      rewrite lookup_shift. f_equal; lia. }
  assert (Hkeep : forall r, In r (rows df) ->
            complete (fst r, snd r ++ map (fun k => lookup (shifted_copy df Hour k) (fst r))
                                          (one_step_keys T))
            = survives df T (fst r)).
  { intros r Hr. unfold complete. cbn [snd]. rewrite (Hrow r Hr), Hvals.
    cbn [app forallb]. unfold survives.
    replace 2 with (1 + 1) by reflexivity. rewrite range_snoc by lia.
    rewrite forallb_app. cbn [forallb]. unfold window_of, next_of.
    rewrite forallb_map. unfold holds_value.
    assert (H0 : In 0 (range (1 - T) 1)) by (apply in_range; lia).
    replace (fst r + 1 * Hour) with (fst r + Hour) by lia.
    set (w := forallb _ (range (1 - T) 1)).
    destruct (is_nan (lookup (column df "load") (fst r))) eqn:E; cbn [negb andb].
    - symmetry. apply andb_false_iff. left. unfold w.
      apply not_true_is_false. intros Hall. rewrite forallb_forall in Hall.
      specialize (Hall 0 H0). replace (fst r + 0 * Hour) with (fst r) in Hall by lia.
      rewrite E in Hall. discriminate.
    - rewrite andb_true_r. apply andb_comm. }
  rewrite (filter_ext_in _ (fun r => survives df T (fst r)) _ Hkeep).
  apply map_ext_in. intros r Hr. apply filter_In in Hr. destruct Hr as [Hr _].
  cbn [fst]. f_equal. rewrite (Hrow r Hr), Hvals. reflexivity.
Qed.

(** Reading the arrays out of the frame of a windowing cell. *)
Lemma windowing_arrays (c0 y_col : string) (xs : list string)
  (f0 f1 : Z -> spec_float) (W : Z -> list spec_float) anchors :
  y_col <> c0 ->
  NoDup xs -> ~ In c0 xs -> ~ In y_col xs ->
  (forall a, List.length (W a) = List.length xs) ->
  let shifted := {| columns := c0 :: y_col :: xs;
                    rows := map (fun a => (a, f0 a :: f1 a :: W a)) anchors |} in
  getitem shifted y_col = Ok (map (fun a => (a, f1 a)) anchors)
  /\ getitems shifted [y_col]
     = Ok {| columns := [y_col]; rows := map (fun a => (a, [f1 a])) anchors |}
  /\ getitems shifted xs
     = Ok {| columns := xs; rows := map (fun a => (a, W a)) anchors |}.
Proof.
  intros Hy Hnd H0 H1 HW shifted.
  assert (Hpos : position y_col (columns shifted) = Some 1%nat).
  { apply (position_app y_col [c0]). intros [E|[]]. now apply Hy. }
  split; [|split].
  - unfold getitem. rewrite Hpos. f_equal. unfold shifted. cbn [rows].
    rewrite map_map. reflexivity.
  - unfold getitems. cbn [positions]. rewrite Hpos. cbn [bind]. f_equal.
    unfold shifted. cbn [rows]. rewrite map_map. reflexivity.
  - unfold getitems.
    change (columns shifted) with ([c0; y_col] ++ xs).
    rewrite positions_suffix.
    + cbn [bind]. f_equal. unfold shifted. cbn [rows]. f_equal.
      rewrite map_map. apply map_ext. intros a. cbn [fst snd]. f_equal.
      rewrite <- (HW a).
      exact (nth_suffix [f0 a; f1 a] (W a) NaN).
    + assumption.
    + intros c Hc [E|[E|[]]]; subst c; contradiction.
Qed.

Lemma lag_names_fresh (y_col : string) (x_col : Z -> string) (qs : list Z) :
  (forall p, x_col p <> "load") ->
  (forall p, x_col p <> y_col) ->
  (forall p q, x_col p = x_col q -> p = q) ->
  NoDup qs ->
  NoDup (map x_col qs) /\ ~ In "load" (map x_col qs) /\ ~ In y_col (map x_col qs).
Proof.
  intros Hx Hxy Hinj Hnd. split; [|split].
  - apply NoDup_map_injective; [intros; now apply Hinj | assumption].
  - intros H. apply in_map_iff in H. destruct H as (p & E & _). now apply Hx in E.
  - intros H. apply in_map_iff in H. destruct H as (p & E & _). now apply Hxy in E.
Qed.

Lemma window_of_length df T a :
  List.length (window_of df T a) = List.length (lags T).
Proof. unfold window_of. now rewrite length_map, lags_length. Qed.

Lemma survives_window df T a :
  1 <= T -> survives df T a = true ->
  is_nan (next_of df a) = false
  /\ forallb (fun v => negb (is_nan v)) (window_of df T a) = true.
Proof.
  intros HT Hs. unfold survives in Hs.
  replace 2 with (1 + 1) in Hs by reflexivity.
  rewrite range_snoc, forallb_app in Hs by lia.
  apply andb_true_iff in Hs. destruct Hs as [Hw Hn]. split.
  - cbn [forallb] in Hn. rewrite andb_true_r in Hn. unfold holds_value in Hn.
    replace (a + 1 * Hour) with (a + Hour) in Hn by lia.
    unfold next_of. now apply negb_true_iff.
  - unfold window_of. rewrite forallb_map. exact Hw.
Qed.

Lemma lags_as_loop T (x_col : Z -> string) :
  map (fun t => x_col (T - t)) (range 1 (T + 1)) = map x_col (lags T).
Proof. unfold lags. now rewrite map_map. Qed.

(** The three arrays a windowing cell yields, for the names it uses. *)
Lemma cell_arrays (y_col : string) (x_col : Z -> string) T df :
  y_col <> "load" ->
  (forall p, x_col p <> "load") ->
  (forall p, x_col p <> y_col) ->
  (forall p q, x_col p = x_col q -> p = q) ->
  1 <= T ->
  columns df = ["load"] ->
  well_formed df = true ->
  NoDup (index df) ->
  exists shifted,
    shifted_frame y_col x_col T df = Ok shifted
    /\ index shifted = filter (survives df T) (index df)
    /\ getitem shifted y_col
       = Ok (map (fun a => (a, next_of df a)) (index shifted))
    /\ getitems shifted (map (fun t => x_col (T - t)) (range 1 (T + 1)))
       = Ok {| columns := map x_col (lags T);
               rows := map (fun a => (a, window_of df T a)) (index shifted) |}.
Proof.
  intros Hy Hx Hxy Hinj HT Hc Hwf Hnd.
  eexists. split; [now apply windowing_cell|].
  set (anchors := filter (survives df T) (index df)).
  assert (Hidx : index {| columns := "load" :: y_col :: map x_col (lags T);
                          rows := map (fun a => (a, lookup (column df "load") a
                                                      :: next_of df a :: window_of df T a))
                                      anchors |} = anchors).
  { unfold index. cbn [rows]. rewrite map_map. cbn [fst]. apply map_id. }
  rewrite Hidx. split; [reflexivity|].
  destruct (lag_names_fresh y_col x_col (lags T) Hx Hxy Hinj (lags_NoDup T))
    as (H1 & H2 & H3).
  destruct (windowing_arrays "load" y_col (map x_col (lags T))
              (lookup (column df "load")) (next_of df) (window_of df T) anchors
              Hy H1 H2 H3) as (Ey & _ & EX).
  { intros a. now rewrite window_of_length, length_map. }
  split; [exact Ey|]. rewrite lags_as_loop. exact EX.
Qed.



(** X7.  The arrays of the test cell hold no NaN, every row of [X_test] has [T]
    values, and [y_test] has one entry per row of [X_test]. *)
Theorem test_arrays_shape :
  forall T df shifted X y,
    1 <= T ->
    columns df = ["load"] ->
    well_formed df = true ->
    NoDup (index df) ->
    test_shifted T df = Ok shifted ->
    X_test T shifted = Ok X ->
    y_test shifted = Ok y ->
    List.length X = List.length (rows shifted)
    /\ List.length y = List.length (rows shifted)
    /\ (forall row, In row X ->
          List.length row = Z.to_nat T
          /\ forallb (fun v => negb (is_nan v)) row = true)
    /\ forallb (fun v => negb (is_nan v)) y = true.
Proof.
  intros T df shifted X y HT Hc Hwf Hnd Es EX Ey.
  destruct (cell_arrays "y_t+1" load_t T df y_t1_not_load load_t_not_load
              load_t_not_y_t1 load_t_injective HT Hc Hwf Hnd)
    as (shifted' & Es' & Ei & Ey' & EX').
  unfold test_shifted in Es. rewrite Es' in Es. injection Es as ->.
  unfold X_test in EX. rewrite EX' in EX. injection EX as <-.
  unfold y_test in Ey. rewrite Ey' in Ey. injection Ey as <-.
  unfold as_matrix. cbn [rows]. rewrite !map_map, !length_map.
  unfold index. rewrite length_map.
  split; [reflexivity|]. split; [reflexivity|].
  fold (index shifted). rewrite Ei. split.
  - intros row Hrow. cbn [snd] in Hrow. apply in_map_iff in Hrow.
    destruct Hrow as (a & <- & Ha). apply filter_In in Ha.
    destruct Ha as [_ Ha]. split.
    + rewrite window_of_length. unfold lags.
      rewrite length_map, range_length. f_equal. lia.
    + now apply survives_window.
  - cbn [snd]. apply forallb_forall. intros v Hv. apply in_map_iff in Hv.
    destruct Hv as (a & <- & Ha). apply filter_In in Ha.
    destruct Ha as [_ Ha]. apply negb_true_iff.
    now apply (survives_window df T a HT).
Qed.

Lemma test_arrays_shape_witness :
  exists shifted X y,
    test_shifted 3 table10 = Ok shifted
    /\ X_test 3 shifted = Ok X
    /\ y_test shifted = Ok y
    /\ List.length X = 7%nat
    /\ List.length X = List.length (rows shifted)
    /\ List.length y = List.length (rows shifted)
    /\ (forall row, In row X ->
          List.length row = Z.to_nat 3
          /\ forallb (fun v => negb (is_nan v)) row = true)
    /\ forallb (fun v => negb (is_nan v)) y = true.
Proof.
  do 3 eexists.
  split; [vm_compute; reflexivity|].
  split; [vm_compute; reflexivity|].
  split; [vm_compute; reflexivity|].
  split; [reflexivity|].
  apply (test_arrays_shape 3 table10).
  - lia.
  - reflexivity.
  - reflexivity.
  - apply strictly_increasing_NoDup. reflexivity.
  - vm_compute. reflexivity.
  - vm_compute. reflexivity.
  - vm_compute. reflexivity.
Defined.



(** *** The training cells *)

Lemma str_not_load p : str p <> "load".
Proof. apply str_not_name. reflexivity. Qed.

Lemma str_not_y_t1 p : str p <> "y_t+1".
Proof. apply str_not_name. reflexivity. Qed.

(** The frame of the training cells before its columns are renamed. *)
Lemma train_loop T df :
  columns df = ["load"] ->
  well_formed df = true ->
  NoDup (index df) ->
  for_each (range 1 (T + 1)) (fun t => shift_load (str (T - t)) (T - t))
    (shifted_after "y_t+1" str df [])
  = Ok (shifted_after "y_t+1" str df (lags T)).
Proof.
  intros Hc Hwf Hnd.
  change (for_each (range 1 (T + 1))
            (fun t => shift_load (str (T - t)) (T - t))
            (shifted_after "y_t+1" str df []))
    with (for_each (range 1 (T + 1))
            (fun t => (fun p => shift_load (str p) p) (T - t))
            (shifted_after "y_t+1" str df [])).
  rewrite <- (for_each_map (fun t => T - t) (fun p => shift_load (str p) p)).
  fold (lags T).
  now rewrite (loop_shifts "y_t+1" str str_not_load str_not_y_t1 str_injective
                 df Hc Hwf Hnd (lags T) [] (lags_NoDup T)).
Qed.

Lemma train_shifted_renamed_eq T df :
  columns df = ["load"] ->
  well_formed df = true ->
  NoDup (index df) ->
  train_shifted_renamed T df
  = (shifted <- set_columns (shifted_after "y_t+1" str df (lags T))
                  ("load_original" :: y_col :: X_cols) ;;
     Ok (dropna shifted)).
Proof.
  intros Hc Hwf Hnd. unfold train_shifted_renamed.
  rewrite (first_shift "y_t+1" str y_t1_not_load df Hc Hnd). cbn [bind].
  rewrite (train_loop T df Hc Hwf Hnd). reflexivity.
Qed.

(** The training cells raise unless [T = 6]; then they leave the rows of
    the windowing under the new names. *)
Lemma train_renamed_cases T df :
  columns df = ["load"] ->
  well_formed df = true ->
  NoDup (index df) ->
  (T <> 6 -> train_shifted_renamed T df = Raise (ValueError "Length mismatch"))
  /\ (T = 6 ->
      train_shifted_renamed T df
      = Ok {| columns := "load_original" :: y_col :: X_cols;
              rows := map (fun a => (a, lookup (column df "load") a
                                          :: next_of df a :: window_of df 6 a))
                          (filter (survives df 6) (index df)) |}).
Proof.
  intros Hc Hwf Hnd.
  rewrite (train_shifted_renamed_eq T df Hc Hwf Hnd).
  unfold set_columns.
  assert (Hcols : List.length (columns (shifted_after "y_t+1" str df (lags T)))
                  = (2 + Z.to_nat T)%nat).
  { unfold shifted_after. cbn [columns]. rewrite length_app, length_map.
    unfold lags. rewrite length_map, range_length. simpl List.length.
    do 2 f_equal. lia. }
  rewrite Hcols. split.
  - intros HT.
    destruct (Nat.eqb_spec (List.length ("load_original" :: y_col :: X_cols))
                (2 + Z.to_nat T)) as [E|E]; [|reflexivity].
    exfalso. apply HT. simpl in E. lia.
  - intros ->.
    change (List.length ("load_original" :: y_col :: X_cols) =? 2 + Z.to_nat 6)%nat
      with true.
    cbn [bind].
    assert (H1 : 1 <= 6) by lia.
    pose proof (windowing_cell "y_t+1" str 6 df y_t1_not_load str_not_load
                  str_not_y_t1 str_injective H1 Hc Hwf Hnd) as Hcell.
    rewrite (shifted_frame_windows "y_t+1" str y_t1_not_load str_not_load
               str_not_y_t1 str_injective df Hc Hwf Hnd 6) in Hcell.
    rewrite <- frame_lags in Hcell.
    assert (Hrows := f_equal (fun r => match r with
                                       | Ok d => rows d
                                       | Raise _ => []
                                       end) Hcell).
    cbv beta iota in Hrows. unfold dropna in Hrows. cbn [rows] in Hrows.
    unfold dropna. cbn [rows columns]. now rewrite Hrows.
Qed.



(** *** Splits and windows *)

Lemma NoDup_filter_keep {A} (p : A -> bool) (l : list A) :
  NoDup l -> NoDup (filter p l).
Proof.
  induction 1 as [|x l Hx Hnd IH]; simpl; [constructor|].
  destruct (p x); [|assumption].
  constructor; [|assumption]. intros H. apply filter_In in H. tauto.
Qed.

(** A split: its only column is [load], and its rows are the rows of
    [energy] that pass the mask. *)
Lemma split_index p energy df :
  has_column energy "load" = true ->
  NoDup (index energy) ->
  getitems (filter_index p energy) ["load"] = Ok df ->
  columns df = ["load"]
  /\ well_formed df = true
  /\ NoDup (index df)
  /\ index df = filter p (index energy).
Proof.
  intros Hcol Hnd Hdf.
  destruct (split_frame p energy Hcol) as (j & _ & E).
  rewrite E in Hdf. injection Hdf as <-.
  assert (Hidx : index {| columns := ["load"];
                          rows := map (fun r => (fst r, [nth j (snd r) NaN]))
                                      (filter (fun r => p (fst r)) (rows energy)) |}
                 = filter p (index energy)).
  { unfold index. cbn [rows]. rewrite !map_map. cbn [fst].
    symmetry. exact (filter_map_comm fst p (rows energy)). }
  split; [reflexivity|]. split; [|split].
  - unfold well_formed. cbn [rows columns].
    rewrite !forallb_map. apply forallb_forall. intros; reflexivity.
  - rewrite Hidx. now apply NoDup_filter_keep.
  - exact Hidx.
Qed.

(** Scaling keeps the columns and the index. *)
Lemma transform_frame scaler df scaled :
  transform scaler df = Ok scaled ->
  columns scaled = columns df
  /\ index scaled = index df
  /\ (well_formed df = true -> well_formed scaled = true).
Proof.
  unfold transform. destruct (check_array (as_matrix df)); [|discriminate].
  cbn [bind]. intros [= <-]. cbn [columns]. split; [reflexivity|]. split.
  - unfold index. cbn [rows]. rewrite map_map. reflexivity.
  - unfold well_formed. cbn [rows columns]. rewrite forallb_map.
    intros H. rewrite forallb_forall in H. apply forallb_forall.
    intros r Hr. cbn [snd]. rewrite length_map. now apply H.
Qed.

Lemma to_timestamp_ok date :
  Timestamp_min <= date <= Timestamp_max -> to_timestamp date = Ok date.
Proof.
  intros H. unfold to_timestamp.
  replace (Timestamp_min <=? date) with true by (symmetry; apply Z.leb_le; lia).
  replace (date <=? Timestamp_max) with true by (symmetry; apply Z.leb_le; lia).
  reflexivity.
Qed.

Lemma to_timestamp_inv date t : to_timestamp date = Ok t -> t = date.
Proof.
  unfold to_timestamp. destruct (_ && _); [|discriminate]. now intros [= <-].
Qed.

Lemma look_back_ok start_dt T :
  Timestamp_min <= start_dt - (T - 1) * Hour ->
  1 <= T ->
  start_dt <= Timestamp_max ->
  look_back start_dt T = Ok (start_dt - (T - 1) * Hour).
Proof.
  intros Hlo HT Hhi. unfold look_back, strptime.
  assert (HH : Hour = 3600) by reflexivity.
  assert (datetime_min <= Timestamp_min) by (vm_compute; discriminate).
  assert (Timestamp_max <= datetime_max) by (vm_compute; discriminate).
  replace (datetime_min <=? start_dt) with true by (symmetry; apply Z.leb_le; nia).
  replace (start_dt <=? datetime_max) with true by (symmetry; apply Z.leb_le; lia).
  cbn [andb bind].
  replace (datetime_min <=? start_dt - (T - 1) * Hour) with true
    by (symmetry; apply Z.leb_le; lia).
  replace (start_dt - (T - 1) * Hour <=? datetime_max) with true
    by (symmetry; apply Z.leb_le; nia).
  reflexivity.
Qed.

Lemma look_back_inv start_dt T look_back_dt :
  look_back start_dt T = Ok look_back_dt ->
  look_back_dt = start_dt - (T - 1) * Hour.
Proof.
  unfold look_back, strptime. destruct (_ && _); [|discriminate].
  cbn [bind]. destruct (_ && _); [|discriminate]. now intros [= <-].
Qed.

Lemma train_inv energy valid_start_dt trn :
  train energy valid_start_dt = Ok trn ->
  getitems (filter_index (fun t => t <? valid_start_dt) energy) ["load"] = Ok trn.
Proof.
  unfold train. destruct (to_timestamp valid_start_dt) as [v|] eqn:E;
    [|discriminate].
  apply to_timestamp_inv in E. subst v. exact (fun H => H).
Qed.

Lemma valid_inv energy valid_start_dt test_start_dt T vld :
  valid energy valid_start_dt test_start_dt T = Ok vld ->
  getitems
    (filter_index (fun t => (valid_start_dt - (T - 1) * Hour <=? t)
                            && (t <? test_start_dt)) energy) ["load"]
  = Ok vld.
Proof.
  unfold valid. destruct (look_back valid_start_dt T) as [lb|] eqn:E;
    [|discriminate].
  apply look_back_inv in E. subst lb. cbn [bind].
  destruct (to_timestamp (valid_start_dt - (T - 1) * Hour)) as [lb|] eqn:E;
    [|discriminate].
  apply to_timestamp_inv in E. subst lb. cbn [bind].
  destruct (to_timestamp test_start_dt) as [ts|] eqn:E; [|discriminate].
  apply to_timestamp_inv in E. subst ts. exact (fun H => H).
Qed.

Lemma test_inv energy test_start_dt T tst :
  test energy test_start_dt T = Ok tst ->
  getitems (filter_index (fun t => test_start_dt <=? t) energy) ["load"] = Ok tst.
Proof.
  unfold test. destruct (look_back test_start_dt T) as [lb|]; [|discriminate].
  cbn [bind].
  destruct (to_timestamp test_start_dt) as [ts|] eqn:E; [|discriminate].
  apply to_timestamp_inv in E. subst ts. exact (fun H => H).
Qed.

Lemma train_ok energy valid_start_dt :
  Timestamp_min <= valid_start_dt <= Timestamp_max ->
  train energy valid_start_dt
  = getitems (filter_index (fun t => t <? valid_start_dt) energy) ["load"].
Proof. intros H. unfold train. now rewrite to_timestamp_ok. Qed.

Lemma valid_ok energy valid_start_dt test_start_dt T :
  1 <= T ->
  Timestamp_min <= valid_start_dt - (T - 1) * Hour ->
  valid_start_dt <= test_start_dt <= Timestamp_max ->
  valid energy valid_start_dt test_start_dt T
  = getitems
      (filter_index (fun t => (valid_start_dt - (T - 1) * Hour <=? t)
                              && (t <? test_start_dt)) energy) ["load"].
Proof.
  intros HT Hlo Hhi. unfold valid.
  assert (HH : Hour = 3600) by reflexivity.
  rewrite look_back_ok by lia. cbn [bind].
  rewrite to_timestamp_ok by nia. cbn [bind].
  rewrite to_timestamp_ok by nia. reflexivity.
Qed.

Lemma test_ok energy test_start_dt T :
  1 <= T ->
  Timestamp_min <= test_start_dt - (T - 1) * Hour ->
  test_start_dt <= Timestamp_max ->
  test energy test_start_dt T
  = getitems (filter_index (fun t => test_start_dt <=? t) energy) ["load"].
Proof.
  intros HT Hlo Hhi. unfold test.
  assert (HH : Hour = 3600) by reflexivity.
  rewrite look_back_ok by lia. cbn [bind].
  rewrite to_timestamp_ok by nia. reflexivity.
Qed.

Lemma survivor_offsets df T a o :
  columns df = ["load"] ->
  In a (filter (survives df T) (index df)) ->
  1 - T <= o <= 1 ->
  In (a + o * Hour) (index df).
Proof.
  intros Hc Ha Ho. apply filter_In in Ha. destruct Ha as [_ Hs].
  unfold survives in Hs. rewrite forallb_forall in Hs.
  apply (holds_value_in_index df "load").
  - unfold has_column. now rewrite Hc.
  - apply Hs, in_range. lia.
Qed.

(** The hours a window reaches lie in the split it is cut from, whatever
    the scaler has made of the values. *)
Lemma scaled_window_in_split p scaler energy df scaled T a o :
  has_column energy "load" = true ->
  NoDup (index energy) ->
  getitems (filter_index p energy) ["load"] = Ok df ->
  transform scaler df = Ok scaled ->
  In a (filter (survives scaled T) (index scaled)) ->
  1 - T <= o <= 1 ->
  p (a + o * Hour) = true.
Proof.
  intros Hcol Hnd Hdf Hsc Ha Ho.
  destruct (split_index p energy df Hcol Hnd Hdf) as (Hc & _ & _ & Hi).
  destruct (transform_frame scaler df scaled Hsc) as (Hc' & Hi' & _).
  rewrite Hc in Hc'.
  pose proof (survivor_offsets scaled T a o Hc' Ha Ho) as Hin.
  rewrite Hi', Hi in Hin. apply filter_In in Hin. tauto.
Qed.

Lemma scaled_split_frame p scaler energy df scaled :
  has_column energy "load" = true ->
  NoDup (index energy) ->
  getitems (filter_index p energy) ["load"] = Ok df ->
  transform scaler df = Ok scaled ->
  columns scaled = ["load"] /\ well_formed scaled = true /\ NoDup (index scaled).
Proof.
  intros Hcol Hnd Hdf Hsc.
  destruct (split_index p energy df Hcol Hnd Hdf) as (Hc & Hwf & Hn & _).
  destruct (transform_frame scaler df scaled Hsc) as (Hc' & Hi' & Hwf').
  rewrite Hc in Hc'. rewrite Hi'. auto.
Qed.

(** X13.  No window crosses into a later period than its own.  Whatever the
    scaler and whatever the table, wherever the cells of a period run
    through (split, scaling, windowing): the target of every training
    sample lies before [valid_start_dt]; every validation sample is anchored
    at or after [valid_start_dt] and its target lies before
    [test_start_dt]; every test sample is anchored [T-1] hours or more after
    [test_start_dt], so that its whole window lies in the test period. *)
Theorem windows_stay_in_their_period :
  forall energy scaler T valid_start_dt test_start_dt,
    1 <= T ->
    has_column energy "load" = true ->
    strictly_increasing (index energy) = true ->
    (forall trn scaled shifted,
        train energy valid_start_dt = Ok trn ->
        transform scaler trn = Ok scaled ->
        train_shifted_renamed T scaled = Ok shifted ->
        forall a, In a (index shifted) -> a + Hour < valid_start_dt)
    /\ (forall vld scaled shifted,
          valid energy valid_start_dt test_start_dt T = Ok vld ->
          transform scaler vld = Ok scaled ->
          valid_shifted T scaled = Ok shifted ->
          forall a, In a (index shifted) ->
            valid_start_dt <= a /\ a + Hour < test_start_dt)
    /\ (forall tst scaled shifted,
          test energy test_start_dt T = Ok tst ->
          transform scaler tst = Ok scaled ->
          test_shifted T scaled = Ok shifted ->
          forall a, In a (index shifted) ->
            test_start_dt <= a - (T - 1) * Hour).
Proof.
  intros energy scaler T vs ts HT Hcol Hinc.
  pose proof (strictly_increasing_NoDup _ Hinc) as Hnd.
  split; [|split].
  - intros trn scaled shifted Etrn Esc Esh a Ha.
    apply train_inv in Etrn.
    destruct (scaled_split_frame _ scaler energy trn scaled Hcol Hnd Etrn Esc)
      as (Hc & Hwf & Hn).
    destruct (train_renamed_cases T scaled Hc Hwf Hn) as [Hother Hsix].
    destruct (Z.eq_dec T 6) as [E|E];
      [|rewrite (Hother E) in Esh; discriminate].
    rewrite (Hsix E) in Esh. injection Esh as <-. subst T.
    unfold index in Ha. cbn [rows] in Ha. rewrite map_map in Ha.
    cbn [fst] in Ha. rewrite map_id in Ha.
    pose proof (scaled_window_in_split _ scaler energy trn scaled 6 a 1
                  Hcol Hnd Etrn Esc Ha ltac:(lia)) as H1.
    apply Z.ltb_lt in H1. lia.
  - intros vld scaled shifted Evld Esc Esh a Ha.
    apply valid_inv in Evld.
    destruct (scaled_split_frame _ scaler energy vld scaled Hcol Hnd Evld Esc)
      as (Hc & Hwf & Hn).
    destruct (cell_arrays "y+1" load_t T scaled y1_not_load load_t_not_load
                load_t_not_y1 load_t_injective HT Hc Hwf Hn)
      as (s & Es & Ei & _).
    unfold valid_shifted in Esh. rewrite Es in Esh. injection Esh as <-.
    rewrite Ei in Ha.
    pose proof (scaled_window_in_split _ scaler energy vld scaled T a 1
                  Hcol Hnd Evld Esc Ha ltac:(lia)) as H1.
    pose proof (scaled_window_in_split _ scaler energy vld scaled T a (1 - T)
                  Hcol Hnd Evld Esc Ha ltac:(lia)) as H2.
    cbv beta in H1, H2. apply andb_true_iff in H1, H2.
    destruct H1 as [_ H1], H2 as [H2 _].
    apply Z.ltb_lt in H1. apply Z.leb_le in H2. lia.
  - intros tst scaled shifted Etst Esc Esh a Ha.
    apply test_inv in Etst.
    destruct (scaled_split_frame _ scaler energy tst scaled Hcol Hnd Etst Esc)
      as (Hc & Hwf & Hn).
    destruct (cell_arrays "y_t+1" load_t T scaled y_t1_not_load load_t_not_load
                load_t_not_y_t1 load_t_injective HT Hc Hwf Hn)
      as (s & Es & Ei & _).
    unfold test_shifted in Esh. rewrite Es in Esh. injection Esh as <-.
    rewrite Ei in Ha.
    pose proof (scaled_window_in_split _ scaler energy tst scaled T a (1 - T)
                  Hcol Hnd Etst Esc Ha ltac:(lia)) as H2.
    cbv beta in H2. apply Z.leb_le in H2. lia.
Qed.

Lemma windows_stay_in_their_period_witness :
  (exists trn scaled shifted,
      train table30 (10 * Hour) = Ok trn
      /\ transform halve trn = Ok scaled
      /\ train_shifted_renamed 6 scaled = Ok shifted
      /\ index shifted = map (fun i => i * Hour) (range 5 9)
      /\ forall a, In a (index shifted) -> a + Hour < 10 * Hour)
  /\ (exists vld scaled shifted,
        valid table30 (10 * Hour) (20 * Hour) 6 = Ok vld
        /\ transform halve vld = Ok scaled
        /\ valid_shifted 6 scaled = Ok shifted
        /\ index shifted = map (fun i => i * Hour) (range 10 19)
        /\ forall a, In a (index shifted) ->
             10 * Hour <= a /\ a + Hour < 20 * Hour)
  /\ (exists tst scaled shifted,
        test table30 (20 * Hour) 6 = Ok tst
        /\ transform halve tst = Ok scaled
        /\ test_shifted 6 scaled = Ok shifted
        /\ index shifted = map (fun i => i * Hour) (range 25 29)
        /\ forall a, In a (index shifted) -> 20 * Hour <= a - (6 - 1) * Hour).
Proof.
  pose (ok := fun r : result DataFrame =>
                match r with
                | Ok d => d
                | Raise _ => {| columns := []; rows := [] |}
                end).
  destruct (windows_stay_in_their_period table30 halve 6 (10 * Hour) (20 * Hour))
    as (Htrn & Hvld & Htst).
  - lia.
  - reflexivity.
  - reflexivity.
  - split; [|split].
    + pose (d1 := ok (train table30 (10 * Hour))).
      pose (d2 := ok (transform halve d1)).
      pose (d3 := ok (train_shifted_renamed 6 d2)).
      assert (E1 : train table30 (10 * Hour) = Ok d1) by (vm_compute; reflexivity).
      assert (E2 : transform halve d1 = Ok d2) by (vm_compute; reflexivity).
      assert (E3 : train_shifted_renamed 6 d2 = Ok d3) by (vm_compute; reflexivity).
      exists d1, d2, d3. split; [exact E1|]. split; [exact E2|].
      split; [exact E3|]. split; [vm_compute; reflexivity|].
      exact (Htrn d1 d2 d3 E1 E2 E3).
    + pose (d1 := ok (valid table30 (10 * Hour) (20 * Hour) 6)).
      pose (d2 := ok (transform halve d1)).
      pose (d3 := ok (valid_shifted 6 d2)).
      assert (E1 : valid table30 (10 * Hour) (20 * Hour) 6 = Ok d1) by (vm_compute; reflexivity).
      assert (E2 : transform halve d1 = Ok d2) by (vm_compute; reflexivity).
      assert (E3 : valid_shifted 6 d2 = Ok d3) by (vm_compute; reflexivity).
      exists d1, d2, d3. split; [exact E1|]. split; [exact E2|].
      split; [exact E3|]. split; [vm_compute; reflexivity|].
      exact (Hvld d1 d2 d3 E1 E2 E3).
    + pose (d1 := ok (test table30 (20 * Hour) 6)).
      pose (d2 := ok (transform halve d1)).
      pose (d3 := ok (test_shifted 6 d2)).
      assert (E1 : test table30 (20 * Hour) 6 = Ok d1) by (vm_compute; reflexivity).
      assert (E2 : transform halve d1 = Ok d2) by (vm_compute; reflexivity).
      assert (E3 : test_shifted 6 d2 = Ok d3) by (vm_compute; reflexivity).
      exists d1, d2, d3. split; [exact E1|]. split; [exact E2|].
      split; [exact E3|]. split; [vm_compute; reflexivity|].
      exact (Htst d1 d2 d3 E1 E2 E3).
Defined.

(** *** The test split has no lookback (C10) *)




(** *** Rows of the evaluation frame *)

Lemma nth_error_blocks {A B} (k : A -> list B) (l : list A) (n i j : nat) d :
  (forall x, List.length (k x) = n) ->
  (i < n)%nat -> (j < List.length l)%nat ->
  nth_error (flat_map k l) (j * n + i) = nth_error (k (nth j l d)) i.
Proof.
  intros Hk Hi. revert j. induction l as [|x l IH]; intros j Hj; simpl in *.
  - lia.
  - destruct j as [|j].
    + simpl. rewrite nth_error_app1; [reflexivity | rewrite Hk; lia].
    + rewrite nth_error_app2 by (rewrite Hk; simpl; lia).
      rewrite Hk. replace (S j * n + i - n)%nat with (j * n + i)%nat by (simpl; lia).
      apply IH. lia.
Qed.

Lemma horizon_major_length idx predictions y steps f :
  List.length (horizon_major idx predictions y steps f)
  = (steps * List.length idx)%nat.
Proof.
  unfold horizon_major.
  rewrite (flat_map_length_const _ _ (List.length idx)).
  - now rewrite length_seq.
  - intros j. now rewrite length_map, length_seq.
Qed.

Lemma horizon_major_nth idx predictions y steps f i j :
  (i < List.length idx)%nat -> (j < steps)%nat ->
  nth_error (horizon_major idx predictions y steps f) (j * List.length idx + i)
  = Some (mkEvalRow (Some (nth i idx 0))
                    (Some (String.append "t+" (str (1 + Z.of_nat j))))
                    (f (nth j (nth i predictions []) NaN))
                    (f (nth j (nth i y []) NaN))).
Proof.
  intros Hi Hj. unfold horizon_major.
  rewrite (nth_error_blocks _ _ (List.length idx) i j 0%nat).
  - rewrite seq_nth by assumption. cbn [Nat.add].
    rewrite nth_error_map, nth_error_nth' with (d := 0%nat)
      by now rewrite length_seq.
    rewrite seq_nth by assumption. reflexivity.
  - intros x. now rewrite length_map, length_seq.
  - assumption.
  - now rewrite length_seq.
Qed.

Lemma flat_map_nil {A B} (l : list A) : flat_map (fun _ : A => @nil B) l = [].
Proof. induction l as [|x l IH]; simpl; [reflexivity | exact IH]. Qed.

Lemma nth_not_inf (M : list (list float)) i j :
  existsb (existsb is_inf) M = false -> is_inf (nth j (nth i M []) NaN) = false.
Proof.
  intros H.
  destruct (nth_in_or_default i M []) as [Hr|Hr].
  - destruct (nth_in_or_default j (nth i M []) NaN) as [Hx|Hx].
    + destruct (is_inf (nth j (nth i M []) NaN)) eqn:E; [|reflexivity].
      assert (Ht : existsb (existsb is_inf) M = true).
      { apply existsb_exists. eexists. split; [exact Hr|].
        apply existsb_exists. eexists. split; [exact Hx | exact E]. }
      congruence.
    + now rewrite Hx.
  - rewrite Hr. now destruct j.
Qed.

Lemma horizon_major_In idx predictions y steps f i j :
  (i < List.length idx)%nat -> (j < steps)%nat ->
  In (mkEvalRow (Some (nth i idx 0))
                (Some (String.append "t+" (str (1 + Z.of_nat j))))
                (f (nth j (nth i predictions []) NaN))
                (f (nth j (nth i y []) NaN)))
     (horizon_major idx predictions y steps f).
Proof.
  intros Hi Hj. unfold horizon_major. apply in_flat_map. exists j.
  split; [apply in_seq; lia|]. apply in_map_iff. exists i.
  split; [reflexivity | apply in_seq; lia].
Qed.

(** The values the scaler is handed are those of the two arrays. *)
Lemma long_frame_infinite idx predictions y steps :
  List.length predictions = List.length idx ->
  List.length y = List.length idx ->
  (forall r, In r predictions -> List.length r = steps) ->
  (forall r, In r y -> List.length r = steps) ->
  existsb (existsb is_inf)
    (map (fun r => [prediction r; actual r])
         (horizon_major idx predictions y steps (fun x => x)))
  = existsb (existsb is_inf) (predictions ++ y).
Proof.
  intros Hpi Hyi Hpw Hyw.
  destruct (existsb (existsb is_inf) (predictions ++ y)) eqn:E.
  - apply existsb_exists in E. destruct E as (r & Hr & Hx).
    apply existsb_exists in Hx. destruct Hx as (x & Hx & Hinf).
    apply in_app_or in Hr.
    assert (Hij : exists i j, (i < List.length idx)%nat /\ (j < steps)%nat
                   /\ (nth j (nth i predictions []) NaN = x
                       \/ nth j (nth i y []) NaN = x)).
    { destruct Hr as [Hr|Hr].
      - destruct (In_nth _ _ [] Hr) as (i & Hi & Ei).
        destruct (In_nth _ _ NaN Hx) as (j & Hj & Ej).
        exists i, j. rewrite (Hpw r Hr) in Hj. rewrite Ei.
        split; [lia|]. split; [exact Hj | now left].
      - destruct (In_nth _ _ [] Hr) as (i & Hi & Ei).
        destruct (In_nth _ _ NaN Hx) as (j & Hj & Ej).
        exists i, j. rewrite (Hyw r Hr) in Hj. rewrite Ei.
        split; [lia|]. split; [exact Hj | now right]. }
    destruct Hij as (i & j & Hi & Hj & Hv).
    apply existsb_exists. eexists. split.
    + apply in_map. exact (horizon_major_In idx predictions y steps _ i j Hi Hj).
    + cbn [prediction actual existsb].
      destruct Hv as [-> | ->]; rewrite Hinf; [reflexivity | apply orb_true_r].
  - rewrite existsb_app in E. apply orb_false_iff in E. destruct E as [Ep Ey].
    destruct (existsb _ (map _ _)) eqn:E'; [|reflexivity].
    apply existsb_exists in E'. destruct E' as (v & Hv & Hinf).
    apply in_map_iff in Hv. destruct Hv as (r & <- & Hr).
    unfold horizon_major in Hr. apply in_flat_map in Hr.
    destruct Hr as (j & _ & Hr). apply in_map_iff in Hr.
    destruct Hr as (i & <- & _).
    cbn [prediction actual existsb] in Hinf.
    now rewrite (nth_not_inf _ i j Ep), (nth_not_inf _ i j Ey) in Hinf.
Qed.

Lemma horizon_major_scaled idx predictions y steps (f : float -> float) :
  map (fun r => mkEvalRow (timestamp r) (h r) (f (prediction r)) (f (actual r)))
      (horizon_major idx predictions y steps (fun x => x))
  = horizon_major idx predictions y steps f.
Proof.
  unfold horizon_major. rewrite map_flat_map. apply flat_map_ext. intros j.
  now rewrite map_map.
Qed.

(** The evaluation cell with the checks of the scaler, case by case. *)
Lemma eval_df_scaled_cases :
  forall predictions test_shifted_index y_test HORIZON scaler,
    1 <= HORIZON ->
    List.length predictions = List.length test_shifted_index ->
    List.length y_test = List.length test_shifted_index ->
    (forall r, In r predictions -> List.length r = Z.to_nat HORIZON) ->
    (forall r, In r y_test -> List.length r = Z.to_nat HORIZON) ->
    eval_df_scaled predictions test_shifted_index y_test HORIZON scaler
    = if existsb (existsb is_inf) (predictions ++ y_test)
      then Raise (ValueError "Input contains infinity or a value too large for dtype('float64').")
      else match test_shifted_index with
           | [] => Raise (ValueError "Found array with 0 sample(s) while a minimum of 1 is required.")
           | _ :: _ =>
               Ok (horizon_major test_shifted_index predictions y_test
                     (Z.to_nat HORIZON) scaler)
           end.
Proof.
  intros preds idx y H f HH Hpi Hyi Hpw Hyw. unfold eval_df_scaled.
  destruct idx as [|a idx'] eqn:Eidx.
  - destruct preds; [|discriminate]. destruct y; [|discriminate].
    unfold eval_df, wide_frame. cbn [forallb bind assign_values map].
    unfold melt. cbn [map]. rewrite flat_map_nil.
    cbn [transpose_ravel hd List.length seq flat_map assign_values map bind].
    reflexivity.
  - rewrite <- Eidx in *.
    rewrite eval_df_horizon_major; try assumption.
    + cbn [bind]. unfold check_array.
      rewrite (long_frame_infinite idx preds y (Z.to_nat H) Hpi Hyi Hpw Hyw).
      destruct (existsb (existsb is_inf) (preds ++ y)); [reflexivity|].
      destruct (map (fun r => [prediction r; actual r])
                    (horizon_major idx preds y (Z.to_nat H) (fun x => x)))
        as [|v vs] eqn:Em.
      { exfalso. apply (f_equal (@List.length _)) in Em.
        rewrite length_map, horizon_major_length, Eidx in Em. simpl in Em.
        assert (0 < Z.to_nat H)%nat by lia. nia. }
      cbn [bind].
      rewrite horizon_major_scaled, Eidx. reflexivity.
    + intros ->. rewrite Eidx in Hpi. discriminate.
Qed.

(** X14.  Where a forecast sits in the evaluation frame.  With one row of
    predictions and one of targets per anchor, each of the width [H] of the
    horizon: with [n >= 1] anchors and no infinite value among predictions
    and targets the frame has [H * n] rows, and the forecast of anchor [i]
    for step [j + 1] is row [j * n + i], which carries the anchor's
    timestamp, the label ["t+"(j+1)], the scaled-back prediction and the
    scaled-back target of that anchor and step.  With an infinite value
    among them, and with no anchor at all, the scaler raises [ValueError]. *)
Theorem eval_df_row_of_anchor_and_step :
  forall predictions test_shifted_index y_test HORIZON scaler,
    1 <= HORIZON ->
    List.length predictions = List.length test_shifted_index ->
    List.length y_test = List.length test_shifted_index ->
    (forall r, In r predictions -> List.length r = Z.to_nat HORIZON) ->
    (forall r, In r y_test -> List.length r = Z.to_nat HORIZON) ->
    (test_shifted_index = [] ->
     eval_df_scaled predictions test_shifted_index y_test HORIZON scaler
     = Raise (ValueError "Found array with 0 sample(s) while a minimum of 1 is required."))
    /\ (existsb (existsb is_inf) (predictions ++ y_test) = true ->
        eval_df_scaled predictions test_shifted_index y_test HORIZON scaler
        = Raise (ValueError "Input contains infinity or a value too large for dtype('float64')."))
    /\ (test_shifted_index <> [] ->
        existsb (existsb is_inf) (predictions ++ y_test) = false ->
        exists frame,
          eval_df_scaled predictions test_shifted_index y_test HORIZON scaler
          = Ok frame
          /\ List.length frame
             = (Z.to_nat HORIZON * List.length test_shifted_index)%nat
          /\ forall i j,
               (i < List.length test_shifted_index)%nat ->
               (j < Z.to_nat HORIZON)%nat ->
               nth_error frame (j * List.length test_shifted_index + i)
               = Some (mkEvalRow
                         (Some (nth i test_shifted_index 0))
                         (Some (String.append "t+" (str (1 + Z.of_nat j))))
                         (scaler (nth j (nth i predictions []) NaN))
                         (scaler (nth j (nth i y_test []) NaN)))).
Proof.
  intros preds idx y H f HH Hpi Hyi Hpw Hyw.
  rewrite (eval_df_scaled_cases preds idx y H f HH Hpi Hyi Hpw Hyw).
  split; [|split].
  - intros ->. destruct preds; [|discriminate]. destruct y; [|discriminate].
    reflexivity.
  - intros ->. reflexivity.
  - intros Hne ->. destruct idx as [|a idx'] eqn:E; [contradiction|].
    rewrite <- E in *. eexists. split; [reflexivity|].
    split; [apply horizon_major_length|].
    intros i j Hi Hj. now apply horizon_major_nth.
Qed.

Lemma eval_df_row_of_anchor_and_step_witness :
  (exists frame,
    eval_df_scaled
            [[Zfloat 1; Zfloat 2]; [Zfloat 3; Zfloat 4]; [Zfloat 5; Zfloat 6]]
            [0; Hour; 2 * Hour]
            [[Zfloat 7; Zfloat 8]; [Zfloat 9; Zfloat 10]; [Zfloat 11; Zfloat 12]]
            2 (fun x => fadd x x)
    = Ok frame
    /\ List.length frame = (Z.to_nat 2 * 3)%nat
    /\ nth_error frame (1 * 3 + 2)
       = Some (mkEvalRow (Some (2 * Hour)) (Some "t+2") (Zfloat 12) (Zfloat 24)))
  /\ eval_df_scaled [[Zfloat 1]; [S754_infinity false]] [0; Hour] [[Zfloat 7]; [Zfloat 9]]
                    1 (fun x => fadd x x)
     = Raise (ValueError "Input contains infinity or a value too large for dtype('float64').")
  /\ eval_df_scaled [] [] [] 1 (fun x => fadd x x)
     = Raise (ValueError "Found array with 0 sample(s) while a minimum of 1 is required.").
Proof.
  split; [|split].
  - destruct (eval_df_row_of_anchor_and_step
                [[Zfloat 1; Zfloat 2]; [Zfloat 3; Zfloat 4]; [Zfloat 5; Zfloat 6]]
                [0; Hour; 2 * Hour]
                [[Zfloat 7; Zfloat 8]; [Zfloat 9; Zfloat 10]; [Zfloat 11; Zfloat 12]]
                2 (fun x => fadd x x))
      as (_ & _ & Hrows).
    + lia.
    + reflexivity.
    + reflexivity.
    + intros r [<-|[<-|[<-|[]]]]; reflexivity.
    + intros r [<-|[<-|[<-|[]]]]; reflexivity.
    + destruct Hrows as (frame & E & Hlen & Hrow).
      * discriminate.
      * reflexivity.
      * exists frame. split; [exact E|]. split; [exact Hlen|].
        etransitivity; [apply (Hrow 2%nat 1%nat); simpl; lia|].
        vm_compute. reflexivity.
  - destruct (eval_df_row_of_anchor_and_step
                [[Zfloat 1]; [S754_infinity false]] [0; Hour] [[Zfloat 7]; [Zfloat 9]]
                1 (fun x => fadd x x))
      as (_ & Hinf & _).
    + lia.
    + reflexivity.
    + reflexivity.
    + intros r [<-|[<-|[]]]; reflexivity.
    + intros r [<-|[<-|[]]]; reflexivity.
    + apply Hinf. reflexivity.
  - destruct (eval_df_row_of_anchor_and_step [] [] [] 1 (fun x => fadd x x))
      as (Hzero & _ & _).
    + lia.
    + reflexivity.
    + reflexivity.
    + intros r [].
    + intros r [].
    + apply Hzero. reflexivity.
Defined.

Lemma transpose_ravel_length y :
  List.length (transpose_ravel y)
  = (List.length (hd [] y) * List.length y)%nat.
Proof.
  unfold transpose_ravel.
  rewrite (flat_map_length_const _ _ (List.length y)).
  - now rewrite length_seq.
  - intros j. now rewrite length_map.
Qed.

(** X15.  Targets of the wrong size are refused.  With well-shaped predictions,
    the assignment of the column [actual] raises [ValueError] whenever the
    target array does not hold as many values as the frame has rows, one per
    anchor and step. *)
Theorem eval_df_target_size_mismatch :
  forall predictions test_shifted_index y_test HORIZON inverse_transform,
    1 <= HORIZON ->
    predictions <> [] ->
    List.length predictions = List.length test_shifted_index ->
    (forall r, In r predictions -> List.length r = Z.to_nat HORIZON) ->
    (List.length (hd [] y_test) * List.length y_test
     <> Z.to_nat HORIZON * List.length test_shifted_index)%nat ->
    eval_df predictions test_shifted_index y_test HORIZON inverse_transform
    = Raise (ValueError "Length of values does not match length of index").
Proof.
  intros preds idx y H f HH Hne Hpi Hpw Hsize.
  set (h := Z.to_nat H) in *.
  set (n := List.length idx) in *.
  assert (Hn : (0 < n)%nat).
  { destruct preds; [contradiction|]. simpl in Hpi. lia. }
  unfold eval_df.
  set (names := map (fun t => String.append "t+" (str t)) (range 1 (H + 1))).
  assert (Hlenn : List.length names = h).
  { unfold names. rewrite length_map, range_length. unfold h. f_equal. lia. }
  unfold wide_frame.
  assert (Hw : forallb (fun r => (List.length r =? List.length names)%nat) preds
               = true).
  { apply forallb_forall. intros r Hr. rewrite Hlenn. apply Nat.eqb_eq. auto. }
  rewrite Hw. cbn [bind].
  unfold assign_values at 1.
  destruct preds as [|p0 preds'] eqn:Epreds; [contradiction|].
  rewrite <- Epreds in *. clear Hne.
  replace (List.length idx =? List.length preds)%nat with true
    by (symmetry; apply Nat.eqb_eq; lia).
  cbn [bind].
  set (wide := map2 _ preds idx).
  assert (Hwide : List.length wide = n).
  { unfold wide. rewrite (map2_nth _ preds idx [] 0 Hpi).
    now rewrite length_map, length_seq. }
  assert (Hlong : List.length (melt names wide) = (h * n)%nat).
  { unfold melt. rewrite (flat_map_length_const _ _ n).
    - rewrite length_combine, length_seq, Hlenn. lia.
    - intros jn. now rewrite length_map. }
  unfold assign_values.
  destruct (melt names wide) as [|l0 long'] eqn:Elong.
  { simpl in Hlong. assert (0 < h)%nat by (unfold h; lia). nia. }
  rewrite <- Elong in *. rewrite transpose_ravel_length, Hlong.
  destruct (Nat.eqb_spec (List.length (hd [] y) * List.length y) (h * n))
    as [E|E]; [contradiction | reflexivity].
Qed.

Lemma eval_df_target_size_mismatch_witness :
  eval_df [[Zfloat 1]; [Zfloat 2]] [0; Hour] [[Zfloat 1]] 1 (fun x => x)
  = Raise (ValueError "Length of values does not match length of index").
Proof.
  apply eval_df_target_size_mismatch.
  - lia.
  - discriminate.
  - reflexivity.
  - intros r [<-|[<-|[]]]; reflexivity.
  - simpl. lia.
Defined.



(** *** Scoring with the encoder and the decoder *)

Lemma decode_outputs {State} (decoder_model : list spec_float -> State -> spec_float * State)
  (states_value : State) rest passes : forall v output,
  decode decoder_model states_value passes (v :: rest) output
  = output
    ++ map (fun t => Nat.iter (S t)
                       (fun x => fst (decoder_model (x :: rest) states_value)) v)
           (seq 0 passes).
Proof.
  induction passes as [|n IH]; intros v output.
  - simpl. now rewrite app_nil_r.
  - cbn [decode].
    destruct (decoder_model (v :: rest) states_value) as [yhat h0] eqn:E.
    cbn [set_nth]. rewrite IH, <- app_assoc. f_equal.
    cbn [seq map app]. f_equal.
    + simpl. now rewrite E.
    + rewrite <- seq_shift, map_map. apply map_ext. intros t.
      rewrite !Nat.iter_succ_r. cbn [fst]. now rewrite E.
Qed.

Lemma rev_last {A} (l : list A) x d : rev l = x :: d -> forall e, last l e = x.
Proof.
  intros E e. rewrite <- (rev_involutive l), E. simpl.
  now rewrite last_last.
Qed.

Lemma single_sequence_outputs {State}
  (encoder_model : list spec_float -> State)
  (decoder_model : list spec_float -> State -> spec_float * State)
  single_input_seq horizon n_features :
  single_input_seq <> [] ->
  1 <= n_features ->
  predict_single_sequence encoder_model decoder_model single_input_seq
                          horizon n_features
  = inr (map (fun t => Nat.iter (S t)
                         (decoder_step decoder_model
                            (encoder_model single_input_seq) n_features)
                         (last single_input_seq NaN))
             (seq 0 (Z.to_nat horizon))).
Proof.
  intros Hne Hn. unfold predict_single_sequence.
  destruct (Z.ltb_spec n_features 0) as [H|_]; [lia|].
  destruct (rev single_input_seq) as [|final tl] eqn:Erev.
  { exfalso. apply Hne. rewrite <- (rev_involutive single_input_seq), Erev.
    reflexivity. }
  rewrite (rev_last _ _ _ Erev NaN).
  destruct (Z.to_nat n_features) as [|n] eqn:En; [lia|].
  cbn [repeat set_nth]. rewrite decode_outputs. cbn [app].
  unfold decoder_step. rewrite En. cbn [Nat.sub]. now rewrite Nat.sub_0_r.
Qed.

(** X17.  The forecasts of [predict_single_sequence].  For an input sequence that
    is not empty it returns [horizon] values; the first is the output of the
    decoder fed the last value of the sequence, and every further one is the
    output of the decoder fed the value before it.  In every pass the decoder
    runs on the state of the encoder: the state it returns is not passed
    on. *)
Theorem decoder_is_fed_its_own_output :
  forall State (encoder_model : list float -> State)
         (decoder_model : list float -> State -> float * State)
         single_input_seq horizon n_features,
    single_input_seq <> [] ->
    1 <= n_features ->
    exists output,
      predict_single_sequence encoder_model decoder_model single_input_seq
                              horizon n_features = inr output
      /\ List.length output = Z.to_nat horizon
      /\ forall t, (t < Z.to_nat horizon)%nat ->
           nth t output NaN
           = decoder_step decoder_model (encoder_model single_input_seq)
               n_features
               (match t with
                | O => last single_input_seq NaN
                | S t' => nth t' output NaN
                end).
Proof.
  intros State enc dec s horizon n Hne Hn.
  eexists. split; [now apply single_sequence_outputs|].
  split; [now rewrite length_map, length_seq|].
  intros t Ht.
  set (step := decoder_step dec (enc s) n).
  assert (Hnth : forall u, (u < Z.to_nat horizon)%nat ->
            nth u (map (fun t => Nat.iter (S t) step (last s NaN))
                       (seq 0 (Z.to_nat horizon))) NaN
            = Nat.iter (S u) step (last s NaN)).
  { intros u Hu.
    rewrite (nth_indep _ NaN (Nat.iter (S 0) step (last s NaN)))
      by now rewrite length_map, length_seq.
    rewrite (map_nth (fun t => Nat.iter (S t) step (last s NaN))).
    now rewrite seq_nth. }
  rewrite Hnth by assumption.
  destruct t as [|t']; [reflexivity|].
  rewrite Hnth by lia. reflexivity.
Qed.

Lemma decoder_is_fed_its_own_output_witness :
  exists output,
    predict_single_sequence (fun s => fsum s)
      (fun d h => (fadd (hd zero d) h, fadd h h))
      [Zfloat 1; Zfloat 2] 3 1 = inr output
    /\ output = [Zfloat 5; Zfloat 8; Zfloat 11].
Proof.
  destruct (decoder_is_fed_its_own_output spec_float (fun s => fsum s)
              (fun d h => (fadd (hd zero d) h, fadd h h))
              [Zfloat 1; Zfloat 2] 3 1) as (output & E & _ & _).
  - discriminate.
  - lia.
  - exists output. split; [exact E|].
    assert (E' : predict_single_sequence (fun s => fsum s)
                   (fun d h => (fadd (hd zero d) h, fadd h h))
                   [Zfloat 1; Zfloat 2] 3 1 = inr output) by exact E.
    vm_compute in E'. injection E' as <-. vm_compute. reflexivity.
Defined.

Lemma predict_all_rows {State}
  (encoder_model : list spec_float -> State)
  (decoder_model : list spec_float -> State -> spec_float * State)
  horizon n_features sequences : forall predictions_all,
  (forall s, In s sequences -> s <> []) ->
  1 <= n_features ->
  predict_all encoder_model decoder_model sequences horizon n_features
              predictions_all
  = inr (predictions_all
         ++ map (fun s => map (fun t => Nat.iter (S t)
                                          (decoder_step decoder_model
                                             (encoder_model s) n_features)
                                          (last s NaN))
                              (seq 0 (Z.to_nat horizon)))
                sequences).
Proof.
  induction sequences as [|s ss IH]; intros acc Hne Hn; cbn [predict_all].
  - now rewrite app_nil_r.
  - rewrite single_sequence_outputs by (try apply Hne; try assumption; now left).
    rewrite IH by (try assumption; intros u Hu; apply Hne; now right).
    now rewrite <- app_assoc.
Qed.

(** X18.  [predict_multi_sequence] scores every sequence by itself: for input
    sequences none of which is empty it returns one row per sequence, in
    order, each row the [horizon] forecasts [predict_single_sequence] gives
    for that sequence. *)
Theorem predict_multi_sequence_rows :
  forall State (encoder_model : list float -> State)
         (decoder_model : list float -> State -> float * State)
         input_seq_multi horizon n_features,
    (forall s, In s input_seq_multi -> s <> []) ->
    1 <= n_features ->
    exists predictions_all,
      predict_multi_sequence encoder_model decoder_model input_seq_multi
                             horizon n_features = inr predictions_all
      /\ List.length predictions_all = List.length input_seq_multi
      /\ (forall r, In r predictions_all -> List.length r = Z.to_nat horizon)
      /\ forall i, (i < List.length input_seq_multi)%nat ->
           predict_single_sequence encoder_model decoder_model
             (nth i input_seq_multi []) horizon n_features
           = inr (nth i predictions_all []).
Proof.
  intros State enc dec seqs horizon n Hne Hn.
  exists (map (fun s => map (fun t => Nat.iter (S t)
                                        (decoder_step dec (enc s) n) (last s NaN))
                            (seq 0 (Z.to_nat horizon))) seqs).
  split.
  { unfold predict_multi_sequence. now rewrite predict_all_rows. }
  split; [now rewrite length_map|]. split.
  - intros r Hr. apply in_map_iff in Hr. destruct Hr as (s & <- & _).
    now rewrite length_map, length_seq.
  - intros i Hi.
    rewrite single_sequence_outputs by (try assumption; apply Hne, nth_In, Hi).
    f_equal.
    set (row := fun s => map (fun t => Nat.iter (S t)
                                         (decoder_step dec (enc s) n) (last s NaN))
                             (seq 0 (Z.to_nat horizon))).
    change (row (nth i seqs []) = nth i (map row seqs) []).
    rewrite (nth_indep (map row seqs) [] (row [])) by now rewrite length_map.
    now rewrite map_nth.
Qed.

Lemma predict_multi_sequence_rows_witness :
  exists predictions_all,
    predict_multi_sequence (fun s => fsum s)
      (fun d h => (fadd (hd zero d) h, fadd h h))
      [[Zfloat 1; Zfloat 2]; [Zfloat 3; Zfloat 4]] 2 1 = inr predictions_all
    /\ List.length predictions_all = 2%nat
    /\ (forall r, In r predictions_all -> List.length r = Z.to_nat 2).
Proof.
  destruct (predict_multi_sequence_rows spec_float (fun s => fsum s)
              (fun d h => (fadd (hd zero d) h, fadd h h))
              [[Zfloat 1; Zfloat 2]; [Zfloat 3; Zfloat 4]] 2 1)
    as (P & E & Hlen & Hrows & _).
  - intros s [<-|[<-|[]]]; discriminate.
  - lia.
  - exists P. split; [exact E|]. split; [exact Hlen | exact Hrows].
Defined.

(** *** The grid of hyperparameters *)

Section GridSearchFacts.
Variable World : Type.
Variable fit_and_score : ModelConfig -> Z -> Z -> World -> spec_float * World.
Variables np_mean standard_error : list spec_float -> spec_float.
Variables (HORIZON N_EXPERIMENTS : Z) (ALPHA : spec_float).

Local Notation loop :=
  (grid_loop World fit_and_score np_mean standard_error HORIZON N_EXPERIMENTS ALPHA).
Local Notation outer :=
  (T_loop World fit_and_score np_mean standard_error HORIZON N_EXPERIMENTS ALPHA).

(** Two grid points that differ in [LATENT_DIM] only. *)
Local Notation same_point :=
  (fun a b : (nat * Z) * (nat * Z) * (nat * spec_float) =>
     fst (fst (fst a)) = fst (fst (fst b))
     /\ snd (fst a) = snd (fst b) /\ snd a = snd b).

Lemma grid_loop_same_points t T_val g g' :
  Forall2 same_point g g' ->
  forall tables w, loop t T_val g tables w = loop t T_val g' tables w.
Proof.
  induction 1 as [|a b g g' Hab _ IH]; intros tables w; [reflexivity|].
  destruct a as [[[i l] [j bs]] [k r]], b as [[[i' l'] [j' bs']] [k' r']].
  cbn [fst snd] in Hab. destruct Hab as (<- & [= <- <-] & [= <- <-]).
  cbn [grid_loop].
  destruct (N_EXPERIMENTS <? 0); [reflexivity|].
  destruct (experiments _ _ _ _ _ _ _ _ _ _) as [ms w'].
  apply IH.
Qed.

Lemma T_loop_same_points g g' :
  Forall2 same_point g g' ->
  forall Ts tables w, outer Ts g tables w = outer Ts g' tables w.
Proof.
  intros Hg. induction Ts as [|[t T_val] Ts IH]; intros tables w;
    [reflexivity|].
  cbn [T_loop]. rewrite (grid_loop_same_points t T_val g g' Hg).
  destruct (loop t T_val g' tables w) as [tw|e]; [|reflexivity].
  cbn [bind]. apply IH.
Qed.

Lemma grid_loop_cells t T_val g :
  0 <= N_EXPERIMENTS ->
  forall tables w,
  exists tw,
    loop t T_val g tables w = Ok tw
    /\ map fst (mapes (fst tw))
       = map fst (mapes tables)
         ++ map (fun p => (t, fst (fst (fst p)), fst (snd (fst p)), fst (snd p))) g
    /\ map fst (st_errs (fst tw))
       = map fst (st_errs tables)
         ++ map (fun p => (t, fst (fst (fst p)), fst (snd (fst p)), fst (snd p))) g.
Proof.
  intros HN.
  induction g as [|[[[i l] [j bs]] [k r]] g IH]; intros tables w.
  - eexists. split; [reflexivity|]. simpl. now rewrite !app_nil_r.
  - cbn [grid_loop].
    destruct (Z.ltb_spec N_EXPERIMENTS 0) as [Hneg|_]; [lia|].
    destruct (experiments _ _ _ _ _ _ _ _ _ _) as [ms w'].
    destruct (IH {| mapes := mapes tables ++ [(t, i, j, k, np_mean ms)];
                    st_errs := st_errs tables ++ [(t, i, j, k, standard_error ms)] |}
                 w') as (tw & E & H1 & H2).
    exists tw. split; [exact E|].
    rewrite H1, H2. cbn [mapes st_errs map fst snd].
    rewrite !map_app, <- !app_assoc. split; reflexivity.
Qed.

Lemma T_loop_cells g Ts :
  0 <= N_EXPERIMENTS ->
  forall tables w,
  exists tw,
    outer Ts g tables w = Ok tw
    /\ map fst (mapes (fst tw))
       = map fst (mapes tables)
         ++ flat_map (fun tT =>
                        map (fun p => (fst tT, fst (fst (fst p)), fst (snd (fst p)),
                                       fst (snd p))) g) Ts
    /\ map fst (st_errs (fst tw))
       = map fst (st_errs tables)
         ++ flat_map (fun tT =>
                        map (fun p => (fst tT, fst (fst (fst p)), fst (snd (fst p)),
                                       fst (snd p))) g) Ts.
Proof.
  intros HN.
  induction Ts as [|[t T_val] Ts IH]; intros tables w.
  - eexists. split; [reflexivity|]. simpl. now rewrite !app_nil_r.
  - cbn [T_loop flat_map fst].
    destruct (grid_loop_cells t T_val g HN tables w) as (tw & E & H1 & H2).
    rewrite E. cbn [bind].
    destruct (IH (fst tw) (snd tw)) as (tw' & E' & H3 & H4).
    exists tw'. split; [exact E'|].
    rewrite H3, H4, H1, H2, <- !app_assoc. split; reflexivity.
Qed.

(** With a negative number of experiments the first grid point raises. *)
Lemma T_loop_negative g Ts tables w :
  N_EXPERIMENTS < 0 -> Ts <> [] -> g <> [] ->
  outer Ts g tables w
  = Raise (ValueError "negative dimensions are not allowed").
Proof.
  intros HN HTs Hg.
  destruct Ts as [|[t T_val] Ts]; [contradiction|].
  destruct g as [|[[[i l] [j bs]] [k r]] g]; [contradiction|].
  cbn [T_loop grid_loop].
  destruct (Z.ltb_spec N_EXPERIMENTS 0) as [_|Hpos]; [reflexivity | lia].
Qed.

End GridSearchFacts.

Lemma Forall2_flat_map {A A' B B'} (P : A -> A' -> Prop) (Q : B -> B' -> Prop)
  (f : A -> list B) (f' : A' -> list B') xs xs' :
  Forall2 P xs xs' ->
  (forall x x', P x x' -> Forall2 Q (f x) (f' x')) ->
  Forall2 Q (flat_map f xs) (flat_map f' xs').
Proof.
  intros H Hf. induction H as [|x x' xs xs' Hx _ IH]; simpl; [constructor|].
  apply Forall2_app; auto.
Qed.

Lemma Forall2_map_same {A B B'} (Q : B -> B' -> Prop) (f : A -> B) (f' : A -> B') l :
  (forall x, Q (f x) (f' x)) -> Forall2 Q (map f l) (map f' l).
Proof. intros H. induction l; simpl; constructor; auto. Qed.

Lemma enumerate_same_indices {A} (xs ys : list A) :
  List.length xs = List.length ys ->
  Forall2 (fun a b => fst a = fst b) (enumerate xs) (enumerate ys).
Proof.
  unfold enumerate. intros Hlen. rewrite <- Hlen.
  generalize 0%nat. revert ys Hlen.
  induction xs as [|x xs IH]; intros [|y ys] Hlen n; try discriminate;
    simpl; constructor; [reflexivity|].
  apply IH. now injection Hlen.
Qed.

Lemma enumerate_indices {A} (xs : list A) :
  map fst (enumerate xs) = seq 0 (List.length xs).
Proof.
  unfold enumerate. generalize 0%nat.
  induction xs as [|x xs IH]; intros n; simpl; [reflexivity|].
  now rewrite IH.
Qed.

Lemma product_indices {A B C} (xs : list (nat * A)) (ys : list (nat * B))
  (zs : list (nat * C)) (t : nat) :
  map (fun p => (t, fst (fst (fst p)), fst (snd (fst p)), fst (snd p)))
      (product xs ys zs)
  = map (fun p => (t, fst (fst p), snd (fst p), snd p))
        (product (map fst xs) (map fst ys) (map fst zs)).
Proof.
  unfold product. rewrite !flat_map_map, !map_flat_map.
  apply flat_map_ext. intros x.
  rewrite !flat_map_map, !map_flat_map. apply flat_map_ext. intros y.
  rewrite !map_map. reflexivity.
Qed.

Lemma in_product {A B C} (xs : list A) (ys : list B) (zs : list C) x y z :
  In (x, y, z) (product xs ys zs) <-> In x xs /\ In y ys /\ In z zs.
Proof.
  unfold product. rewrite in_flat_map. split.
  - intros (x' & Hx & H). apply in_flat_map in H. destruct H as (y' & Hy & H).
    apply in_map_iff in H. destruct H as (z' & [= <- <- <-] & Hz). auto.
  - intros (Hx & Hy & Hz). exists x. split; [assumption|].
    apply in_flat_map. exists y. split; [assumption|].
    apply in_map_iff. exists z. auto.
Qed.

Lemma NoDup_flat_map {A B} (f : A -> list B) (l : list A) :
  NoDup l ->
  (forall x, In x l -> NoDup (f x)) ->
  (forall x y b, In x l -> In y l -> In b (f x) -> In b (f y) -> x = y) ->
  NoDup (flat_map f l).
Proof.
  induction 1 as [|x l Hx Hnd IH]; intros Hf Hdis; simpl; [constructor|].
  apply NoDup_app.
  - apply Hf. now left.
  - apply IH.
    + intros y Hy. apply Hf. now right.
    + intros y z b Hy Hz. apply Hdis; now right.
  - intros b Hb Hb'. apply in_flat_map in Hb'. destruct Hb' as (y & Hy & Hby).
    apply Hx. rewrite (Hdis x y b); auto; [now left | now right].
Qed.

Lemma NoDup_product {A B C} (xs : list A) (ys : list B) (zs : list C) :
  NoDup xs -> NoDup ys -> NoDup zs -> NoDup (product xs ys zs).
Proof.
  intros Hx Hy Hz. unfold product.
  apply NoDup_flat_map; [assumption| |].
  - intros x _. apply NoDup_flat_map; [assumption| |].
    + intros y _. apply NoDup_map_injective; [|assumption].
      intros z z' _ _ [= E]. exact E.
    + intros y y' b _ _ Hb Hb'. apply in_map_iff in Hb, Hb'.
      destruct Hb as (z & <- & _), Hb' as (z' & [= E _] & _). now symmetry.
  - intros x x' b _ _ Hb Hb'. apply in_flat_map in Hb, Hb'.
    destruct Hb as (y & _ & Hb), Hb' as (y' & _ & Hb').
    apply in_map_iff in Hb, Hb'.
    destruct Hb as (z & <- & _), Hb' as (z' & [= E _ _] & _). now symmetry.
Qed.

(** X19.  The grid search never reads [LATENT_DIM]: every model is built by
    [get_model(BATCH_SIZE, LEARNING_RATE, T_val, ALPHA)], its hidden layer as
    wide as the batch.  Replacing the values of [LATENT_DIMS] by any others
    leaves the run and both arrays as they are. *)
Theorem grid_search_ignores_latent_dims :
  forall World (fit_and_score : ModelConfig -> Z -> Z -> World -> float * World)
         (np_mean standard_error : list float -> float)
         HORIZON N_EXPERIMENTS ALPHA
         T_VALUES LATENT_DIMS LATENT_DIMS' BATCH_SIZES LEARNING_RATES w,
    List.length LATENT_DIMS = List.length LATENT_DIMS' ->
    grid_search World fit_and_score np_mean standard_error
                HORIZON N_EXPERIMENTS ALPHA
                T_VALUES LATENT_DIMS BATCH_SIZES LEARNING_RATES w
    = grid_search World fit_and_score np_mean standard_error
                  HORIZON N_EXPERIMENTS ALPHA
                  T_VALUES LATENT_DIMS' BATCH_SIZES LEARNING_RATES w.
Proof.
  intros World fs nm se H N A Ts L L' B R w Hlen. unfold grid_search.
  apply T_loop_same_points. unfold param_grid, product.
  apply (Forall2_flat_map (fun a b => fst a = fst b)).
  - now apply enumerate_same_indices.
  - intros [i l] [i' l'] E. cbn [fst] in E. subst i'.
    apply (Forall2_flat_map eq).
    + clear. induction (enumerate B); constructor; auto.
    + intros y y' <-. apply Forall2_map_same. intros z. cbn [fst snd]. auto.
Qed.

Lemma grid_search_ignores_latent_dims_witness :
  grid_search unit
    (fun m bs T_val w => (Zfloat (hidden_units m + bs + T_val), w))
    (fun ms => hd NaN ms) (fun ms => zero) 24 1 zero
    [3] [5; 10] [8] [zero] tt
  = grid_search unit
      (fun m bs T_val w => (Zfloat (hidden_units m + bs + T_val), w))
      (fun ms => hd NaN ms) (fun ms => zero) 24 1 zero
      [3] [500; 1000] [8] [zero] tt
  /\ grid_search unit
       (fun m bs T_val w => (Zfloat (hidden_units m + bs + T_val), w))
       (fun ms => hd NaN ms) (fun ms => zero) 24 1 zero
       [3] [5; 10] [8] [zero] tt
     = Ok ({| mapes := [((0, 0, 0, 0)%nat, Zfloat 19);
                        ((0, 1, 0, 0)%nat, Zfloat 19)];
              st_errs := [((0, 0, 0, 0)%nat, zero);
                          ((0, 1, 0, 0)%nat, zero)] |}, tt).
Proof.
  split.
  - apply (grid_search_ignores_latent_dims unit
             (fun m bs T_val w => (Zfloat (hidden_units m + bs + T_val), w))
             (fun ms => hd NaN ms) (fun ms => zero) 24 1 zero
             [3] [5; 10] [500; 1000] [8] [zero] tt). reflexivity.
  - vm_compute. reflexivity.
Defined.

(** X20.  With a number of experiments that is not negative the grid search
    runs through and writes every cell of [mapes] and of [st_errs] exactly
    once and no other: the cells written are the [(t, i, j, k)] with [t],
    [i], [j], [k] below the lengths of [T_VALUES], [LATENT_DIMS],
    [BATCH_SIZES] and [LEARNING_RATES], the shape the arrays are created
    with.  With a negative number and no list empty, [np.empty] raises
    [ValueError] at the first grid point. *)
Theorem grid_search_writes_every_cell_once :
  forall World (fit_and_score : ModelConfig -> Z -> Z -> World -> float * World)
         (np_mean standard_error : list float -> float)
         HORIZON N_EXPERIMENTS ALPHA
         T_VALUES LATENT_DIMS BATCH_SIZES LEARNING_RATES w,
    (0 <= N_EXPERIMENTS ->
     exists tables w',
       grid_search World fit_and_score np_mean standard_error
                   HORIZON N_EXPERIMENTS ALPHA
                   T_VALUES LATENT_DIMS BATCH_SIZES LEARNING_RATES w
       = Ok (tables, w')
       /\ NoDup (map fst (mapes tables))
       /\ map fst (st_errs tables) = map fst (mapes tables)
       /\ forall t i j k,
            In (t, i, j, k) (map fst (mapes tables))
            <-> (t < List.length T_VALUES)%nat
                /\ (i < List.length LATENT_DIMS)%nat
                /\ (j < List.length BATCH_SIZES)%nat
                /\ (k < List.length LEARNING_RATES)%nat)
    /\ (N_EXPERIMENTS < 0 ->
        T_VALUES <> [] -> LATENT_DIMS <> [] -> BATCH_SIZES <> [] ->
        LEARNING_RATES <> [] ->
        grid_search World fit_and_score np_mean standard_error
                    HORIZON N_EXPERIMENTS ALPHA
                    T_VALUES LATENT_DIMS BATCH_SIZES LEARNING_RATES w
        = Raise (ValueError "negative dimensions are not allowed")).
Proof.
  intros World fs nm se H N A Ts L B R w. split.
  - intros HN.
    destruct (T_loop_cells World fs nm se H N A (param_grid L B R) (enumerate Ts)
                HN {| mapes := []; st_errs := [] |} w) as ([tables w'] & E & H1 & H2).
    exists tables, w'. split; [exact E|].
    cbn [fst mapes st_errs map app] in H1, H2.
    assert (Hcells : map fst (mapes tables)
                     = flat_map (fun t => map (fun p => (t, fst (fst p), snd (fst p), snd p))
                                              (product (seq 0 (List.length L))
                                                       (seq 0 (List.length B))
                                                       (seq 0 (List.length R))))
                                (seq 0 (List.length Ts))).
    { rewrite H1, <- (enumerate_indices Ts), flat_map_map.
      apply flat_map_ext. intros tT. unfold param_grid.
      now rewrite product_indices, !enumerate_indices. }
    split; [|split].
    + rewrite Hcells. apply NoDup_flat_map.
      * apply seq_NoDup.
      * intros t _. apply NoDup_map_injective.
        -- intros [[i j] k] [[i' j'] k'] _ _ [= -> -> ->]. reflexivity.
        -- apply NoDup_product; apply seq_NoDup.
      * intros t t' b _ _ Hb Hb'. apply in_map_iff in Hb, Hb'.
        destruct Hb as (p & <- & _), Hb' as (p' & [= E' _ _ _] & _). now symmetry.
    + now rewrite H2, H1.
    + intros t i j k. rewrite Hcells, in_flat_map. split.
      * intros (t' & Ht & Hin). apply in_map_iff in Hin.
        destruct Hin as ([[i' j'] k'] & [= <- <- <- <-] & Hp).
        cbn [fst snd]. apply in_product in Hp.
        rewrite !in_seq in Hp. apply in_seq in Ht. lia.
      * intros (Ht & Hi & Hj & Hk). exists t. split; [apply in_seq; lia|].
        apply in_map_iff. exists (i, j, k). split; [reflexivity|].
        apply in_product. rewrite !in_seq. lia.
  - intros HN HTs HL HB HR. unfold grid_search.
    apply T_loop_negative; [assumption| |].
    + destruct Ts; [contradiction | discriminate].
    + destruct L; [contradiction|]. destruct B; [contradiction|].
      destruct R; [contradiction|]. discriminate.
Qed.

Lemma grid_search_writes_every_cell_once_witness :
  (exists tables w',
     grid_search unit
       (fun m bs T_val w => (Zfloat (hidden_units m + bs + T_val), w))
       (fun ms => hd NaN ms) (fun ms => zero) 24 2 zero
       [3; 4] [5; 10] [8] [zero; zero] tt
     = Ok (tables, w')
     /\ NoDup (map fst (mapes tables))
     /\ map fst (st_errs tables) = map fst (mapes tables)
     /\ (In (1, 1, 0, 1)%nat (map fst (mapes tables))
         <-> (1 < 2)%nat /\ (1 < 2)%nat /\ (0 < 1)%nat /\ (1 < 2)%nat))
  /\ grid_search unit
       (fun m bs T_val w => (Zfloat (hidden_units m + bs + T_val), w))
       (fun ms => hd NaN ms) (fun ms => zero) 24 (-1) zero
       [3; 4] [5; 10] [8] [zero; zero] tt
     = Raise (ValueError "negative dimensions are not allowed").
Proof.
  split.
  - destruct (grid_search_writes_every_cell_once unit
                (fun m bs T_val w => (Zfloat (hidden_units m + bs + T_val), w))
                (fun ms => hd NaN ms) (fun ms => zero) 24 2 zero
                [3; 4] [5; 10] [8] [zero; zero] tt) as [Hrun _].
    destruct Hrun as (tables & w' & E & Hnd & Hse & Hcells); [lia|].
    exists tables, w'. split; [exact E|]. split; [exact Hnd|].
    split; [exact Hse|]. exact (Hcells 1%nat 1%nat 0%nat 1%nat).
  - destruct (grid_search_writes_every_cell_once unit
                (fun m bs T_val w => (Zfloat (hidden_units m + bs + T_val), w))
                (fun ms => hd NaN ms) (fun ms => zero) 24 (-1) zero
                [3; 4] [5; 10] [8] [zero; zero] tt) as [_ Hneg].
    apply Hneg; [lia | discriminate..].
Defined.

(** *** Sample counts and refusals of the windowing cells *)





Lemma existsb_shifted d t ts :
  existsb (Z.eqb (t + d)) (map (fun u => u + d) ts) = existsb (Z.eqb t) ts.
Proof.
  induction ts as [|u ts IH]; simpl; [reflexivity|].
  rewrite IH. f_equal.
  destruct (Z.eqb_spec (t + d) (u + d)), (Z.eqb_spec t u); try reflexivity; lia.
Qed.

Lemma is_unique_shifted d ts :
  is_unique (map (fun t => t + d) ts) = is_unique ts.
Proof.
  induction ts as [|t ts IH]; simpl; [reflexivity|].
  now rewrite IH, existsb_shifted.
Qed.

Lemma index_equals_shifted d ts :
  d <> 0 -> ts <> [] -> index_equals (map (fun t => t + d) ts) ts = false.
Proof.
  intros Hd Hne. destruct ts as [|t ts]; [contradiction|]. simpl.
  destruct (Z.eqb_spec (t + d) t); [lia | reflexivity].
Qed.

(** X12.  A frame that holds a timestamp twice is refused by every windowing
    cell: the first assignment of a shifted column raises pandas'
    [ValueError], whatever [T] and whatever the names of the columns. *)
Theorem duplicate_timestamps_are_refused :
  forall y_col x_col T df,
    has_column df "load" = true ->
    is_unique (index df) = false ->
    shifted_frame y_col x_col T df
    = Raise (ValueError "cannot reindex from a duplicate axis").
Proof.
  intros y_col x_col T df Hcol Hdup.
  unfold shifted_frame, shift_load.
  assert (Hl : getitem df "load" = Ok (column df "load")).
  { unfold column, getitem, has_column in *.
    destruct (position "load" (columns df)); [reflexivity | discriminate]. }
  rewrite Hl. cbn [bind]. unfold setitem, ensure_valid_index.
  destruct (rows df) as [|r0 rs] eqn:Hrows.
  { unfold index in Hdup. rewrite Hrows in Hdup. discriminate. }
  unfold reindex.
  rewrite shift_index, (column_index df "load" Hcol).
  rewrite index_equals_shifted, is_unique_shifted, Hdup; [reflexivity| |].
  - unfold Hour. lia.
  - unfold index. rewrite Hrows. discriminate.
Qed.

Lemma duplicate_timestamps_are_refused_witness :
  test_shifted 3 {| columns := ["load"];
                    rows := [(0, [Zfloat 1]); (Hour, [Zfloat 2]); (Hour, [Zfloat 3])] |}
  = Raise (ValueError "cannot reindex from a duplicate axis").
Proof.
  apply duplicate_timestamps_are_refused; reflexivity.
Defined.

(** *** The three periods *)

Lemma strictly_increasing_tail a l :
  strictly_increasing (a :: l) = true ->
  strictly_increasing l = true /\ forall x, In x l -> a < x.
Proof.
  revert a. induction l as [|b l IH]; intros a H.
  - split; [reflexivity | intros x []].
  - cbn [strictly_increasing] in H. apply andb_true_iff in H.
    destruct H as [Hab Hl]. apply Z.ltb_lt in Hab.
    split; [exact Hl|]. intros x [<-|Hx]; [assumption|].
    destruct (IH b Hl) as [_ Hb]. specialize (Hb x Hx). lia.
Qed.

Lemma filter_filter {A} (p q : A -> bool) (l : list A) :
  filter p (filter q l) = filter (fun x => p x && q x) l.
Proof.
  induction l as [|x l IH]; simpl; [reflexivity|].
  destruct (q x); simpl; rewrite ?andb_true_r, ?andb_false_r.
  - destruct (p x); now rewrite IH.
  - exact IH.
Qed.

Lemma three_periods_rows {A} (key : A -> Z) vs ts (l : list A) :
  vs <= ts ->
  strictly_increasing (map key l) = true ->
  filter (fun r => key r <? vs) l
  ++ filter (fun r => (vs <=? key r) && (key r <? ts)) l
  ++ filter (fun r => ts <=? key r) l
  = l.
Proof.
  intros Hle. induction l as [|a l IH]; intros Hs; [reflexivity|].
  cbn [map] in Hs.
  destruct (strictly_increasing_tail (key a) (map key l) Hs) as [Hl Ha].
  assert (Ha' : forall x, In x l -> key a < key x).
  { intros x Hx. apply Ha, in_map, Hx. }
  specialize (IH Hl). cbn [filter].
  destruct (Z.ltb_spec (key a) vs) as [H1|H1].
  - replace (vs <=? key a) with false by (symmetry; apply Z.leb_gt; lia).
    replace (ts <=? key a) with false by (symmetry; apply Z.leb_gt; lia).
    cbn [andb app]. now rewrite IH.
  - assert (Hnone : filter (fun r => key r <? vs) l = []).
    { apply filter_none. intros x Hx. apply Z.ltb_ge.
      specialize (Ha' x Hx). lia. }
    rewrite Hnone in *. cbn [app] in *.
    replace (vs <=? key a) with true by (symmetry; apply Z.leb_le; lia).
    destruct (Z.ltb_spec (key a) ts) as [H2|H2].
    + replace (ts <=? key a) with false by (symmetry; apply Z.leb_gt; lia).
      cbn [andb app]. now rewrite IH.
    + replace (ts <=? key a) with true by (symmetry; apply Z.leb_le; lia).
      cbn [andb].
      assert (Hv : filter (fun r => (vs <=? key r) && (key r <? ts)) l = []).
      { apply filter_none. intros x Hx. apply andb_false_iff. right.
        apply Z.ltb_ge. specialize (Ha' x Hx). lia. }
      rewrite Hv in *. cbn [app] in *. now rewrite IH.
Qed.

(** X5.  The three periods share out the table.  With
    [valid_start_dt <= test_start_dt], both dates and the start of the
    look-back within the range of a [Timestamp], the three splits are made,
    and every row of [energy[['load']]] belongs to the training set, to the
    validation set from [valid_start_dt] on, or to the test set, and to one
    of them only; the rows the validation set holds before
    [valid_start_dt] are the rows of the last [T - 1] hours of the
    training set. *)
Theorem periods_share_out_the_table :
  forall energy T valid_start_dt test_start_dt,
    1 <= T ->
    valid_start_dt <= test_start_dt ->
    Timestamp_min <= valid_start_dt - (T - 1) * Hour ->
    test_start_dt <= Timestamp_max ->
    has_column energy "load" = true ->
    strictly_increasing (index energy) = true ->
    exists whole trn vld tst,
      getitems energy ["load"] = Ok whole
      /\ train energy valid_start_dt = Ok trn
      /\ valid energy valid_start_dt test_start_dt T = Ok vld
      /\ test energy test_start_dt T = Ok tst
      /\ rows trn
         ++ filter (fun r => valid_start_dt <=? fst r) (rows vld)
         ++ rows tst
         = rows whole
      /\ filter (fun r => fst r <? valid_start_dt) (rows vld)
         = filter (fun r => valid_start_dt - (T - 1) * Hour <=? fst r) (rows trn).
Proof.
  intros energy T vs ts HT Hle Hlo Hhi Hcol Hinc.
  assert (HH : Hour = 3600) by reflexivity.
  rewrite train_ok, valid_ok, test_ok by nia.
  unfold has_column in Hcol.
  unfold getitems, filter_index. cbn [columns rows positions].
  destruct (position "load" (columns energy)) as [j|]; [|discriminate].
  cbn [bind]. do 4 eexists.
  do 4 (split; [reflexivity|]). cbn [rows map].
  set (g := fun r : Timestamp * list float => (fst r, [nth j (snd r) NaN])).
  assert (Hf : forall (q : Timestamp -> bool) l,
             filter (fun r => q (fst r)) (map g l)
             = map g (filter (fun r => q (fst r)) l)).
  { intros q l. induction l as [|r l IH]; [reflexivity|].
    cbn [map filter]. unfold g at 1. cbn [fst].
    destruct (q (fst r)); cbn [map]; now rewrite IH. }
  split.
  - rewrite (Hf (fun t => vs <=? t)), filter_filter, <- !map_app. f_equal.
    rewrite (filter_ext
               (fun x => (vs <=? fst x)
                         && ((vs - (T - 1) * Hour <=? fst x) && (fst x <? ts)))
               (fun r => (vs <=? fst r) && (fst r <? ts))).
    + now apply (three_periods_rows fst).
    + intros r. destruct (Z.leb_spec vs (fst r)); [|reflexivity]. cbn [andb].
      replace (vs - (T - 1) * Hour <=? fst r) with true; [reflexivity|].
      symmetry. apply Z.leb_le. nia.
  - rewrite (Hf (fun t => t <? vs)), (Hf (fun t => vs - (T - 1) * Hour <=? t)).
    f_equal. rewrite !filter_filter. apply filter_ext. intros r.
    destruct (Z.ltb_spec (fst r) vs) as [H1|H1]; cbn [andb];
      rewrite ?andb_true_r, ?andb_false_r; [|reflexivity].
    replace (fst r <? ts) with true by (symmetry; apply Z.ltb_lt; lia).
    now rewrite andb_true_r.
Qed.

Lemma periods_share_out_the_table_witness :
  exists whole trn vld tst,
    getitems table10 ["load"] = Ok whole
    /\ train table10 (4 * Hour) = Ok trn
    /\ valid table10 (4 * Hour) (7 * Hour) 3 = Ok vld
    /\ test table10 (7 * Hour) 3 = Ok tst
    /\ rows trn ++ filter (fun r => 4 * Hour <=? fst r) (rows vld) ++ rows tst
       = rows whole
    /\ filter (fun r => fst r <? 4 * Hour) (rows vld)
       = filter (fun r => 4 * Hour - (3 - 1) * Hour <=? fst r) (rows trn).
Proof.
  apply (periods_share_out_the_table table10 3 (4 * Hour) (7 * Hour)).
  - lia.
  - vm_compute. discriminate.
  - vm_compute. discriminate.
  - vm_compute. discriminate.
  - reflexivity.
  - reflexivity.
Defined.
